(** * pipinfo: metadata parsers and the required-by index

    A shallow embedding of the computational core of
    [src/pipinfo/library.py]:

    - the [Requires-Dist] handling of [get_info_from_site_packages_dir]
      (the METADATA / PKG-INFO record parser),
    - [process_requires_file] (the [requires.txt] parser),
    - [get_packages_required_by] and [is_package_required],
    - [get_site_package_dirs], the scan of a directory by
      [get_info_from_site_packages_dir], [get_user_and_system_packages],
    - [get_packages_list_max_sizes], [get_unique_packages] and the lines
      that [list_packages] prints without color,
    - [get_packages_latest_version], [is_package_outdated],
      [get_packages_vulnerabilities] and [is_package_vulnerable],

    and, of [src/pipinfo/main.py], the options of [_process_command_line]
    and the checks of [main].  The interpreter, the directories read and
    the answers of the package index are inputs of these functions.

    Conventions.  A Python [str] is a [string]; every [ascii] stands for one
    code point below 256.  A Python [dict] is an association list in
    insertion order ([Dict.t]), because the code reads
    [list(extras.keys())[0]].  The [re] module (CPython 3.7 and later) is
    embedded for the fragment of the pattern language that the program
    uses: see [Re].  Calls to [logging] have no effect on the values
    computed and are left out. *)

From Stdlib Require Import String Ascii List Bool Arith Lia DecimalString.
Import ListNotations.

Local Open Scope string_scope.
Local Open Scope nat_scope.
Local Open Scope list_scope.

(* ================================================================== *)
(** ** Outcomes of a Python computation *)

Inductive exn : Type :=
| ReError     (* re.error, raised when a pattern does not compile *)
| TypeError   (* raised by [+=] between a dict and a str *)
| KeyError    (* raised by a subscript on a key that is absent *)
| LibraryError (name : string).
              (* raised inside a call of urllib, bs4, packaging or json,
                 with the name of its class *)

(** [Unsupported] marks an interpolated pattern whose text uses regular
    expression syntax that this development does not interpret; no
    statement below is made about such inputs. *)
Inductive result (A : Type) : Type :=
| Ok (a : A)
| Raise (e : exn)
| Unsupported.

Arguments Ok {A} a.
Arguments Raise {A} e.
Arguments Unsupported {A}.

Definition bind {A B : Type} (m : result A) (f : A -> result B) : result B :=
  match m with
  | Ok a => f a
  | Raise e => Raise e
  | Unsupported => Unsupported
  end.

Notation "x <- m ;; k" := (bind m (fun x => k))
  (at level 61, m at next level, right associativity).

Definition raises {A : Type} (m : result A) : Prop :=
  exists e, m = Raise e.

(* ================================================================== *)
(** ** Python string primitives *)

Module Py.

Definition newline : ascii := ascii_of_nat 10.
Definition dquote : ascii := ascii_of_nat 34.
Definition squote : ascii := ascii_of_nat 39.

(** [str.isspace] on one code point below 256. *)
Definition isspace (c : ascii) : bool :=
  let n := nat_of_ascii c in
  ((9 <=? n) && (n <=? 13)) || ((28 <=? n) && (n <=? 32))
  || (n =? 133) || (n =? 160).

(** [str.lower] on one code point below 256: A-Z, and the Latin-1
    capitals 192-222 except the multiplication sign 215. *)
Definition lower_char (c : ascii) : ascii :=
  let n := nat_of_ascii c in
  if ((65 <=? n) && (n <=? 90))
     || ((192 <=? n) && (n <=? 222) && negb (n =? 215))
  then ascii_of_nat (n + 32) else c.

Fixpoint lower (s : string) : string :=
  match s with
  | EmptyString => EmptyString
  | String c s' => String (lower_char c) (lower s')
  end.

Fixpoint lstrip (s : string) : string :=
  match s with
  | EmptyString => EmptyString
  | String c s' => if isspace c then lstrip s' else s
  end.

Fixpoint rstrip (s : string) : string :=
  match s with
  | EmptyString => EmptyString
  | String c s' =>
      match rstrip s' with
      | EmptyString => if isspace c then EmptyString else String c EmptyString
      | r => String c r
      end
  end.

(** [s.strip()] *)
Definition strip (s : string) : string := rstrip (lstrip s).

(** Truth value of a str: [if s:] *)
Definition truthy (s : string) : bool :=
  match s with EmptyString => false | _ => true end.

(** [s.startswith(p)] *)
Definition startswith (p s : string) : bool := String.prefix p s.

(** [c in s] for a one-character [c] *)
Fixpoint has_char (c : ascii) (s : string) : bool :=
  match s with
  | EmptyString => false
  | String x s' => Ascii.eqb x c || has_char c s'
  end.

(** [sub in s] *)
Fixpoint contains (sub s : string) : bool :=
  String.prefix sub s
  || match s with
     | EmptyString => false
     | String _ s' => contains sub s'
     end.

(** [s[0] == c]; only called on a non-empty [s]. *)
Definition first_is (c : ascii) (s : string) : bool :=
  match s with
  | String x _ => Ascii.eqb x c
  | EmptyString => false
  end.

(** [s[1:]] *)
Definition drop1 (s : string) : string :=
  match s with
  | EmptyString => EmptyString
  | String _ s' => s'
  end.

(** [s.split(sep)] for a non-empty [sep]: cut at the leftmost,
    non-overlapping occurrences.  [skip] counts the characters of the
    separator still to pass over, [cur] is the piece being read. *)
Fixpoint split_go (sep : string) (skip : nat) (cur s : string)
  : list string :=
  match s with
  | EmptyString => [cur]
  | String c s' =>
      match skip with
      | S n => split_go sep n cur s'
      | O =>
          if String.prefix sep s
          then cur :: split_go sep (String.length sep - 1) EmptyString s'
          else split_go sep 0 (cur ++ String c EmptyString)%string s'
      end
  end.

Definition split (sep s : string) : list string :=
  split_go sep 0 EmptyString s.

(** Membership in a list of str: [x in l] *)
Definition mem (x : string) (l : list string) : bool :=
  existsb (String.eqb x) l.

End Py.

(* ================================================================== *)
(** ** The fragment of [re] used by the program

    Every pattern of the program is a sequence of one-character atoms (a
    literal, [.], or a class [[...]]), each possibly under a greedy [*],
    optionally anchored by [^] in front and [$] at the end.  Matching is
    CPython's: leftmost, greedy with backtracking; [.] excludes the newline;
    [$] holds at the end and before a final newline; [^] holds at position 0
    only.  [sub] is [re.sub] for a replacement text without escapes,
    including its rule for empty matches ([must_advance]). *)

Module Re.

Inductive atom : Type :=
| Chr (c : ascii)
| Any
| OneOf (cs : list ascii).

Inductive item : Type :=
| One (a : atom)
| Star (a : atom).

Record regex : Type := mk {
  bol : bool;
  body : list item;
  eol : bool
}.

Definition atom_ok (a : atom) (c : ascii) : bool :=
  match a with
  | Chr x => Ascii.eqb x c
  | Any => negb (Ascii.eqb c Py.newline)
  | OneOf cs => existsb (Ascii.eqb c) cs
  end.

(** Greedy [a*] followed by the continuation [k]: take one more character
    when that leads to a match, give it back otherwise. *)
Fixpoint star (a : atom) (k : string -> option string) (s : string)
  : option string :=
  match s with
  | String c s' =>
      if atom_ok a c
      then match star a k s' with
           | Some r => Some r
           | None => k s
           end
      else k s
  | EmptyString => k s
  end.

(** [items its k s]: match [its] at the front of [s], then [k] on what is
    left; the answer is the text left after the whole match. *)
Fixpoint items (its : list item) (k : string -> option string) (s : string)
  : option string :=
  match its with
  | [] => k s
  | One a :: r =>
      match s with
      | String c s' => if atom_ok a c then items r k s' else None
      | EmptyString => None
      end
  | Star a :: r => star a (items r k) s
  end.

(** [$]: at the end, or before a newline that ends the text. *)
Definition at_end (s : string) : bool :=
  match s with
  | EmptyString => true
  | String c EmptyString => Ascii.eqb c Py.newline
  | _ => false
  end.

(** The end of a match attempt that started at [start]. *)
Definition accept (r : regex) (must_advance : bool) (start rest : string)
  : option string :=
  if eol r && negb (at_end rest) then None
  else if must_advance && (String.length rest =? String.length start) then None
  else Some rest.

(** One attempt at the current position; [at_bol] says whether this is
    position 0. *)
Definition try_at (r : regex) (at_bol must_advance : bool) (s : string)
  : option string :=
  if bol r && negb at_bol then None
  else items (body r) (accept r must_advance s) s.

(** [re.sub]: scan left to right; [skip] counts the characters of the
    last match that are still to be passed over. *)
Fixpoint sub_go (r : regex) (repl : string) (at_bol : bool) (skip : nat)
  (s : string) {struct s} : string :=
  match skip with
  | S n =>
      match s with
      | String _ s' => sub_go r repl false n s'
      | EmptyString => EmptyString
      end
  | O =>
      match try_at r at_bol false s with
      | Some rest =>
          match String.length s - String.length rest with
          | S n =>
              (repl ++ match s with
                       | String _ s' => sub_go r repl false n s'
                       | EmptyString => EmptyString
                       end)%string
          | O =>
              (* empty match: the next match at this position must advance *)
              (repl ++
               match try_at r at_bol true s with
               | Some rest' =>
                   repl ++ match s with
                           | String _ s' =>
                               sub_go r repl false
                                 (String.length s - String.length rest' - 1) s'
                           | EmptyString => EmptyString
                           end
               | None =>
                   match s with
                   | String c s' => String c (sub_go r repl false 0 s')
                   | EmptyString => EmptyString
                   end
               end)%string
          end
      | None =>
          match s with
          | String c s' => String c (sub_go r repl false 0 s')
          | EmptyString => EmptyString
          end
      end
  end.

(** [re.sub(r, repl, s)] *)
Definition sub (r : regex) (repl s : string) : string :=
  sub_go r repl true 0 s.

(** Characters with a meaning of their own in a pattern, outside a class
    (the special characters of CPython's pattern parser). *)
Definition special (c : ascii) : bool :=
  existsb (Ascii.eqb c)
    ["."; "\"; "["; "{"; "("; ")"; "*"; "+"; "?"; "^"; "$"; "|"]%char.

Definition lit (c : ascii) : item :=
  if Ascii.eqb c "."%char then One Any else One (Chr c).

(** A literal text of the program's own patterns. *)
Fixpoint text (s : string) : list item :=
  match s with
  | EmptyString => []
  | String c s' => One (Chr c) :: text s'
  end.

Definition plain (c : ascii) : bool :=
  negb (special c) || Ascii.eqb c "."%char.

Definition plain_or_open (c : ascii) : bool :=
  plain c || Ascii.eqb c "("%char.

Fixpoint all_chars (p : ascii -> bool) (s : string) : bool :=
  match s with
  | EmptyString => true
  | String c s' => p c && all_chars p s'
  end.

Fixpoint fragment (s : string) : list item :=
  match s with
  | EmptyString => []
  | String c s' => lit c :: fragment s'
  end.

(** Text pasted unescaped into a pattern (the [dependency] and [extra]
    of the parsers).
    - Only ordinary characters and [.]: they compile to themselves.
    - Otherwise, when the only other special character is [(]: the group
      it opens is never closed (no pattern of the program holds a [)]),
      and [re.compile] raises [re.error].
    - Anything else is outside the fragment interpreted here. *)
Definition interpolate (s : string) : result (list item) :=
  if all_chars plain s then Ok (fragment s)
  else if all_chars plain_or_open s then Raise ReError
  else Unsupported.

End Re.

(* ================================================================== *)
(** ** The patterns of the program *)

Module Pat.
Import Re.

Definition sp : item := Star (Chr " "%char).
Definition semis : item := Star (Chr ";"%char).

(** The class [[ ;!~<=>]] *)
Definition delimiter : atom :=
  OneOf [" "; ";"; "!"; "~"; "<"; "="; ">"]%char.

(** pattern  ^ *\[  *)
Definition header_open : regex := mk true [sp; One (Chr "["%char)] false.

(** pattern  \] *$  *)
Definition header_close : regex := mk false [One (Chr "]"%char); sp] true.

(** pattern  [ ;!~<=>].*$  *)
Definition after_name_eol : regex := mk false [One delimiter; Star Any] true.

(** pattern  [ ;!~<=>].*  *)
Definition after_name : regex := mk false [One delimiter; Star Any] false.

(** pattern  ^.*] *;* *  *)
Definition through_bracket : regex :=
  mk true [Star Any; One (Chr "]"%char); sp; semis; sp] false.

(** pattern  ^DEPENDENCY *;* *  where DEPENDENCY is the pasted text of
    [dependency], compiled to [dep] *)
Definition through_name (dep : list item) : regex :=
  mk true (dep ++ [sp; semis; sp]) false.

(** patterns  ^Name: , ^Version: , ^Summary: , ^Requires-Dist: 
    (each ends with one space) *)
Definition field (key : string) : regex := mk true (text key) false.

(** pattern  [QUOTES].*  where the class holds the single and the double
    quote *)
Definition from_quote : regex :=
  mk false [One (OneOf [Py.squote; Py.dquote]); Star Any] false.

(** pattern   *;* *extra == .EXTRA. *  (it starts with a space), where
    EXTRA is the pasted text of [extra], compiled to [ex] *)
Definition extra_marker (ex : list item) : regex :=
  mk false ([sp; semis; sp] ++ text "extra == " ++ [One Any] ++ ex
            ++ [One Any; sp]) false.

(** pattern   *and *;  (it starts with a space) *)
Definition and_before_semi : regex := mk false (sp :: text "and" ++ [sp] ++ text ";") false.

(** pattern  ;and *  *)
Definition and_after_semi : regex := mk false (text ";and" ++ [sp]) false.

(** pattern  ;$  *)
Definition final_semi : regex := mk false (text ";") true.

(** pattern  .*\[  *)
Definition up_to_open : regex := mk false [Star Any; One (Chr "["%char)] false.

(** pattern  ].*  *)
Definition from_close : regex := mk false [One (Chr "]"%char); Star Any] false.

(** pattern  \[.*  *)
Definition from_open : regex := mk false [One (Chr "["%char); Star Any] false.

End Pat.

(* ================================================================== *)
(** ** Python dicts with str keys, in insertion order *)

Module Dict.
Section Dict.
Variable V : Type.

Definition t : Type := list (string * V).

(** [d[k]], [None] standing for an absent key *)
Fixpoint get (k : string) (d : t) : option V :=
  match d with
  | [] => None
  | (k', v) :: r => if String.eqb k' k then Some v else get k r
  end.

(** [k in d] *)
Definition mem (k : string) (d : t) : bool :=
  match get k d with Some _ => true | None => false end.

(** [d[k] = v]: a key already there keeps its place, a new key goes last *)
Fixpoint set (k : string) (v : V) (d : t) : t :=
  match d with
  | [] => [(k, v)]
  | (k', v') :: r =>
      if String.eqb k' k then (k', v) :: r else (k', v') :: set k v r
  end.

(** [del d[k]] *)
Fixpoint del (k : string) (d : t) : t :=
  match d with
  | [] => []
  | (k', v') :: r => if String.eqb k' k then r else (k', v') :: del k r
  end.

(** [list(d.keys())], also the order of [for k in d] *)
Definition keys (d : t) : list string := map fst d.

End Dict.

Arguments get {V} k d.
Arguments mem {V} k d.
Arguments set {V} k v d.
Arguments del {V} k d.
Arguments keys {V} d.
End Dict.

(* ================================================================== *)
(** ** Packages *)

(** What a dependency is mapped to: its conditions, a str; or the empty
    dict that [process_requires_file] first stores under a new name. *)
Inductive value : Type :=
| Str (s : string)
| EmptyDict.

Definition value_truthy (v : value) : bool :=
  match v with
  | Str s => Py.truthy s
  | EmptyDict => false
  end.

(** [v += s] for a str [s] *)
Definition iadd (v : value) (s : string) : result value :=
  match v with
  | Str x => Ok (Str (x ++ s)%string)
  | EmptyDict => Raise TypeError
  end.

Definition requirements : Type := Dict.t value.

(** The dict appended to [info] by [get_info_from_site_packages_dir] *)
Record package : Type := mk_package {
  pkg_directory : string;
  pkg_type : string;
  pkg_name : string;
  pkg_version : string;
  pkg_summary : string;
  pkg_requires : requirements;
  pkg_extras : Dict.t requirements
}.

(* ================================================================== *)
(** ** Requirement lines *)

(** [dependency] and [conditions] of one requirement line (lines 166-171
    of library.py with [after := Pat.after_name], lines 75-79 with
    [after := Pat.after_name_eol]). *)
Definition requirement (after : Re.regex) (line : string)
  : result (string * string) :=
  let dependency := Re.sub after "" line in
  if Py.has_char "["%char dependency
  then Ok (dependency, Re.sub Pat.through_bracket "" line)
  else dep <- Re.interpolate dependency ;;
       Ok (dependency, Re.sub (Pat.through_name dep) "" line).

(* ================================================================== *)
(** ** The metadata record parser (METADATA, PKG-INFO) *)

(** Lines 186-190 and 192-196: a first declaration stores the conditions,
    a later one appends them after a semicolon. *)
Definition declare (dependency conditions : string) (d : requirements)
  : result requirements :=
  match Dict.get dependency d with
  | Some v =>
      if Py.truthy conditions
      then v' <- iadd v (";" ++ conditions)%string ;;
           Ok (Dict.set dependency v' d)
      else Ok d
  | None => Ok (Dict.set dependency (Str conditions) d)
  end.

(** One turn of [for part in conditions.split("extra == ")[1:]] *)
Definition file_under_extra (dependency : string)
  (st : string * Dict.t requirements) (part : string)
  : result (string * Dict.t requirements) :=
  let '(conditions, extras) := st in
  let extra := Re.sub Pat.from_quote "" (Py.drop1 part) in
  ex <- Re.interpolate extra ;;
  let conditions := Re.sub (Pat.extra_marker ex) ";" conditions in
  let conditions := Re.sub Pat.and_before_semi "" conditions in
  let conditions := Re.sub Pat.and_after_semi ";" conditions in
  let conditions := Re.sub Pat.final_semi "" conditions in
  let extras :=
    if Dict.mem extra extras then extras else Dict.set extra [] extras in
  match Dict.get extra extras with
  | Some group =>
      group' <- declare dependency conditions group ;;
      Ok (conditions, Dict.set extra group' extras)
  | None => Raise KeyError
  end.

Fixpoint for_parts (dependency : string) (parts : list string)
  (st : string * Dict.t requirements)
  : result (string * Dict.t requirements) :=
  match parts with
  | [] => Ok st
  | part :: rest =>
      st' <- file_under_extra dependency st part ;;
      for_parts dependency rest st'
  end.

(** The branch [elif line.startswith("Requires-Dist: ")] *)
Definition requires_dist (line : string) (p : package) : result package :=
  let line := Re.sub (Pat.field "Requires-Dist: ") "" line in
  dc <- requirement Pat.after_name line ;;
  let '(dependency, conditions) := dc in
  if Py.contains "extra == " line
  then
    st <- for_parts dependency (tl (Py.split "extra == " conditions))
            (conditions, pkg_extras p) ;;
    Ok (mk_package (pkg_directory p) (pkg_type p) (pkg_name p)
          (pkg_version p) (pkg_summary p) (pkg_requires p) (snd st))
  else
    requires <- declare dependency conditions (pkg_requires p) ;;
    Ok (mk_package (pkg_directory p) (pkg_type p) (pkg_name p)
          (pkg_version p) (pkg_summary p) requires (pkg_extras p)).

(** Fields that are recognised and passed over *)
Definition passed_over : list string :=
  [ "Home-page: "; "Project-URL: "; "Download-URL: "; "Author: ";
    "Author-email: "; "Maintainer: "; "Maintainer-email: "; "License: ";
    "License-Expression: "; "License-File: "; "Platform: ";
    "Requires-Python: "; "Keywords: "; "Classifier: ";
    "Description-Content-Type: "; "Provides: "; "Provides-Extra: " ].

Inductive flow : Type := Next | Break.

(** The body of [for line in lines] *)
Definition metadata_line (line : string) (p : package)
  : result (flow * package) :=
  let line := Py.strip line in
  if Py.startswith "Metadata-Version: " line then Ok (Next, p)
  else if Py.startswith "Name: " line then
    Ok (Next, mk_package (pkg_directory p) (pkg_type p)
                (Re.sub (Pat.field "Name: ") "" line)
                (pkg_version p) (pkg_summary p) (pkg_requires p) (pkg_extras p))
  else if Py.startswith "Version: " line then
    Ok (Next, mk_package (pkg_directory p) (pkg_type p) (pkg_name p)
                (Re.sub (Pat.field "Version: ") "" line)
                (pkg_summary p) (pkg_requires p) (pkg_extras p))
  else if Py.startswith "Summary: " line then
    Ok (Next, mk_package (pkg_directory p) (pkg_type p) (pkg_name p)
                (pkg_version p)
                (Re.sub (Pat.field "Summary: ") "" line)
                (pkg_requires p) (pkg_extras p))
  else if Py.startswith "Requires-Dist: " line then
    p' <- requires_dist line p ;; Ok (Next, p')
  else if existsb (fun key => Py.startswith key line) passed_over then
    Ok (Next, p)
  else if negb (Py.truthy line) then Ok (Break, p)
  else Ok (Next, p).

Fixpoint metadata_lines (lines : list string) (p : package) : result package :=
  match lines with
  | [] => Ok p
  | line :: rest =>
      fp <- metadata_line line p ;;
      match fst fp with
      | Break => Ok (snd fp)
      | Next => metadata_lines rest (snd fp)
      end
  end.

(** Lines 146-235 of [get_info_from_site_packages_dir]: the package read
    from the lines of one METADATA or PKG-INFO file, before any
    requires.txt is merged in. *)
Definition parse_metadata (package_dir directory_type : string)
  (lines : list string) : result package :=
  metadata_lines lines
    (mk_package package_dir directory_type "" "" "" [] []).

(* ================================================================== *)
(** ** The requires.txt parser *)

(** Lines 81-94 and 96-109 *)
Definition declare_legacy (dependency conditions extra_conditions : string)
  (d : requirements) : result requirements :=
  match Dict.get dependency d with
  | Some v =>
      v1 <- (if Py.truthy conditions
             then iadd v (";" ++ conditions)%string else Ok v) ;;
      v2 <- (if Py.truthy extra_conditions
             then iadd v1 (";" ++ extra_conditions)%string else Ok v1) ;;
      Ok (Dict.set dependency v2 d)
  | None =>
      let v0 := EmptyDict in
      let v1 := if Py.truthy conditions then Str conditions else v0 in
      v2 <- (if Py.truthy extra_conditions
             then if value_truthy v1
                  then iadd v1 (";" ++ extra_conditions)%string
                  else Ok (Str extra_conditions)
             else Ok v1) ;;
      Ok (Dict.set dependency v2 d)
  end.

Record requires_state : Type := mk_requires_state {
  cur_extra : string;
  cur_extra_conditions : string;
  cur_requires : requirements;
  cur_extras : Dict.t requirements
}.

(** The body of [for line in lines] in [process_requires_file] *)
Definition requires_line (line : string) (st : requires_state)
  : result requires_state :=
  let line := Py.strip line in
  if Py.truthy line then
    if Py.first_is "["%char line then
      let line := Re.sub Pat.header_open "" line in
      let line := Re.sub Pat.header_close "" line in
      let parts := Py.split ":" line in
      let extra := nth 0 parts "" in
      let extra_conditions :=
        match parts with
        | _ :: c :: _ => c
        | _ => ""
        end in
      let extras :=
        if Py.truthy extra && negb (Dict.mem extra (cur_extras st))
        then Dict.set extra [] (cur_extras st)
        else cur_extras st in
      Ok (mk_requires_state extra extra_conditions (cur_requires st) extras)
    else
      dc <- requirement Pat.after_name_eol line ;;
      let '(dependency, conditions) := dc in
      if Py.truthy (cur_extra st) then
        match Dict.get (cur_extra st) (cur_extras st) with
        | Some group =>
            group' <- declare_legacy dependency conditions
                        (cur_extra_conditions st) group ;;
            Ok (mk_requires_state (cur_extra st) (cur_extra_conditions st)
                  (cur_requires st)
                  (Dict.set (cur_extra st) group' (cur_extras st)))
        | None => Raise KeyError
        end
      else
        requires <- declare_legacy dependency conditions
                      (cur_extra_conditions st) (cur_requires st) ;;
        Ok (mk_requires_state (cur_extra st) (cur_extra_conditions st)
              requires (cur_extras st))
  else Ok st.

Fixpoint requires_lines (lines : list string) (st : requires_state)
  : result requires_state :=
  match lines with
  | [] => Ok st
  | line :: rest => st' <- requires_line line st ;; requires_lines rest st'
  end.

(** [process_requires_file], from the lines of the file *)
Definition process_requires_file (lines : list string)
  (requires : requirements) (extras : Dict.t requirements)
  : result (requirements * Dict.t requirements) :=
  st <- requires_lines lines (mk_requires_state "" "" requires extras) ;;
  Ok (cur_requires st, cur_extras st).

(* ================================================================== *)
(** ** The required-by index *)

(** The two dicts of [get_packages_required_by]: [extras], the pending
    extras of each dependency, and [required_by]. *)
Record state : Type := mk_state {
  extras : Dict.t (list string);
  required_by : Dict.t (list string)
}.

(** Lines 537-541 and 567-571 (and their copies in the loop): append [x] to
    the list under [k] unless it is there, start the list otherwise. *)
Definition add_once (k x : string) (d : Dict.t (list string))
  : Dict.t (list string) :=
  match Dict.get k d with
  | Some l => if Py.mem x l then d else Dict.set k (l ++ [x]) d
  | None => Dict.set k [x] d
  end.

(** The text between the last opening bracket and the next closing one *)
Definition bracketed (dependency : string) : string :=
  Re.sub Pat.from_close "" (Re.sub Pat.up_to_open "" dependency).

(** The extras requested by a lowercased dependency *)
Definition requested (dependency : string) : list string :=
  Py.split "," (bracketed dependency).

(** The key of a lowercased dependency in both dicts *)
Definition bare (dependency : string) : string :=
  if Py.has_char "["%char dependency
  then Re.sub Pat.from_open "" dependency
  else dependency.

(** What is done for one dependency of the package [name]
    (lines 529-571, and 584-602 in the loop) *)
Definition add_dependency (name dependency : string) (st : state) : state :=
  let dependency := Py.lower dependency in
  if Py.has_char "["%char dependency then
    mk_state
      (fold_left (fun ex part => add_once (bare dependency) part ex)
         (requested dependency) (extras st))
      (add_once (bare dependency) name (required_by st))
  else
    mk_state (extras st) (add_once dependency name (required_by st)).

Definition add_dependencies (name : string) (deps : list string) (st : state)
  : state :=
  fold_left (fun st dependency => add_dependency name dependency st) deps st.

(** The first loop (lines 526-571) *)
Definition scan_package (st : state) (p : package) : state :=
  add_dependencies (Py.lower (pkg_name p)) (Dict.keys (pkg_requires p)) st.

Definition scan (packages : list package) : state :=
  fold_left scan_package packages (mk_state [] []).

(** The body of [for extra in value] *)
Definition activate (p : package) (name extra : string) (st : state) : state :=
  match Dict.get extra (pkg_extras p) with
  | Some group => add_dependencies name (Dict.keys group) st
  | None => st
  end.

(** The list under [key], empty for an absent key *)
Definition list_at (key : string) (d : Dict.t (list string)) : list string :=
  match Dict.get key d with
  | Some l => l
  | None => []
  end.

(** [value = extras[key]] is the list object held by the dict: what is
    appended to [extras[key]] while the loop runs is seen by the loop, so
    the loop reads the list under [key] afresh at every turn. *)
Definition value_of (key : string) (st : state) : list string :=
  list_at key (extras st).

(** [for extra in value], from index [i] on; [None] when [fuel] turns of
    the loop were not enough. *)
Fixpoint for_value (fuel : nat) (p : package) (name key : string) (i : nat)
  (st : state) : option state :=
  match nth_error (value_of key st) i with
  | None => Some st
  | Some extra =>
      match fuel with
      | O => None
      | S fuel' => for_value fuel' p name key (S i) (activate p name extra st)
      end
  end.

(** Every extra requested by a dependency listed under an extra of [p] *)
Definition requests (p : package) : list string :=
  flat_map
    (fun eg => flat_map (fun dc => requested (Py.lower (fst dc))) (snd eg))
    (pkg_extras p).

(** The loop appends to [value] only extras of [requests p] that are not
    yet in it, so it makes at most this many turns
    (see [for_value_total]). *)
Definition turns (p : package) (key : string) (st : state) : nat :=
  length (value_of key st) + length (requests p).

(** The body of [for package in packages] in the loop.  The inner loop is
    given [turns] turns, which it never exhausts ([for_value_total]). *)
Definition drain_package (key : string) (st : state) (p : package) : state :=
  let name := Py.lower (pkg_name p) in
  if String.eqb key name then
    match for_value (turns p key st) p name key 0 st with
    | Some st' => st'
    | None => st
    end
  else st.

(** One turn of [while extras] *)
Definition drain_step (packages : list package) (st : state) : state :=
  match extras st with
  | [] => st
  | (key, _) :: _ =>
      let st' := fold_left (drain_package key) packages st in
      mk_state (Dict.del key (extras st')) (required_by st')
  end.

(** [while extras]: [None] when the loop is still running after [fuel]
    turns. *)
Fixpoint drain (fuel : nat) (packages : list package) (st : state)
  : option (Dict.t (list string)) :=
  match extras st with
  | [] => Some (required_by st)
  | _ :: _ =>
      match fuel with
      | O => None
      | S fuel' => drain fuel' packages (drain_step packages st)
      end
  end.

Definition get_packages_required_by (fuel : nat) (packages : list package)
  : option (Dict.t (list string)) :=
  drain fuel packages (scan packages).

Definition is_package_required (p : package)
  (required_by : Dict.t (list string)) : bool :=
  Dict.mem (Py.lower (pkg_name p)) required_by.

(** The state after [n] turns of [while extras] *)
Fixpoint after_turns (n : nat) (packages : list package) (st : state) : state :=
  match n with
  | O => st
  | S n' => after_turns n' packages (drain_step packages st)
  end.

(* ================================================================== *)
(** ** The patterns of a requirement line, read as functions on text *)

Module Plain.

Definition is_delimiter (c : ascii) : bool := Re.atom_ok Pat.delimiter c.

(** The text before the first of space ; ! ~ < = > *)
Fixpoint upto_delimiter (s : string) : string :=
  match s with
  | EmptyString => EmptyString
  | String c s' =>
      if is_delimiter c then EmptyString else String c (upto_delimiter s')
  end.

(** The text after the last closing bracket, when there is one *)
Fixpoint after_last_close (s : string) : option string :=
  match s with
  | EmptyString => None
  | String c s' =>
      match after_last_close s' with
      | Some t => Some t
      | None => if Ascii.eqb "]"%char c then Some s' else None
      end
  end.

Fixpoint lstrip_char (x : ascii) (s : string) : string :=
  match s with
  | EmptyString => EmptyString
  | String c s' => if Ascii.eqb x c then lstrip_char x s' else s
  end.

(** Leading spaces, then semicolons, then spaces, removed *)
Definition lead_stripped (s : string) : string :=
  lstrip_char " "%char (lstrip_char ";"%char (lstrip_char " "%char s)).

Fixpoint drop (n : nat) (s : string) : string :=
  match n, s with
  | S n', String _ s' => drop n' s'
  | _, _ => s
  end.

Definition no_newline (s : string) : Prop := Py.has_char Py.newline s = false.

End Plain.

(* ================================================================== *)
(** ** The dependency name as the specification words it *)

Module Spec.

(** The dependency name of section 4.1: the text up to the first of
    space ; ! ~ < = > or the opening bracket. *)
Fixpoint dependencyName (line : string) : string :=
  match line with
  | EmptyString => EmptyString
  | String c s' =>
      if Plain.is_delimiter c || Ascii.eqb c "["%char
      then EmptyString
      else String c (dependencyName s')
  end.

End Spec.

(* ================================================================== *)
(** ** Membership in an index *)

(** [x in d[k]], for a key that is there *)
Definition holds (d : Dict.t (list string)) (k x : string) : Prop :=
  exists l, Dict.get k d = Some l /\ In x l.

(** The key under which a dependency, as declared, is indexed *)
Definition index_key (dependency : string) : string :=
  bare (Py.lower dependency).

(** A dependency without its bracketed extras, read as plain text: what
    comes before the first opening bracket, all of it when there is
    none. *)
Fixpoint without_extras (dependency : string) : string :=
  match dependency with
  | EmptyString => EmptyString
  | String c s' =>
      if Ascii.eqb c "["%char then EmptyString
      else String c (without_extras s')
  end.

Definition lowered (s : string) : Prop := Py.lower s = s.

(** Every key and every member of the index is in lowercase. *)
Definition normal (d : Dict.t (list string)) : Prop :=
  forall k l, In (k, l) d -> lowered k /\ forall x, In x l -> lowered x.

Definition lower_fixed (c : ascii) : bool := Ascii.eqb (Py.lower_char c) c.

(** The entries of a dict under one name *)
Definition entries {V : Type} (k : string) (d : Dict.t V) : Dict.t V :=
  filter (fun kv => String.eqb (fst kv) k) d.

(** [v] is [v0] followed by distinct extras taken from [C] *)
Definition grown (C v0 v : list string) : Prop :=
  exists app, v = v0 ++ app /\ NoDup app /\ incl app C.

(** No dependency listed under an extra of [p] requests extras itself. *)
Definition flat (p : package) : bool :=
  forallb
    (fun eg =>
       forallb (fun dc => negb (Py.has_char "["%char (Py.lower (fst dc))))
         (snd eg))
    (pkg_extras p).

(* ================================================================== *)
(** ** Package lists used in the scenarios *)

Module Scenario.

Definition pkg (name : string) (requires : requirements)
  (extras : Dict.t requirements) : package :=
  mk_package "site-packages" "user" name "1.0" "" requires extras.

(** A requires B[x]; the extra x of B holds C. *)
Definition A : package := pkg "A" [("B[x]", Str "")] [].
Definition B : package := pkg "B" [] [("x", [("C", Str "")])].

(** The extra x of B pulls in C[y], the extra y of C pulls in B[x]. *)
Definition B_cyclic : package := pkg "B" [] [("x", [("C[y]", Str "")])].
Definition C_cyclic : package := pkg "C" [] [("y", [("B[x]", Str "")])].
Definition cyclic : list package := [A; B_cyclic; C_cyclic].

(** The two states between which the loop alternates on [cyclic] *)
Definition cyclic_b : state :=
  mk_state [("b", ["x"])] [("b", ["a"; "c"]); ("c", ["b"])].
Definition cyclic_c : state :=
  mk_state [("c", ["y"])] [("b", ["a"; "c"]); ("c", ["b"])].

(** A requires B[x] and D requires B[y], before B is drained. *)
Definition D : package := pkg "D" [("B[y]", Str "")] [].
Definition B_two : package :=
  pkg "B" [] [("x", [("C", Str "")]); ("y", [("E", Str "")])].

(** A package that requires itself and nothing requires. *)
Definition Selfish : package := pkg "Selfish" [("selfish", Str "")] [].

(** The same with extras of its own, and a chain of extras that ends:
    the extra x of B pulls in C[y], the extra y of C pulls in D. *)
Definition Selfish_extra : package :=
  pkg "Selfish" [("SELFISH[Extra,more]", Str "")] [].
Definition C_chain : package := pkg "C" [] [("y", [("D", Str "")])].

Definition dq : string := String Py.dquote EmptyString.

(** The line  name[extra]>=1.0; extra == QxQ  with Q the double quote *)
Definition line_with_marker : string :=
  ("name[extra]>=1.0; extra == " ++ dq ++ "x" ++ dq)%string.

End Scenario.

(* ================================================================== *)
(** ** Other functions of library.py *)

(** [s.endswith(suffix)] *)
Definition endswith (suffix s : string) : bool :=
  (String.length suffix <=? String.length s)
  && String.eqb
       (Plain.drop (String.length s - String.length suffix) s) suffix.

(** [str(n)] for an int that is not negative *)
Definition str_of_nat (n : nat) : string :=
  NilEmpty.string_of_uint (Nat.to_uint n).

(** The text [c * n] for a one-character [c] *)
Fixpoint times (c : ascii) (n : nat) : string :=
  match n with
  | O => EmptyString
  | S n' => String c (times c n')
  end.

(** The f-string field [{s:{width}}] for a str [s]: left-justified,
    filled with spaces, never cut. *)
Definition field_of (s : string) (width : nat) : string :=
  (s ++ times " " (width - String.length s))%string.

(** *** get_site_package_dirs (lines 24-43) *)

(** [os.name], [sys.base_prefix], [os.sep], [sys.version_info[0]] and
    [sys.version_info[1]], and [sys.path] *)
Record interpreter : Type := mk_interpreter {
  os_name : string;
  base_prefix : string;
  os_sep : string;
  version_major : nat;
  version_minor : nat;
  sys_path : list string
}.

Definition system_prefix (py : interpreter) : string :=
  if String.eqb (os_name py) "nt"
  then (base_prefix py ++ os_sep py ++ "Lib")%string
  else (base_prefix py ++ os_sep py ++ "lib" ++ os_sep py
        ++ "python" ++ str_of_nat (version_major py) ++ "."
        ++ str_of_nat (version_minor py))%string.

Definition site_kind (py : interpreter) (directory : string) : string :=
  if Py.startswith (system_prefix py) directory then "system" else "user".

Definition get_site_package_dirs (py : interpreter) : Dict.t string :=
  fold_left
    (fun site_packages_dirs directory =>
       if endswith "site-packages" directory
       then Dict.set directory (site_kind py directory) site_packages_dirs
       else site_packages_dirs)
    (sys_path py) [].

(** *** get_info_from_site_packages_dir (lines 118-263) *)

(** One entry of [os.scandir(directory)]: its name, whether it is a
    directory, and the lines of the regular files in it, by file name. *)
Record dir_item : Type := mk_dir_item {
  item_name : string;
  item_is_dir : bool;
  item_files : Dict.t (list string)
}.

(** Lines 128-242 for one entry: the package read, if any. *)
Definition read_item (sep directory directory_type : string) (item : dir_item)
  : result (option package) :=
  if item_is_dir item
     && (endswith ".dist-info" (item_name item)
         || endswith ".egg-info" (item_name item))
  then
    let package_dir := (directory ++ sep ++ item_name item)%string in
    let metadata_file :=
      if endswith ".dist-info" (item_name item) then "METADATA"
      else "PKG-INFO" in
    let requires_file :=
      if endswith ".dist-info" (item_name item) then ""
      else "requires.txt" in
    match Dict.get metadata_file (item_files item) with
    | None => Ok None
    | Some lines =>
        p <- parse_metadata package_dir directory_type lines ;;
        match (if Py.truthy requires_file
               then Dict.get requires_file (item_files item)
               else None) with
        | Some requires_lines =>
            re <- process_requires_file requires_lines
                    (pkg_requires p) (pkg_extras p) ;;
            Ok (Some (mk_package (pkg_directory p) (pkg_type p) (pkg_name p)
                        (pkg_version p) (pkg_summary p) (fst re) (snd re)))
        | None => Ok (Some p)
        end
    end
  else Ok None.

(** [name in deja_vu and version in deja_vu[name]] *)
Definition seen (deja_vu : Dict.t (Dict.t bool)) (name version : string)
  : bool :=
  match Dict.get name deja_vu with
  | Some versions => Dict.mem version versions
  | None => false
  end.

(** Lines 258-261 *)
Definition mark (deja_vu : Dict.t (Dict.t bool)) (name version : string)
  : Dict.t (Dict.t bool) :=
  let deja_vu :=
    if Dict.mem name deja_vu then deja_vu else Dict.set name [] deja_vu in
  match Dict.get name deja_vu with
  | Some versions =>
      if Dict.mem version versions then deja_vu
      else Dict.set name (Dict.set version true versions) deja_vu
  | None => deja_vu
  end.

(** Lines 244-261: the package is kept unless its name and version were
    met before. *)
Definition keep (st : list package * Dict.t (Dict.t bool)) (p : package)
  : list package * Dict.t (Dict.t bool) :=
  let '(info, deja_vu) := st in
  if seen deja_vu (pkg_name p) (pkg_version p) then st
  else (info ++ [p], mark deja_vu (pkg_name p) (pkg_version p)).

Fixpoint scan_items (sep directory directory_type : string)
  (items : list dir_item) (st : list package * Dict.t (Dict.t bool))
  : result (list package * Dict.t (Dict.t bool)) :=
  match items with
  | [] => Ok st
  | item :: rest =>
      r <- read_item sep directory directory_type item ;;
      scan_items sep directory directory_type rest
        (match r with
         | Some p => keep st p
         | None => st
         end)
  end.

(** [items] is what [os.scandir(directory)] yields, in that order. *)
Definition get_info_from_site_packages_dir (sep directory directory_type : string)
  (items : list dir_item) : result (list package) :=
  st <- scan_items sep directory directory_type items ([], []) ;;
  Ok (fst st).

(** *** get_packages_list_max_sizes (lines 291-313) *)

(** [if length > longuest: longuest = length] *)
Definition longer (longuest length : nat) : nat :=
  if longuest <? length then length else longuest.

Definition get_packages_list_max_sizes (packages : list package)
  : nat * nat * nat :=
  fold_left
    (fun sizes p =>
       let '(longuest_name, longuest_version, longuest_summary) := sizes in
       (longer longuest_name (String.length (pkg_name p)),
        longer longuest_version (String.length (pkg_version p)),
        longer longuest_summary (String.length (pkg_summary p))))
    packages
    (String.length "Package", String.length "Version",
     String.length "Summary").

(** *** get_unique_packages (lines 317-328) *)

Definition get_unique_packages (packages : list package) : Dict.t nat :=
  fold_left
    (fun unique_packages p =>
       match Dict.get (pkg_name p) unique_packages with
       | Some n => Dict.set (pkg_name p) (n + 1) unique_packages
       | None => Dict.set (pkg_name p) 1 unique_packages
       end)
    packages [].

(** How many packages of the list have this name *)
Definition occurrences (name : string) (packages : list package) : nat :=
  length (filter (fun p => String.eqb (pkg_name p) name) packages).

(** *** get_packages_latest_version, is_package_outdated (lines 408-437) *)

Section Versions.

(** What [get_package_latest_version] returns for a name (it is called at
    most once for a name), and the comparison
    [packaging.version.parse(a) < packaging.version.parse(b)], which may
    raise. *)
Variable get_package_latest_version : string -> string.
Variable older : string -> string -> result bool.

Definition note_latest (latest_versions : Dict.t string) (p : package)
  : Dict.t string :=
  if Dict.mem (pkg_name p) latest_versions then latest_versions
  else Dict.set (pkg_name p) (get_package_latest_version (pkg_name p))
         latest_versions.

Definition get_packages_latest_version (packages : list package)
  (progress_meter : bool) : Dict.t string :=
  if progress_meter
  then fold_left note_latest packages []
  else fold_left note_latest packages [].

Definition is_package_outdated (p : package) (latest_versions : Dict.t string)
  : result bool :=
  match Dict.get (pkg_name p) latest_versions with
  | None => Raise KeyError
  | Some latest =>
      if negb (Py.truthy latest) then Ok false
      else older (pkg_version p) latest
  end.

End Versions.

(** *** get_packages_vulnerabilities, is_package_vulnerable
    (lines 480-516) *)

Section Vulnerabilities.

(** A vulnerability record of the JSON answer *)
Variable V : Type.

(** Lines 490-495, for a package and what [get_package_vulnerabilities]
    returned for it (the empty dict it returns on an HTTP error is the
    empty list here: both are false and neither is stored). *)
Definition note_vulnerabilities (vulnerabilities : Dict.t (Dict.t (list V)))
  (pv : package * list V) : Dict.t (Dict.t (list V)) :=
  let name := pkg_name (fst pv) in
  let version := pkg_version (fst pv) in
  match snd pv with
  | [] => vulnerabilities
  | _ :: _ =>
      match Dict.get name vulnerabilities with
      | None => Dict.set name (Dict.set version (snd pv) []) vulnerabilities
      | Some versions =>
          if Dict.mem version versions then vulnerabilities
          else Dict.set name (Dict.set version (snd pv) versions)
                 vulnerabilities
      end
  end.

(** [answers] pairs each package of the list, in order, with what
    [get_package_vulnerabilities] returned for it. *)
Definition get_packages_vulnerabilities (answers : list (package * list V))
  (progress_meter : bool) : Dict.t (Dict.t (list V)) :=
  if progress_meter
  then fold_left note_vulnerabilities answers []
  else fold_left note_vulnerabilities answers [].

Definition is_package_vulnerable (p : package)
  (vulnerabilities : Dict.t (Dict.t (list V))) : bool :=
  match Dict.get (pkg_name p) vulnerabilities with
  | Some versions => Dict.mem (pkg_version p) versions
  | None => false
  end.

End Vulnerabilities.

Arguments note_vulnerabilities {V} vulnerabilities pv.
Arguments get_packages_vulnerabilities {V} answers progress_meter.
Arguments is_package_vulnerable {V} p vulnerabilities.

(** *** list_packages without color (lines 622-703) *)

(** [s.replace(a, b)] for one-character [a] and [b] *)
Fixpoint replace_char (a b : ascii) (s : string) : string :=
  match s with
  | EmptyString => EmptyString
  | String c s' =>
      String (if Ascii.eqb c a then b else c) (replace_char a b s')
  end.

(** Lines 642-649 with [color] false; [count] is
    [unique_packages[package['name']]]. *)
Definition name_cell (longuest_name count : nat) (p : package) : string :=
  if 1 <? count
  then field_of ("*" ++ pkg_name p ++ "*") longuest_name
  else field_of (pkg_name p) longuest_name.

(** Lines 651-669 with [color] false; [outdated] is the value of
    [latest_versions and is_package_outdated(...)], [vulnerable] that of
    [vulnerabilities and is_package_vulnerable(...)]. *)
Definition version_cell (longuest_version : nat) (outdated vulnerable : bool)
  (p : package) : string :=
  let version := field_of (pkg_version p) longuest_version in
  let version :=
    if outdated
    then field_of ("^" ++ pkg_version p ++ "^") longuest_version
    else version in
  if vulnerable then
    if Py.startswith "^" version then replace_char "^" "!" version
    else field_of ("!" ++ pkg_version p ++ "!") longuest_version
  else version.

(** Lines 671-677 with [color] false: the line printed for a package *)
Definition row (longuest_name longuest_version longuest_summary count : nat)
  (outdated vulnerable : bool) (p : package) : string :=
  (name_cell longuest_name count p ++ " "
   ++ version_cell longuest_version outdated vulnerable p ++ " "
   ++ field_of (pkg_summary p) longuest_summary)%string.

(** Lines 634-636 *)
Definition heading (longuest_name longuest_version longuest_summary : nat)
  : string :=
  (field_of "Package" longuest_name
   ++ (" " ++ field_of "Version" longuest_version ++ " "
       ++ field_of "Summary" longuest_summary))%string.

Definition rule (longuest_name longuest_version longuest_summary : nat)
  : string :=
  (times "-" longuest_name ++ " " ++ times "-" longuest_version ++ " "
   ++ times "-" longuest_summary)%string.

(** Line 697 *)
Definition closing (longuest_name longuest_version longuest_summary : nat)
  : string :=
  (times "=" longuest_name ++ "=" ++ times "=" longuest_version ++ "="
   ++ times "=" longuest_summary)%string.

(** The column widths used without color (lines 624, 632-633) *)
Definition plain_widths (packages : list package) : nat * nat * nat :=
  let '(longuest_name, longuest_version, longuest_summary) :=
    get_packages_list_max_sizes packages in
  (longuest_name + 2, longuest_version + 2, longuest_summary).

(** [s[:n]] for [n] not negative *)
Definition upto (n : nat) (s : string) : string := String.substring 0 n s.

(** Lines 698-703: the last line printed *)
Definition summary_line (count outdated_count vulnerable_count : nat)
  : string :=
  (str_of_nat count ++ " package" ++ upto (Nat.lxor count 1) "s"
   ++ (if (0 <? outdated_count)%nat
       then ", " ++ str_of_nat outdated_count ++ " outdated" else "")
   ++ (if (0 <? vulnerable_count)%nat
       then ", " ++ str_of_nat vulnerable_count ++ " vulnerable" else ""))%string.

(* ================================================================== *)
(** ** The command line of main.py (lines 23-44, 109-231) *)

Record parameters : Type := mk_parameters {
  check_latest_versions : bool;
  check_vulnerabilities : bool;
  display_color : bool;
  progress_meter : bool;
  detailed_info : bool;
  select_user : bool;
  select_system : bool;
  select_outdated : bool;
  select_latest : bool;
  select_vulnerable : bool;
  select_healthy : bool;
  select_issues : bool;
  select_not_required : bool;
  select_required : bool
}.

Definition default_parameters : parameters :=
  mk_parameters false false true true false
    false false false false false false false false false.

Definition is_one_of (name : string) (names : list string) : bool :=
  existsb (String.eqb name) names.

(** The body of [for option, _ in options]; [None] stands for
    [sys.exit(0)]. *)
Definition process_option (name : string) (p : parameters)
  : option parameters :=
  let '(mk_parameters latest vulns color progress info user system
          outdated uptodate vulnerable healthy issues not_required required)
    := p in
  if String.eqb name "--debug" then Some p
  else if is_one_of name ["--help"; "-?"] then None
  else if String.eqb name "--version" then None
  else if is_one_of name ["--no-color"; "-c"] then
    Some (mk_parameters latest vulns false progress info user system
            outdated uptodate vulnerable healthy issues not_required required)
  else if is_one_of name ["--info"; "-i"] then
    Some (mk_parameters latest vulns color progress true user system
            outdated uptodate vulnerable healthy issues not_required required)
  else if is_one_of name ["--check-latest"; "-l"] then
    Some (mk_parameters true vulns color progress info user system
            outdated uptodate vulnerable healthy issues not_required required)
  else if is_one_of name ["--no-progress"; "-p"] then
    Some (mk_parameters latest vulns color false info user system
            outdated uptodate vulnerable healthy issues not_required required)
  else if is_one_of name ["--check-vulns"; "-v"] then
    Some (mk_parameters latest true color progress info user system
            outdated uptodate vulnerable healthy issues not_required required)
  else if is_one_of name ["--healthy"; "--sane"; "-H"] then
    Some (mk_parameters latest true color progress info user system
            outdated uptodate false true false not_required required)
  else if is_one_of name ["--issues"; "-I"] then
    Some (mk_parameters true true color progress info user system
            false false false false true not_required required)
  else if is_one_of name ["--latest"; "--uptodate"; "-L"] then
    Some (mk_parameters true vulns color progress info user system
            false true vulnerable healthy false not_required required)
  else if is_one_of name ["--not-required"; "-N"] then
    Some (mk_parameters latest vulns color progress info user system
            outdated uptodate vulnerable healthy issues true false)
  else if is_one_of name ["--outdated"; "-O"] then
    Some (mk_parameters true vulns color progress info user system
            true false vulnerable healthy false not_required required)
  else if is_one_of name ["--required"; "-R"] then
    Some (mk_parameters latest vulns color progress info user system
            outdated uptodate vulnerable healthy issues false true)
  else if is_one_of name ["--system"; "-S"] then
    Some (mk_parameters latest vulns color progress info false true
            outdated uptodate vulnerable healthy issues not_required required)
  else if is_one_of name ["--user"; "-U"] then
    Some (mk_parameters latest vulns color progress info true false
            outdated uptodate vulnerable healthy issues not_required required)
  else if is_one_of name ["--vulnerable"; "-V"] then
    Some (mk_parameters latest true color progress info user system
            outdated uptodate true false false not_required required)
  else Some p.

(** [_process_command_line] after [getopt.getopt]: [options] are the
    option names it returned. *)
Fixpoint process_options (options : list string) (p : parameters)
  : option parameters :=
  match options with
  | [] => Some p
  | name :: rest =>
      match process_option name p with
      | Some p' => process_options rest p'
      | None => None
      end
  end.

(** The selections exclude one another as the options say, and a
    selection that needs a check has turned it on. *)
Definition coherent (p : parameters) : bool :=
  negb (select_user p && select_system p)
  && negb (select_required p && select_not_required p)
  && negb (select_outdated p && select_latest p)
  && negb (select_vulnerable p && select_healthy p)
  && negb (select_issues p
           && (select_outdated p || select_latest p
               || select_vulnerable p || select_healthy p))
  && implb (select_outdated p || select_latest p || select_issues p)
       (check_latest_versions p)
  && implb (select_vulnerable p || select_healthy p || select_issues p)
       (check_vulnerabilities p).

(* ================================================================== *)
(** ** get_user_and_system_packages (library.py, lines 267-287) *)

(** [if not mine: mine = packages else: mine += packages] *)
Definition add_packages (mine packages : list package) : list package :=
  match mine with
  | [] => packages
  | _ :: _ => mine ++ packages
  end.

Section UserAndSystem.

(** The interpreter, and what [os.scandir] yields for a directory (every
    directory kept from [sys.path] is taken to be readable). *)
Variable py : interpreter.
Variable scandir : string -> list dir_item.

(** The body of [for directory, value in site_packages_dirs.items()] *)
Definition visit (st : list package * list package) (dv : string * string)
  : result (list package * list package) :=
  let '(user_packages, system_packages) := st in
  let '(directory, value) := dv in
  packages <- get_info_from_site_packages_dir (os_sep py) directory value
                (scandir directory) ;;
  if String.eqb value "user"
  then Ok (add_packages user_packages packages, system_packages)
  else Ok (user_packages, add_packages system_packages packages).

Fixpoint visit_all (dirs : Dict.t string)
  (st : list package * list package)
  : result (list package * list package) :=
  match dirs with
  | [] => Ok st
  | dv :: rest => st' <- visit st dv ;; visit_all rest st'
  end.

Definition get_user_and_system_packages
  : result (list package * list package) :=
  visit_all (get_site_package_dirs py) ([], []).

End UserAndSystem.

(* ================================================================== *)
(** ** The checks of main (main.py, lines 258-282) *)

Section Checks.

(** A vulnerability record, and the three calls that leave the program:
    [get_package_latest_version] (library.py, lines 360-404) and
    [get_package_vulnerabilities] (lines 441-476), which read a cache
    file or the package index and may raise (URLError, IndexError,
    an invalid file name, JSONDecodeError, KeyError, ...), and the
    comparison of two parsed versions, which may raise as well.  Each is
    taken to answer the same to the same arguments during a run. *)
Variable V : Type.
Variable get_package_latest_version : string -> result string.
Variable older : string -> string -> result bool.
Variable get_package_vulnerabilities : string -> string -> result (list V).

(** The loop of [get_packages_latest_version] (lines 408-427, the same
    with and without the progress meter) when the call may raise: an
    exception of the call ends the loop. *)
Fixpoint latest_versions_from (packages : list package)
  (latest_versions : Dict.t string) : result (Dict.t string) :=
  match packages with
  | [] => Ok latest_versions
  | p :: rest =>
      if Dict.mem (pkg_name p) latest_versions
      then latest_versions_from rest latest_versions
      else
        last_version <- get_package_latest_version (pkg_name p) ;;
        latest_versions_from rest
          (Dict.set (pkg_name p) last_version latest_versions)
  end.

(** The loop of [get_packages_vulnerabilities] (lines 480-509), likewise *)
Fixpoint vulnerabilities_from (packages : list package)
  (vulnerabilities : Dict.t (Dict.t (list V)))
  : result (Dict.t (Dict.t (list V))) :=
  match packages with
  | [] => Ok vulnerabilities
  | p :: rest =>
      package_vulnerabilities <-
        get_package_vulnerabilities (pkg_name p) (pkg_version p) ;;
      vulnerabilities_from rest
        (note_vulnerabilities vulnerabilities (p, package_vulnerabilities))
  end.

(** [[x for x in packages if test(x)]] for a test that may raise *)
Fixpoint comprehension (test : package -> result bool)
  (packages : list package) : result (list package) :=
  match packages with
  | [] => Ok []
  | x :: rest =>
      b <- test x ;;
      kept <- comprehension test rest ;;
      Ok (if b then x :: kept else kept)
  end.

Definition outdated_or_vulnerable (latest_versions : Dict.t string)
  (vulnerabilities : Dict.t (Dict.t (list V))) (x : package) : result bool :=
  b <- is_package_outdated older x latest_versions ;;
  if b then Ok true else Ok (is_package_vulnerable x vulnerabilities).

(** Lines 258-282: the packages left, with the two dicts handed on to
    [list_packages]. *)
Definition select_by_checks (p : parameters) (packages : list package)
  : result (list package * Dict.t string * Dict.t (Dict.t (list V))) :=
  latest_versions <-
    (if check_latest_versions p
     then (if progress_meter p
           then latest_versions_from packages []
           else latest_versions_from packages [])
     else Ok []) ;;
  packages <-
    (if select_outdated p then
       comprehension (fun x => is_package_outdated older x latest_versions)
         packages
     else if select_latest p then
       comprehension
         (fun x => b <- is_package_outdated older x latest_versions ;;
                   Ok (negb b))
         packages
     else Ok packages) ;;
  vulnerabilities <-
    (if check_vulnerabilities p
     then (if progress_meter p
           then vulnerabilities_from packages []
           else vulnerabilities_from packages [])
     else Ok []) ;;
  let packages :=
    if select_vulnerable p then
      filter (fun x => is_package_vulnerable x vulnerabilities) packages
    else if select_healthy p then
      filter (fun x => negb (is_package_vulnerable x vulnerabilities))
        packages
    else packages in
  packages <-
    (if select_issues p then
       comprehension (outdated_or_vulnerable latest_versions vulnerabilities)
         packages
     else Ok packages) ;;
  Ok (packages, latest_versions, vulnerabilities).

End Checks.

Arguments latest_versions_from get_package_latest_version packages
  latest_versions : assert.
Arguments vulnerabilities_from {V} get_package_vulnerabilities packages
  vulnerabilities.
Arguments comprehension test packages : assert.
Arguments outdated_or_vulnerable {V} older latest_versions vulnerabilities x.
Arguments select_by_checks {V} get_package_latest_version older
  get_package_vulnerabilities p packages.

(* ================================================================== *)
(** ** Predicates used by the properties of the parsers *)





(** The current extra of the requires.txt parser, when there is one, is a
    key of extras. *)
Definition extra_known (st : requires_state) : Prop :=
  Py.truthy (cur_extra st) = true ->
  Dict.mem (cur_extra st) (cur_extras st) = true.

(** [l'] is [l] followed by more keys. *)
Definition extends (l l' : list string) : Prop := exists more, l' = l ++ more.

(** Every extra of [e] is an extra of [e'], with at least its
    dependencies, in the same order. *)
Definition groups_extend (e e' : Dict.t requirements) : Prop :=
  forall x g, Dict.get x e = Some g ->
              exists g', Dict.get x e' = Some g'
                         /\ extends (Dict.keys g) (Dict.keys g').

Definition merged (st st' : requires_state) : Prop :=
  extends (Dict.keys (cur_requires st)) (Dict.keys (cur_requires st'))
  /\ extends (Dict.keys (cur_extras st)) (Dict.keys (cur_extras st'))
  /\ groups_extend (cur_extras st) (cur_extras st').

(* ================================================================== *)
(** ** Predicates used by the properties of the index *)

(** [p] requires a dependency indexed under [k]. *)
Definition declared_by (p : package) (k : string) : Prop :=
  exists d, In d (Dict.keys (pkg_requires p)) /\ k = index_key d.

(** [p] lists, under one of its extras, a dependency indexed under [k]. *)
Definition listed_by (p : package) (k : string) : Prop :=
  exists e g d,
    Dict.get e (pkg_extras p) = Some g /\ In d (Dict.keys g)
    /\ k = index_key d.

(** [x] is the lowercased name of a listed package that declares a
    dependency indexed under [k]. *)
Definition origin (packages : list package) (k x : string) : Prop :=
  exists p, In p packages /\ x = Py.lower (pkg_name p)
            /\ (declared_by p k \/ listed_by p k).

Definition sound (packages : list package) (st : state) : Prop :=
  forall k x, holds (required_by st) k x -> origin packages k x.

(** Keys are distinct and no list repeats a name. *)
Definition tidy (d : Dict.t (list string)) : Prop :=
  NoDup (Dict.keys d) /\ forall k l, In (k, l) d -> NoDup l.

(** No key has an empty list. *)
Definition inhabited (d : Dict.t (list string)) : Prop :=
  forall k l, Dict.get k d = Some l -> l <> [].

(** No key of requires carries a bracket, in any package of the list. *)
Definition bracket_free (packages : list package) : Prop :=
  forall p d, In p packages -> In d (Dict.keys (pkg_requires p)) ->
              Py.has_char "["%char (Py.lower d) = false.

(** [st] already holds what [dependency] of [name] adds. *)
Definition absorbed (name dependency : string) (st : state) : Prop :=
  holds (required_by st) (index_key dependency) name
  /\ (Py.has_char "["%char (Py.lower dependency) = true ->
      forall part, In part (requested (Py.lower dependency)) ->
                   holds (extras st) (index_key dependency) part).

(* ================================================================== *)
(** ** Predicates used by the properties of the listing *)

(** The three fields of [p] are no longer than the sizes. *)
Definition fits (sizes : nat * nat * nat) (p : package) : Prop :=
  String.length (pkg_name p) <= fst (fst sizes)
  /\ String.length (pkg_version p) <= snd (fst sizes)
  /\ String.length (pkg_summary p) <= snd sizes.

(** The body of the loop of [get_packages_list_max_sizes] *)
Definition sizes_step (sizes : nat * nat * nat) (p : package)
  : nat * nat * nat :=
  let '(longuest_name, longuest_version, longuest_summary) := sizes in
  (longer longuest_name (String.length (pkg_name p)),
   longer longuest_version (String.length (pkg_version p)),
   longer longuest_summary (String.length (pkg_summary p))).

(** [name in vulnerabilities and version in vulnerabilities[name]] *)
Definition known_vulnerable {V : Type}
  (vulnerabilities : Dict.t (Dict.t (list V))) (name version : string)
  : bool :=
  match Dict.get name vulnerabilities with
  | Some versions => Dict.mem version versions
  | None => false
  end.

(* ================================================================== *)
(** ** Predicates used by the properties of the directory scans *)

Definition identity (p : package) : string * string :=
  (pkg_name p, pkg_version p).

(** What the loop of [get_info_from_site_packages_dir] keeps true of
    [info] and [deja_vu]: no name and version twice in [info], and
    [deja_vu] holds the names and versions of [info]. *)
Definition faithful (st : list package * Dict.t (Dict.t bool)) : Prop :=
  NoDup (map identity (fst st))
  /\ forall name version,
       seen (snd st) name version = true
       <-> In (name, version) (map identity (fst st)).

(** The test of lines 128-129 *)
Definition info_directory (item : dir_item) : bool :=
  item_is_dir item
  && (endswith ".dist-info" (item_name item)
      || endswith ".egg-info" (item_name item)).

(** The package was read in a site-packages directory of [sys.path] of
    this kind. *)
Definition found_in (py : interpreter) (scandir : string -> list dir_item)
  (kind : string) (p : package) : Prop :=
  exists directory info,
    In directory (sys_path py)
    /\ endswith "site-packages" directory = true
    /\ site_kind py directory = kind
    /\ get_info_from_site_packages_dir (os_sep py) directory kind
         (scandir directory) = Ok info
    /\ In p info.

(* ================================================================== *)
(** ** Sample inputs *)

Module Sample.

Definition python : interpreter :=
  mk_interpreter "posix" "/usr" "/" 3 11
    [ "/usr/lib/python3.11/site-packages";
      "/home/u/.local/lib/python3.11/site-packages";
      "/usr/lib/python3.11" ].

(** A directory with a package that has both a .dist-info and an
    .egg-info entry, an .egg-info entry with a requires.txt, a file whose
    name ends in .egg-info, and a .dist-info entry without METADATA *)
Definition items : list dir_item :=
  [ mk_dir_item "foo-1.dist-info" true
      [("METADATA", ["Name: foo"; "Version: 1"; "Requires-Dist: bar"])];
    mk_dir_item "foo-1.egg-info" true
      [("PKG-INFO", ["Name: foo"; "Version: 1"])];
    mk_dir_item "baz.egg-info" true
      [("PKG-INFO", ["Name: baz"; "Version: 2"]);
       ("requires.txt", ["dep>=1"])];
    mk_dir_item "q.egg-info" false [("PKG-INFO", ["Name: q"])];
    mk_dir_item "r.dist-info" true [] ].

Definition scandir (directory : string) : list dir_item :=
  if String.eqb directory "/usr/lib/python3.11/site-packages"
  then items
  else [ mk_dir_item "mine-3.dist-info" true
           [("METADATA", ["Name: mine"; "Version: 3"])] ].

Definition foo : package :=
  mk_package "/usr/lib/python3.11/site-packages/foo-1.dist-info" "system"
    "foo" "1" "" [("bar", Str "")] [].

Definition baz : package :=
  mk_package "/usr/lib/python3.11/site-packages/baz.egg-info" "system"
    "baz" "2" "" [("dep", Str ">=1")] [].

Definition mine : package :=
  mk_package
    "/home/u/.local/lib/python3.11/site-packages/mine-3.dist-info" "user"
    "mine" "3" "" [] [].

(** The parameters after the options -O -I -V -R -N *)
Definition asked : parameters :=
  mk_parameters true true true true false
    false false false false true false false true false.

End Sample.

(* ================================================================== *)
(** ** Facts about dicts *)

Section DictFacts.
Context {V : Type}.
Implicit Types (d : Dict.t V) (k : string) (v : V).

Lemma get_set_same k v d : Dict.get k (Dict.set k v d) = Some v.
Proof.
  induction d as [|[k' v'] r IH]; simpl.
  - now rewrite String.eqb_refl.
  - destruct (String.eqb k' k) eqn:E; simpl; rewrite E; auto.
Qed.

Lemma get_set_other k k' v d :
  k <> k' -> Dict.get k' (Dict.set k v d) = Dict.get k' d.
Proof.
  intros N. induction d as [|[k0 v0] r IH]; simpl.
  - destruct (String.eqb k k') eqn:E; auto.
    apply String.eqb_eq in E. contradiction.
  - destruct (String.eqb k0 k) eqn:E; simpl.
    + apply String.eqb_eq in E. subst k0.
      destruct (String.eqb k k') eqn:E'; auto.
      apply String.eqb_eq in E'. contradiction.
    + now rewrite IH.
Qed.

Lemma get_in k v d : Dict.get k d = Some v -> In (k, v) d.
Proof.
  induction d as [|[k0 v0] r IH]; simpl; [discriminate|].
  destruct (String.eqb k0 k) eqn:E.
  - apply String.eqb_eq in E. intros [= ->]. subst. now left.
  - intros H. right. auto.
Qed.

Lemma in_keys k d : In k (Dict.keys d) -> exists v, In (k, v) d.
Proof.
  unfold Dict.keys. rewrite in_map_iff.
  intros [[k0 v0] [E H]]. simpl in E. subst. eauto.
Qed.

End DictFacts.

Lemma mem_In x l : Py.mem x l = true <-> In x l.
Proof.
  unfold Py.mem. rewrite existsb_exists. split.
  - intros [y [H E]]. apply String.eqb_eq in E. now subst.
  - intros H. exists x. split; auto. apply String.eqb_refl.
Qed.

(* ================================================================== *)
(** ** Facts about [add_once] and [add_dependency] *)

Lemma holds_add_once_same d k x : holds (add_once k x d) k x.
Proof.
  unfold holds, add_once.
  destruct (Dict.get k d) as [l|] eqn:G.
  - destruct (Py.mem x l) eqn:M.
    + exists l. split; auto. now apply mem_In.
    + exists (l ++ [x]). rewrite get_set_same. split; auto.
      apply in_or_app. right. now left.
  - exists [x]. rewrite get_set_same. split; auto. now left.
Qed.

Lemma holds_add_once_mono d k x k' y :
  holds d k' y -> holds (add_once k x d) k' y.
Proof.
  intros [l [G I]]. unfold holds, add_once.
  destruct (String.eqb k k') eqn:E.
  - apply String.eqb_eq in E. subst k'. rewrite G.
    destruct (Py.mem x l).
    + exists l. auto.
    + exists (l ++ [x]). rewrite get_set_same. split; auto.
      apply in_or_app. now left.
  - apply String.eqb_neq in E.
    destruct (Dict.get k d) as [l0|].
    + destruct (Py.mem x l0).
      * exists l. auto.
      * exists l. rewrite get_set_other; auto.
    + exists l. rewrite get_set_other; auto.
Qed.

Lemma holds_enqueue_mono k parts d k' y :
  holds d k' y ->
  holds (fold_left (fun ex part => add_once k part ex) parts d) k' y.
Proof.
  revert d. induction parts as [|p r IH]; simpl; intros d H; auto.
  apply IH. now apply holds_add_once_mono.
Qed.

Lemma holds_enqueue k parts d part :
  In part parts ->
  holds (fold_left (fun ex part => add_once k part ex) parts d) k part.
Proof.
  revert d. induction parts as [|p r IH]; simpl; intros d H; [tauto|].
  destruct H as [-> | H].
  - apply holds_enqueue_mono. apply holds_add_once_same.
  - now apply IH.
Qed.

Lemma add_dependency_records name dependency st :
  holds (required_by (add_dependency name dependency st))
        (index_key dependency) name.
Proof.
  unfold add_dependency, index_key, bare.
  destruct (Py.has_char "[" (Py.lower dependency)); simpl;
    apply holds_add_once_same.
Qed.

Lemma add_dependency_mono name dependency st k x :
  holds (required_by st) k x ->
  holds (required_by (add_dependency name dependency st)) k x.
Proof.
  intros H. unfold add_dependency.
  destruct (Py.has_char "[" (Py.lower dependency)); simpl;
    now apply holds_add_once_mono.
Qed.

Lemma add_dependency_pending_mono name dependency st k x :
  holds (extras st) k x ->
  holds (extras (add_dependency name dependency st)) k x.
Proof.
  intros H. unfold add_dependency.
  destruct (Py.has_char "[" (Py.lower dependency)); simpl; auto.
  now apply holds_enqueue_mono.
Qed.

Lemma add_dependency_enqueues name dependency st part :
  Py.has_char "[" (Py.lower dependency) = true ->
  In part (requested (Py.lower dependency)) ->
  holds (extras (add_dependency name dependency st))
        (index_key dependency) part.
Proof.
  intros B I. unfold add_dependency, index_key. rewrite B. simpl.
  now apply holds_enqueue.
Qed.

Lemma add_dependencies_mono name deps st k x :
  holds (required_by st) k x ->
  holds (required_by (add_dependencies name deps st)) k x.
Proof.
  unfold add_dependencies. revert st.
  induction deps as [|d r IH]; simpl; intros st H; auto.
  apply IH. now apply add_dependency_mono.
Qed.

Lemma add_dependencies_pending_mono name deps st k x :
  holds (extras st) k x ->
  holds (extras (add_dependencies name deps st)) k x.
Proof.
  unfold add_dependencies. revert st.
  induction deps as [|d r IH]; simpl; intros st H; auto.
  apply IH. now apply add_dependency_pending_mono.
Qed.

Lemma add_dependencies_records name deps st dependency :
  In dependency deps ->
  holds (required_by (add_dependencies name deps st))
        (index_key dependency) name.
Proof.
  unfold add_dependencies. revert st.
  induction deps as [|d r IH]; simpl; intros st H; [tauto|].
  destruct H as [-> | H].
  - apply (add_dependencies_mono name r). apply add_dependency_records.
  - now apply IH.
Qed.

Lemma add_dependencies_enqueues name deps st dependency part :
  In dependency deps ->
  Py.has_char "[" (Py.lower dependency) = true ->
  In part (requested (Py.lower dependency)) ->
  holds (extras (add_dependencies name deps st))
        (index_key dependency) part.
Proof.
  unfold add_dependencies. revert st.
  induction deps as [|d r IH]; simpl; intros st H B I; [tauto|].
  destruct H as [-> | H].
  - apply (add_dependencies_pending_mono name r).
    now apply add_dependency_enqueues.
  - now apply IH.
Qed.

(** *** The first loop *)

Lemma scan_fold_mono packages st k x :
  holds (required_by st) k x ->
  holds (required_by (fold_left scan_package packages st)) k x.
Proof.
  revert st. induction packages as [|p r IH]; simpl; intros st H; auto.
  apply IH. now apply add_dependencies_mono.
Qed.

Lemma scan_fold_pending_mono packages st k x :
  holds (extras st) k x ->
  holds (extras (fold_left scan_package packages st)) k x.
Proof.
  revert st. induction packages as [|p r IH]; simpl; intros st H; auto.
  apply IH. now apply add_dependencies_pending_mono.
Qed.

Lemma scan_records packages p dependency :
  In p packages ->
  In dependency (Dict.keys (pkg_requires p)) ->
  holds (required_by (scan packages))
        (index_key dependency) (Py.lower (pkg_name p)).
Proof.
  unfold scan. generalize (mk_state [] []).
  induction packages as [|q r IH]; simpl; intros st H D; [tauto|].
  destruct H as [-> | H].
  - apply scan_fold_mono. now apply add_dependencies_records.
  - now apply IH.
Qed.

Lemma scan_enqueues packages p dependency part :
  In p packages ->
  In dependency (Dict.keys (pkg_requires p)) ->
  Py.has_char "[" (Py.lower dependency) = true ->
  In part (requested (Py.lower dependency)) ->
  holds (extras (scan packages)) (index_key dependency) part.
Proof.
  unfold scan. generalize (mk_state [] []).
  induction packages as [|q r IH]; simpl; intros st H D B I; [tauto|].
  destruct H as [-> | H].
  - apply scan_fold_pending_mono. now apply add_dependencies_enqueues.
  - now apply IH.
Qed.

(* ================================================================== *)
(** ** The loop over [value] *)

Lemma grown_refl C v : grown C v v.
Proof.
  exists []. rewrite app_nil_r. repeat split; [constructor | intros x []].
Qed.

Lemma grown_length C v0 v : grown C v0 v -> length v <= length v0 + length C.
Proof.
  intros [app [-> [N I]]]. rewrite length_app.
  pose proof (NoDup_incl_length N I). lia.
Qed.

Lemma value_of_list_at key st : value_of key st = list_at key (extras st).
Proof. reflexivity. Qed.

Lemma add_once_list_at key k x d :
  list_at key (add_once k x d) = list_at key d
  \/ (~ In x (list_at key d)
      /\ list_at key (add_once k x d) = list_at key d ++ [x]).
Proof.
  unfold list_at, add_once.
  destruct (String.eqb k key) eqn:E.
  - apply String.eqb_eq in E. subst k.
    destruct (Dict.get key d) as [l|] eqn:G.
    + destruct (Py.mem x l) eqn:M.
      * left. now rewrite G.
      * right. rewrite get_set_same. split; auto.
        intros I. apply mem_In in I. congruence.
    + right. rewrite get_set_same. split; auto.
  - apply String.eqb_neq in E. left.
    destruct (Dict.get k d) as [l|].
    + destruct (Py.mem x l); auto. now rewrite get_set_other.
    + now rewrite get_set_other.
Qed.

Lemma grown_add_once C v0 key k x d :
  In x C ->
  grown C v0 (list_at key d) -> grown C v0 (list_at key (add_once k x d)).
Proof.
  intros I [app [E [N S]]].
  destruct (add_once_list_at key k x d) as [-> | [F ->]].
  - exists app. auto.
  - exists (app ++ [x]). rewrite E, app_assoc. repeat split.
    + apply NoDup_app; auto.
      * constructor; [intros [] | constructor].
      * intros y Hy [<- | []]. apply F. rewrite E. apply in_or_app. now right.
    + intros y Hy. apply in_app_or in Hy. destruct Hy as [Hy | [<- | []]]; auto.
Qed.

Lemma grown_enqueue C v0 key k parts d :
  incl parts C ->
  grown C v0 (list_at key d) ->
  grown C v0
    (list_at key (fold_left (fun ex part => add_once k part ex) parts d)).
Proof.
  revert d. induction parts as [|p r IH]; simpl; intros d I G; auto.
  apply IH.
  - intros y Hy. apply I. now right.
  - apply grown_add_once; auto. apply I. now left.
Qed.

Lemma grown_add_dependency C v0 key name dependency st :
  incl (requested (Py.lower dependency)) C ->
  grown C v0 (value_of key st) ->
  grown C v0 (value_of key (add_dependency name dependency st)).
Proof.
  intros I G. rewrite !value_of_list_at in *. unfold add_dependency.
  destruct (Py.has_char "[" (Py.lower dependency)); simpl; auto.
  now apply grown_enqueue.
Qed.

Lemma grown_add_dependencies C v0 key name deps st :
  (forall dependency, In dependency deps ->
                      incl (requested (Py.lower dependency)) C) ->
  grown C v0 (value_of key st) ->
  grown C v0 (value_of key (add_dependencies name deps st)).
Proof.
  unfold add_dependencies. revert st.
  induction deps as [|d r IH]; simpl; intros st I G; auto.
  apply IH.
  - intros y Hy. apply I. now right.
  - apply grown_add_dependency; auto.
Qed.

Lemma requested_in_requests p extra group dependency :
  Dict.get extra (pkg_extras p) = Some group ->
  In dependency (Dict.keys group) ->
  incl (requested (Py.lower dependency)) (requests p).
Proof.
  intros G I x Hx. unfold requests.
  apply get_in in G. apply in_keys in I. destruct I as [c I].
  apply in_flat_map. exists (extra, group). split; auto. simpl.
  apply in_flat_map. exists (dependency, c). split; auto.
Qed.

Lemma grown_activate v0 key p name extra st :
  grown (requests p) v0 (value_of key st) ->
  grown (requests p) v0 (value_of key (activate p name extra st)).
Proof.
  intros G. unfold activate.
  destruct (Dict.get extra (pkg_extras p)) as [group|] eqn:E; auto.
  apply grown_add_dependencies; auto.
  intros d Hd. eapply requested_in_requests; eauto.
Qed.

(** The bound [turns] is enough: the loop always runs to its end. *)
Lemma for_value_enough p name key v0 fuel :
  forall i st,
    grown (requests p) v0 (value_of key st) ->
    length v0 + length (requests p) <= fuel + i ->
    exists st', for_value fuel p name key i st = Some st'.
Proof.
  induction fuel as [|fuel IH]; intros i st G L; simpl.
  - destruct (nth_error (value_of key st) i) as [extra|] eqn:N; eauto.
    assert (i < length (value_of key st))
      by (apply nth_error_Some; congruence).
    apply grown_length in G. lia.
  - destruct (nth_error (value_of key st) i) as [extra|] eqn:N; eauto.
    apply IH; [now apply grown_activate | lia].
Qed.

Lemma for_value_total p name key st :
  exists st', for_value (turns p key st) p name key 0 st = Some st'.
Proof.
  apply (for_value_enough p name key (value_of key st)).
  - apply grown_refl.
  - unfold turns. lia.
Qed.

(** More fuel does not change the outcome. *)
Lemma for_value_more_fuel p name key fuel :
  forall i st st' fuel',
    for_value fuel p name key i st = Some st' ->
    fuel <= fuel' ->
    for_value fuel' p name key i st = Some st'.
Proof.
  induction fuel as [|fuel IH]; intros i st st' fuel' H L.
  - simpl in H. destruct fuel'; simpl;
      destruct (nth_error (value_of key st) i); congruence.
  - destruct fuel' as [|fuel']; [lia|]. simpl in *.
    destruct (nth_error (value_of key st) i); auto.
    apply IH with (fuel' := fuel') in H; auto. lia.
Qed.

(** What every turn keeps, the loop keeps. *)
Lemma for_value_keeps (Q : state -> Prop) p name key :
  (forall extra st, Q st -> Q (activate p name extra st)) ->
  forall fuel i st st',
    Q st -> for_value fuel p name key i st = Some st' -> Q st'.
Proof.
  intros K. induction fuel as [|fuel IH]; intros i st st' H F; simpl in F.
  - destruct (nth_error (value_of key st) i); congruence.
  - destruct (nth_error (value_of key st) i) as [extra|]; [|congruence].
    eapply IH; [|exact F]. now apply K.
Qed.

Lemma activate_mono p name extra st k x :
  holds (required_by st) k x ->
  holds (required_by (activate p name extra st)) k x.
Proof.
  intros H. unfold activate.
  destruct (Dict.get extra (pkg_extras p)); auto.
  now apply add_dependencies_mono.
Qed.

Lemma activate_records p name extra st group dependency :
  Dict.get extra (pkg_extras p) = Some group ->
  In dependency (Dict.keys group) ->
  holds (required_by (activate p name extra st)) (index_key dependency) name.
Proof.
  intros G I. unfold activate. rewrite G.
  now apply add_dependencies_records.
Qed.

Lemma activate_value key p name extra st :
  exists app, value_of key (activate p name extra st)
              = value_of key st ++ app.
Proof.
  destruct (grown_activate (value_of key st) key p name extra st
              (grown_refl _ _)) as [app [E _]].
  eauto.
Qed.

(** Every extra that sits in [value] from index [i] on is activated. *)
Lemma for_value_activates p name key j extra group dependency :
  Dict.get extra (pkg_extras p) = Some group ->
  In dependency (Dict.keys group) ->
  forall fuel i st st',
    i <= j ->
    nth_error (value_of key st) j = Some extra ->
    for_value fuel p name key i st = Some st' ->
    holds (required_by st') (index_key dependency) name.
Proof.
  intros G I. induction fuel as [|fuel IH]; intros i st st' L N F;
    simpl in F.
  - destruct (nth_error (value_of key st) i) eqn:Ni; [congruence|].
    apply nth_error_None in Ni.
    assert (j < length (value_of key st))
      by (apply nth_error_Some; congruence).
    lia.
  - destruct (nth_error (value_of key st) i) as [x|] eqn:Ni.
    + destruct (Nat.eq_dec i j) as [-> | D].
      * assert (x = extra) by congruence. subst x.
        eapply (for_value_keeps
                  (fun s => holds (required_by s) (index_key dependency) name));
          [| |exact F].
        -- intros e s. apply activate_mono.
        -- eapply activate_records; eauto.
      * eapply IH; [| |exact F]; [lia|].
        destruct (activate_value key p name x st) as [app ->].
        rewrite nth_error_app1; auto.
        apply nth_error_Some. congruence.
    + apply nth_error_None in Ni.
      assert (j < length (value_of key st))
        by (apply nth_error_Some; congruence).
      lia.
Qed.

Lemma for_value_value p name key :
  forall fuel i st st',
    for_value fuel p name key i st = Some st' ->
    exists app, value_of key st' = value_of key st ++ app.
Proof.
  induction fuel as [|fuel IH]; intros i st st' F; simpl in F.
  - destruct (nth_error (value_of key st) i); [congruence|].
    injection F as <-. exists []. now rewrite app_nil_r.
  - destruct (nth_error (value_of key st) i) as [x|].
    + apply IH in F. destruct F as [a2 ->].
      destruct (activate_value key p name x st) as [a1 ->].
      exists (a1 ++ a2). now rewrite app_assoc.
    + injection F as <-. exists []. now rewrite app_nil_r.
Qed.

(* ================================================================== *)
(** ** One package, one turn of the loop *)

Lemma drain_package_mono key st p k x :
  holds (required_by st) k x ->
  holds (required_by (drain_package key st p)) k x.
Proof.
  intros H. unfold drain_package.
  destruct (String.eqb key (Py.lower (pkg_name p))); auto.
  destruct (for_value_total p (Py.lower (pkg_name p)) key st) as [st' E].
  rewrite E.
  eapply (for_value_keeps (fun s => holds (required_by s) k x)); eauto.
  intros e s. apply activate_mono.
Qed.

Lemma drain_package_value key st p :
  exists app, value_of key (drain_package key st p) = value_of key st ++ app.
Proof.
  unfold drain_package.
  destruct (String.eqb key (Py.lower (pkg_name p)));
    [|exists []; now rewrite app_nil_r].
  destruct (for_value_total p (Py.lower (pkg_name p)) key st) as [st' E].
  rewrite E. eapply for_value_value; eauto.
Qed.

Lemma drain_package_activates key st p extra group dependency :
  Py.lower (pkg_name p) = key ->
  In extra (value_of key st) ->
  Dict.get extra (pkg_extras p) = Some group ->
  In dependency (Dict.keys group) ->
  holds (required_by (drain_package key st p)) (index_key dependency) key.
Proof.
  intros <- I G D. unfold drain_package. rewrite String.eqb_refl.
  set (name := Py.lower (pkg_name p)) in *.
  destruct (for_value_total p name name st) as [st' E].
  rewrite E.
  apply In_nth_error in I. destruct I as [j Hj].
  apply (for_value_activates p name name j extra group dependency G D
           (turns p name st) 0 st st'); [lia | exact Hj | exact E].
Qed.

Lemma drain_packages_mono key packages st k x :
  holds (required_by st) k x ->
  holds (required_by (fold_left (drain_package key) packages st)) k x.
Proof.
  revert st. induction packages as [|p r IH]; simpl; intros st H; auto.
  apply IH. now apply drain_package_mono.
Qed.

Lemma drain_packages_activates key packages st p extra group dependency :
  In p packages ->
  Py.lower (pkg_name p) = key ->
  In extra (value_of key st) ->
  Dict.get extra (pkg_extras p) = Some group ->
  In dependency (Dict.keys group) ->
  holds (required_by (fold_left (drain_package key) packages st))
        (index_key dependency) key.
Proof.
  revert st. induction packages as [|q r IH]; simpl;
    intros st H N I G D; [tauto|].
  destruct H as [-> | H].
  - apply drain_packages_mono. now apply drain_package_activates with extra group.
  - apply IH; auto.
    destruct (drain_package_value key st q) as [app ->].
    apply in_or_app. now left.
Qed.

Lemma drain_step_mono packages st k x :
  holds (required_by st) k x ->
  holds (required_by (drain_step packages st)) k x.
Proof.
  intros H. unfold drain_step.
  destruct (extras st) as [|[key v] rest]; auto. simpl.
  now apply drain_packages_mono.
Qed.

(** Draining [key] records, under the package named [key], what is listed
    under every extra of [value]. *)
Lemma drain_step_activates
  packages st key value rest p extra group dependency :
  extras st = (key, value) :: rest ->
  In p packages ->
  Py.lower (pkg_name p) = key ->
  In extra value ->
  Dict.get extra (pkg_extras p) = Some group ->
  In dependency (Dict.keys group) ->
  holds (required_by (drain_step packages st)) (index_key dependency) key.
Proof.
  intros E I N X G D. unfold drain_step. rewrite E. cbn [required_by].
  apply drain_packages_activates with p extra group; auto.
  unfold value_of, list_at. rewrite E. simpl. now rewrite String.eqb_refl.
Qed.

Lemma after_turns_mono n packages : forall st k x,
  holds (required_by st) k x ->
  holds (required_by (after_turns n packages st)) k x.
Proof.
  induction n as [|n IH]; simpl; intros st k x H; auto.
  apply IH. now apply drain_step_mono.
Qed.

Lemma drain_after_turns packages : forall fuel st R,
  drain fuel packages st = Some R ->
  exists n, R = required_by (after_turns n packages st).
Proof.
  induction fuel as [|fuel IH]; intros st R H; simpl in H.
  - destruct (extras st); [|discriminate].
    injection H as <-. now exists 0.
  - destruct (extras st) eqn:E.
    + injection H as <-. now exists 0.
    + apply IH in H. destruct H as [n ->]. now exists (S n).
Qed.

(* ================================================================== *)
(** ** Lowercase keys and members *)

Lemma lower_char_idem c : Py.lower_char (Py.lower_char c) = Py.lower_char c.
Proof.
  destruct c as [[] [] [] [] [] [] [] []]; reflexivity.
Qed.

Lemma lower_lowered s : lowered (Py.lower s).
Proof.
  unfold lowered. induction s as [|c s IH]; simpl; auto.
  now rewrite lower_char_idem, IH.
Qed.

Lemma lowered_all_chars s : lowered s <-> Re.all_chars lower_fixed s = true.
Proof.
  unfold lowered, lower_fixed. induction s as [|c s IH]; simpl.
  - tauto.
  - rewrite andb_true_iff, <- IH, Ascii.eqb_eq. split.
    + intros [= E1 E2]. auto.
    + intros [E1 E2]. congruence.
Qed.

(** The two equations of [Re.sub_go] *)
Lemma sub_go_skip r repl b n c s :
  Re.sub_go r repl b (S n) (String c s) = Re.sub_go r repl false n s.
Proof. reflexivity. Qed.

Lemma sub_go_zero r repl b s :
  Re.sub_go r repl b 0 s =
  match Re.try_at r b false s with
  | Some rest =>
      match String.length s - String.length rest with
      | S n =>
          (repl ++ match s with
                   | String _ s' => Re.sub_go r repl false n s'
                   | EmptyString => EmptyString
                   end)%string
      | O =>
          (repl ++
           match Re.try_at r b true s with
           | Some rest' =>
               repl ++ match s with
                       | String _ s' =>
                           Re.sub_go r repl false
                             (String.length s - String.length rest' - 1) s'
                       | EmptyString => EmptyString
                       end
           | None =>
               match s with
               | String c s' => String c (Re.sub_go r repl false 0 s')
               | EmptyString => EmptyString
               end
           end)%string
      end
  | None =>
      match s with
      | String c s' => String c (Re.sub_go r repl false 0 s')
      | EmptyString => EmptyString
      end
  end.
Proof. destruct s; reflexivity. Qed.

(** [re.sub] with an empty replacement only removes characters. *)
Lemma sub_go_keeps_chars (P : ascii -> bool) r : forall s at_bol skip,
  Re.all_chars P s = true ->
  Re.all_chars P (Re.sub_go r "" at_bol skip s) = true.
Proof.
  induction s as [|c s IH]; intros at_bol skip H.
  - destruct skip; [|reflexivity].
    rewrite sub_go_zero.
    destruct (Re.try_at r at_bol false ""); auto.
    destruct (String.length "" - String.length s); auto.
    destruct (Re.try_at r at_bol true ""); auto.
  - simpl in H. apply andb_true_iff in H. destruct H as [Hc Hs].
    destruct skip; [|rewrite sub_go_skip; auto].
    rewrite sub_go_zero.
    destruct (Re.try_at r at_bol false (String c s)) as [rest|].
    + destruct (String.length (String c s) - String.length rest).
      * destruct (Re.try_at r at_bol true (String c s)).
        -- cbn [String.append]. auto.
        -- cbn [String.append Re.all_chars]. rewrite Hc. cbn [andb]. auto.
      * cbn [String.append]. auto.
    + cbn [Re.all_chars]. rewrite Hc. cbn [andb]. auto.
Qed.

Lemma sub_lowered r s : lowered s -> lowered (Re.sub r "" s).
Proof.
  rewrite !lowered_all_chars. apply sub_go_keeps_chars.
Qed.

Lemma index_key_lowered dependency : lowered (index_key dependency).
Proof.
  unfold index_key, bare.
  destruct (Py.has_char "[" (Py.lower dependency)).
  - apply sub_lowered, lower_lowered.
  - apply lower_lowered.
Qed.

Lemma in_set {V : Type} k (v : V) d k' v' :
  In (k', v') (Dict.set k v d) -> (k', v') = (k, v) \/ In (k', v') d.
Proof.
  induction d as [|[k0 v0] r IH]; simpl.
  - intros [E | []]. left. congruence.
  - destruct (String.eqb k0 k) eqn:E; simpl.
    + apply String.eqb_eq in E. subst k0.
      intros [H | H]; [left; congruence | right; now right].
    + intros [H | H]; [right; now left|].
      apply IH in H. destruct H; auto.
Qed.

Lemma normal_add_once k x d :
  lowered k -> lowered x -> normal d -> normal (add_once k x d).
Proof.
  intros Lk Lx N. unfold add_once.
  destruct (Dict.get k d) as [l|] eqn:G.
  - destruct (Py.mem x l); auto.
    intros k' l' H. apply in_set in H. destruct H as [[= -> ->] | H]; auto.
    split; auto. intros y Hy. apply in_app_or in Hy.
    destruct Hy as [Hy | [<- | []]]; auto.
    apply get_in in G. apply N in G. now apply G.
  - intros k' l' H. apply in_set in H. destruct H as [[= -> ->] | H]; auto.
    split; auto. intros y [<- | []]. auto.
Qed.

Lemma normal_add_dependency name dependency st :
  lowered name -> normal (required_by st) ->
  normal (required_by (add_dependency name dependency st)).
Proof.
  intros L N. pose proof (index_key_lowered dependency) as K.
  unfold index_key, bare in K. unfold add_dependency, bare.
  destruct (Py.has_char "[" (Py.lower dependency)); simpl;
    now apply normal_add_once.
Qed.

Lemma normal_add_dependencies name deps st :
  lowered name -> normal (required_by st) ->
  normal (required_by (add_dependencies name deps st)).
Proof.
  intros L. unfold add_dependencies. revert st.
  induction deps as [|d r IH]; simpl; intros st N; auto.
  apply IH. now apply normal_add_dependency.
Qed.

Lemma normal_scan packages : normal (required_by (scan packages)).
Proof.
  unfold scan.
  assert (N : normal (required_by (mk_state [] []))) by (intros k l []).
  revert N. generalize (mk_state [] []).
  induction packages as [|p r IH]; simpl; intros st N; auto.
  apply IH. apply normal_add_dependencies; auto. apply lower_lowered.
Qed.

Lemma normal_activate p name extra st :
  lowered name -> normal (required_by st) ->
  normal (required_by (activate p name extra st)).
Proof.
  intros L N. unfold activate.
  destruct (Dict.get extra (pkg_extras p)); auto.
  now apply normal_add_dependencies.
Qed.

Lemma normal_drain_package key st p :
  normal (required_by st) -> normal (required_by (drain_package key st p)).
Proof.
  intros N. unfold drain_package.
  destruct (String.eqb key (Py.lower (pkg_name p))); auto.
  destruct (for_value_total p (Py.lower (pkg_name p)) key st) as [st' E].
  rewrite E.
  eapply (for_value_keeps (fun s => normal (required_by s))); eauto.
  intros e s. apply normal_activate, lower_lowered.
Qed.

Lemma normal_drain_step packages st :
  normal (required_by st) -> normal (required_by (drain_step packages st)).
Proof.
  intros N. unfold drain_step.
  destruct (extras st) as [|[key v] rest]; auto. simpl.
  clear v rest. revert st N.
  induction packages as [|p r IH]; simpl; intros st N; auto.
  apply IH. now apply normal_drain_package.
Qed.

Lemma normal_after_turns n packages : forall st,
  normal (required_by st) ->
  normal (required_by (after_turns n packages st)).
Proof.
  induction n as [|n IH]; simpl; intros st N; auto.
  apply IH. now apply normal_drain_step.
Qed.

Lemma holds_mem d k x : holds d k x -> Dict.mem k d = true.
Proof.
  intros [l [G _]]. unfold Dict.mem. now rewrite G.
Qed.

(* ================================================================== *)
(** ** The patterns of a requirement line agree with their plain reading *)

Lemma length_append_minus pre rest :
  String.length (pre ++ rest)%string - String.length rest = String.length pre.
Proof.
  induction pre as [|c pre IH]; simpl.
  - lia.
  - rewrite <- IH. destruct (String.length rest) eqn:E; [lia|].
    assert (String.length rest <= String.length (pre ++ rest)%string)
      by (clear; induction pre; simpl; lia).
    lia.
Qed.

Lemma sub_go_skip_prefix r repl : forall pre rest,
  Re.sub_go r repl false (String.length pre) (pre ++ rest)%string
  = Re.sub_go r repl false 0 rest.
Proof.
  induction pre as [|c pre IH]; intros rest; simpl String.length;
    cbn [String.append]; auto.
  rewrite sub_go_skip. apply IH.
Qed.

Lemma sub_go_no_bol r repl : Re.bol r = true -> forall s,
  Re.sub_go r repl false 0 s = s.
Proof.
  intros B. induction s as [|c s IH]; rewrite sub_go_zero;
    unfold Re.try_at; rewrite B; cbn [negb andb]; auto.
  now rewrite IH.
Qed.

(** An anchored pattern whose match at position 0 leaves [rest]. *)
Lemma sub_anchored r s pre rest :
  Re.bol r = true ->
  Re.try_at r true false s = Some rest ->
  s = (pre ++ rest)%string ->
  (pre = EmptyString -> Re.try_at r true true s = None) ->
  Re.sub r "" s = rest.
Proof.
  intros B T E N. unfold Re.sub. rewrite sub_go_zero, T.
  rewrite E at 1. rewrite length_append_minus.
  destruct pre as [|c pre]; cbn [String.length String.append].
  - rewrite (N eq_refl). cbn [String.append] in E. subst s.
    destruct rest as [|c rest]; auto.
    now rewrite sub_go_no_bol.
  - subst s. cbn [String.append].
    rewrite sub_go_skip_prefix. now apply sub_go_no_bol.
Qed.

Lemma accept_plain r start rest :
  Re.eol r = false -> Re.accept r false start rest = Some rest.
Proof. intros E. unfold Re.accept. now rewrite E. Qed.

Lemma star_all a k : forall s r,
  Re.all_chars (Re.atom_ok a) s = true ->
  k EmptyString = Some r ->
  Re.star a k s = Some r.
Proof.
  induction s as [|c s IH]; intros r A K; simpl in *; auto.
  apply andb_true_iff in A. destruct A as [Ac As].
  rewrite Ac. now rewrite (IH r).
Qed.

Lemma star_chr x k : (forall t, k t <> None) -> forall s,
  Re.star (Re.Chr x) k s = k (Plain.lstrip_char x s).
Proof.
  intros K. induction s as [|c s IH]; simpl; auto.
  destruct (Ascii.eqb x c); auto.
  rewrite IH. destruct (k (Plain.lstrip_char x s)) eqn:E; auto.
  now apply K in E.
Qed.

(** The tail  *;* * of both patterns *)
Lemma separators r start t :
  Re.eol r = false ->
  Re.items [Pat.sp; Pat.semis; Pat.sp] (Re.accept r false start) t
  = Some (Plain.lead_stripped t).
Proof.
  intros E. unfold Pat.sp, Pat.semis, Plain.lead_stripped.
  cbn [Re.items].
  rewrite star_chr.
  - rewrite star_chr.
    + rewrite star_chr.
      * now apply accept_plain.
      * intros u. now rewrite accept_plain.
    + intros u. rewrite star_chr.
      * now rewrite accept_plain.
      * intros v. now rewrite accept_plain.
  - intros u. rewrite star_chr.
    + rewrite star_chr.
      * now rewrite accept_plain.
      * intros v. now rewrite accept_plain.
    + intros v. rewrite star_chr.
      * now rewrite accept_plain.
      * intros w. now rewrite accept_plain.
Qed.

Lemma no_newline_any s :
  Plain.no_newline s -> Re.all_chars (Re.atom_ok Re.Any) s = true.
Proof.
  unfold Plain.no_newline. induction s as [|c s IH]; simpl; auto.
  intros H. apply orb_false_iff in H. destruct H as [Hc Hs].
  rewrite Hc. simpl. auto.
Qed.

Lemma no_newline_tail c s :
  Plain.no_newline (String c s) ->
  Ascii.eqb c Py.newline = false /\ Plain.no_newline s.
Proof.
  unfold Plain.no_newline. simpl. intros H.
  now apply orb_false_iff in H.
Qed.

Lemma sub_go_skip_all r repl : forall s b,
  Re.sub_go r repl b (String.length s) s = Re.sub_go r repl b 0 EmptyString
  \/ Re.sub_go r repl b (String.length s) s
     = Re.sub_go r repl false 0 EmptyString.
Proof.
  induction s as [|c s IH]; intros b; simpl String.length.
  - now left.
  - rewrite sub_go_skip. right. destruct (IH false); auto.
Qed.

(** (a) The dependency is the text before the first delimiter. *)
Lemma dependency_plain after line :
  after = Pat.after_name \/ after = Pat.after_name_eol ->
  Plain.no_newline line ->
  Re.sub after "" line = Plain.upto_delimiter line.
Proof.
  intros A. unfold Re.sub. generalize true.
  induction line as [|c s IH]; intros b N.
  - destruct A as [-> | ->]; reflexivity.
  - apply no_newline_tail in N. destruct N as [Nc Ns].
    rewrite sub_go_zero.
    assert (T : Re.try_at after b false (String c s)
                = if Plain.is_delimiter c then Some EmptyString else None).
    { unfold Plain.is_delimiter.
      destruct A as [-> | ->];
        unfold Re.try_at, Pat.after_name, Pat.after_name_eol;
        cbn [Re.bol Re.body andb Re.items];
        destruct (Re.atom_ok Pat.delimiter c); auto;
        apply star_all; auto using no_newline_any. }
    rewrite T. cbn [Plain.upto_delimiter].
    destruct (Plain.is_delimiter c).
    + change (String.length (String c s) - String.length "")
        with (S (String.length s)).
      cbn [String.append].
      destruct (sub_go_skip_all after "" s false) as [-> | ->];
        destruct A as [-> | ->]; reflexivity.
    + now rewrite IH.
Qed.

(** The key of a dependency is the text before its first opening
    bracket. *)
Lemma lower_char_newline c :
  Ascii.eqb (Py.lower_char c) Py.newline = Ascii.eqb c Py.newline.
Proof.
  destruct c as [[] [] [] [] [] [] [] []]; reflexivity.
Qed.

Lemma lower_no_newline s : Plain.no_newline s -> Plain.no_newline (Py.lower s).
Proof.
  unfold Plain.no_newline.
  induction s as [|c s IH]; cbn [Py.lower Py.has_char]; auto.
  intros H. apply orb_false_iff in H. destruct H as [Hc Hs].
  rewrite IH by exact Hs. rewrite orb_false_r.
  rewrite lower_char_newline. exact Hc.
Qed.

Lemma without_extras_none s :
  Py.has_char "["%char s = false -> without_extras s = s.
Proof.
  induction s as [|c s IH]; cbn [Py.has_char without_extras]; auto.
  intros H. apply orb_false_iff in H. destruct H as [Hc Hs].
  rewrite Hc. now rewrite IH.
Qed.

Lemma without_extras_bracket name rest :
  Py.has_char "["%char name = false ->
  without_extras (name ++ String "["%char rest) = name.
Proof.
  induction name as [|c s IH];
    cbn [Py.has_char without_extras String.append]; auto.
  intros H. apply orb_false_iff in H. destruct H as [Hc Hs].
  rewrite Hc. now rewrite IH.
Qed.

Lemma from_open_plain s : forall b,
  Plain.no_newline s ->
  Re.sub_go Pat.from_open "" b 0 s = without_extras s.
Proof.
  induction s as [|c s IH]; intros b N.
  - reflexivity.
  - apply no_newline_tail in N. destruct N as [Nc Ns].
    rewrite sub_go_zero.
    assert (T : Re.try_at Pat.from_open b false (String c s)
                = if Ascii.eqb c "["%char then Some EmptyString else None).
    { unfold Re.try_at, Pat.from_open.
      cbn [Re.bol Re.body andb Re.items Re.atom_ok].
      rewrite (Ascii.eqb_sym "["%char c).
      destruct (Ascii.eqb c "["%char); auto.
      apply star_all; auto using no_newline_any. }
    rewrite T. cbn [without_extras].
    destruct (Ascii.eqb c "["%char).
    + change (String.length (String c s) - String.length "")
        with (S (String.length s)).
      cbn [String.append].
      destruct (sub_go_skip_all Pat.from_open "" s false) as [-> | ->];
        reflexivity.
    + now rewrite IH.
Qed.

Lemma bare_plain s : Plain.no_newline s -> bare s = without_extras s.
Proof.
  intros N. unfold bare.
  destruct (Py.has_char "["%char s) eqn:H.
  - now apply from_open_plain.
  - symmetry. now apply without_extras_none.
Qed.

Lemma index_key_plain dependency :
  Plain.no_newline dependency ->
  index_key dependency = without_extras (Py.lower dependency).
Proof.
  intros N. unfold index_key. now apply bare_plain, lower_no_newline.
Qed.

(** (b) What follows the last closing bracket *)
Lemma star_any_last r start : Re.eol r = false -> forall s,
  Plain.no_newline s ->
  Re.star Re.Any
    (Re.items [Re.One (Re.Chr "]"%char); Pat.sp; Pat.semis; Pat.sp]
       (Re.accept r false start)) s
  = option_map Plain.lead_stripped (Plain.after_last_close s).
Proof.
  intros E. induction s as [|c s IH]; intros N.
  - reflexivity.
  - apply no_newline_tail in N. destruct N as [Nc Ns].
    cbn [Re.star Plain.after_last_close]. cbn [Re.atom_ok]. rewrite Nc.
    cbn [negb]. rewrite (IH Ns).
    destruct (Plain.after_last_close s) as [t|]; auto.
    cbn [option_map].
    change (Re.items (Re.One (Re.Chr "]"%char) :: [Pat.sp; Pat.semis; Pat.sp])
              (Re.accept r false start) (String c s))
      with (if Ascii.eqb "]"%char c
            then Re.items [Pat.sp; Pat.semis; Pat.sp]
                   (Re.accept r false start) s
            else None).
    destruct (Ascii.eqb "]"%char c); auto.
    now rewrite separators.
Qed.

Lemma lstrip_char_suffix x s :
  exists pre, s = (pre ++ Plain.lstrip_char x s)%string.
Proof.
  induction s as [|c s [pre IH]]; simpl.
  - now exists EmptyString.
  - destruct (Ascii.eqb x c).
    + exists (String c pre). simpl. now rewrite <- IH.
    + now exists EmptyString.
Qed.

Lemma append_assoc (a b c : string) :
  ((a ++ b) ++ c = a ++ (b ++ c))%string.
Proof. induction a; simpl; congruence. Qed.

Lemma lead_stripped_suffix s :
  exists pre, s = (pre ++ Plain.lead_stripped s)%string.
Proof.
  unfold Plain.lead_stripped.
  destruct (lstrip_char_suffix " "%char s) as [p1 E1].
  destruct (lstrip_char_suffix ";"%char (Plain.lstrip_char " "%char s))
    as [p2 E2].
  destruct (lstrip_char_suffix " "%char
              (Plain.lstrip_char ";"%char (Plain.lstrip_char " "%char s)))
    as [p3 E3].
  exists (p1 ++ p2 ++ p3)%string.
  rewrite !append_assoc, <- E3, <- E2. exact E1.
Qed.

Lemma after_last_close_split s t :
  Plain.after_last_close s = Some t ->
  exists pre, s = (pre ++ String "]"%char t)%string.
Proof.
  revert t. induction s as [|c s IH]; cbn [Plain.after_last_close];
    intros t H; [discriminate|].
  destruct (Plain.after_last_close s) as [u|].
  - injection H as ->. destruct (IH t eq_refl) as [pre ->].
    now exists (String c pre).
  - destruct (Ascii.eqb "]"%char c) eqn:E; [|discriminate].
    apply Ascii.eqb_eq in E. injection H as ->. subst c.
    now exists EmptyString.
Qed.

Lemma conditions_after_bracket line :
  Plain.no_newline line ->
  Re.sub Pat.through_bracket "" line
  = match Plain.after_last_close line with
    | Some t => Plain.lead_stripped t
    | None => line
    end.
Proof.
  intros N.
  assert (T : Re.try_at Pat.through_bracket true false line
              = option_map Plain.lead_stripped (Plain.after_last_close line)).
  { unfold Re.try_at, Pat.through_bracket. cbn [Re.bol negb andb Re.body].
    cbn [Re.items]. now apply star_any_last. }
  destruct (Plain.after_last_close line) as [t|] eqn:L.
  - destruct (after_last_close_split _ _ L) as [p1 E1].
    destruct (lead_stripped_suffix t) as [p2 E2].
    apply (sub_anchored _ _ (p1 ++ String "]"%char p2)%string); auto.
    + rewrite E1 at 1. rewrite E2 at 1.
      rewrite append_assoc. reflexivity.
    + intros Z. destruct p1; discriminate.
  - unfold Re.sub. rewrite sub_go_zero, T. cbn [option_map].
    destruct line as [|c s]; auto.
    now rewrite sub_go_no_bol.
Qed.

(** (c) What follows the name *)
Lemma fragment_matches k : forall dep rest,
  Re.all_chars Re.plain dep = true ->
  Plain.no_newline dep ->
  Re.items (Re.fragment dep ++ [Pat.sp; Pat.semis; Pat.sp]) k
    (dep ++ rest)%string
  = Re.items [Pat.sp; Pat.semis; Pat.sp] k rest.
Proof.
  induction dep as [|c dep IH]; intros rest P N; auto.
  apply no_newline_tail in N. destruct N as [Nc Ns].
  simpl in P. apply andb_true_iff in P. destruct P as [_ Ps].
  cbn [Re.fragment app String.append]. unfold Re.lit.
  destruct (Ascii.eqb c "."%char) eqn:D; cbn [Re.items Re.atom_ok].
  - rewrite Nc. cbn [negb]. now apply IH.
  - rewrite Ascii.eqb_refl. now apply IH.
Qed.

Lemma lstrip_char_length x s :
  String.length (Plain.lstrip_char x s) <= String.length s.
Proof.
  induction s as [|c s IH]; cbn [Plain.lstrip_char String.length]; auto.
  destruct (Ascii.eqb x c); cbn [String.length]; lia.
Qed.

Lemma separators_must_advance r s :
  Plain.lead_stripped s = s ->
  Re.items [Pat.sp; Pat.semis; Pat.sp] (Re.accept r true s) s = None.
Proof.
  intros F. unfold Plain.lead_stripped in F.
  destruct s as [|c s].
  - cbn. unfold Re.accept. destruct (Re.eol r && negb (Re.at_end "")); auto.
  - assert (Hs : Ascii.eqb " "%char c = false).
    { destruct (Ascii.eqb " "%char c) eqn:E; auto.
      exfalso. cbn [Plain.lstrip_char] in F. rewrite E in F.
      apply (f_equal String.length) in F. cbn [String.length] in F.
      pose proof (lstrip_char_length " "%char
                    (Plain.lstrip_char ";"%char
                       (Plain.lstrip_char " "%char s))).
      pose proof (lstrip_char_length ";"%char
                    (Plain.lstrip_char " "%char s)).
      pose proof (lstrip_char_length " "%char s). lia. }
    assert (Hm : Ascii.eqb ";"%char c = false).
    { destruct (Ascii.eqb ";"%char c) eqn:E; auto.
      exfalso. cbn [Plain.lstrip_char] in F. rewrite Hs in F.
      cbn [Plain.lstrip_char] in F. rewrite E in F.
      apply (f_equal String.length) in F. cbn [String.length] in F.
      pose proof (lstrip_char_length " "%char
                    (Plain.lstrip_char ";"%char s)).
      pose proof (lstrip_char_length ";"%char s). lia. }
    unfold Pat.sp, Pat.semis. cbn [Re.items Re.star Re.atom_ok].
    rewrite Hs, Hm. unfold Re.accept.
    destruct (Re.eol r && negb (Re.at_end (String c s))); auto.
    now rewrite Nat.eqb_refl.
Qed.

Lemma upto_split s :
  s = (Plain.upto_delimiter s
       ++ Plain.drop (String.length (Plain.upto_delimiter s)) s)%string.
Proof.
  induction s as [|c s IH]; simpl; auto.
  destruct (Plain.is_delimiter c); simpl; auto. now rewrite <- IH.
Qed.

Lemma upto_no_newline s :
  Plain.no_newline s -> Plain.no_newline (Plain.upto_delimiter s).
Proof.
  unfold Plain.no_newline. induction s as [|c s IH]; simpl; auto.
  intros H. apply orb_false_iff in H. destruct H as [Hc Hs].
  destruct (Plain.is_delimiter c); simpl; auto. now rewrite Hc, IH.
Qed.

Lemma conditions_after_name dep rest :
  Re.all_chars Re.plain dep = true ->
  Plain.no_newline dep ->
  Re.sub (Pat.through_name (Re.fragment dep)) "" (dep ++ rest)%string
  = Plain.lead_stripped rest.
Proof.
  intros P N.
  destruct (lead_stripped_suffix rest) as [p2 E2].
  apply (sub_anchored _ _ (dep ++ p2)%string); auto.
  - unfold Re.try_at, Pat.through_name. cbn [Re.bol Re.body negb andb].
    rewrite fragment_matches; auto. now apply separators.
  - rewrite append_assoc. now rewrite <- E2.
  - intros Z. destruct dep; [|discriminate].
    cbn [String.append] in *. subst p2. cbn [String.append] in E2.
    unfold Re.try_at, Pat.through_name. cbn [Re.bol Re.body negb andb].
    cbn [Re.fragment app]. apply separators_must_advance. now rewrite <- E2.
Qed.

(* ================================================================== *)
(** ** Termination of the loop when no extra requests further extras *)

Lemma flat_no_bracket p extra group dependency :
  flat p = true ->
  Dict.get extra (pkg_extras p) = Some group ->
  In dependency (Dict.keys group) ->
  Py.has_char "[" (Py.lower dependency) = false.
Proof.
  unfold flat. rewrite forallb_forall. intros F G I.
  apply get_in in G. apply F in G. simpl in G.
  rewrite forallb_forall in G.
  apply in_keys in I. destruct I as [c I]. apply G in I. simpl in I.
  now apply negb_true_iff in I.
Qed.

Lemma add_dependencies_flat name deps : forall st,
  (forall dependency, In dependency deps ->
                      Py.has_char "[" (Py.lower dependency) = false) ->
  extras (add_dependencies name deps st) = extras st.
Proof.
  unfold add_dependencies.
  induction deps as [|d r IH]; simpl; intros st H; auto.
  rewrite IH by auto. unfold add_dependency.
  now rewrite (H d (or_introl eq_refl)).
Qed.

Lemma activate_flat p name extra st :
  flat p = true -> extras (activate p name extra st) = extras st.
Proof.
  intros F. unfold activate.
  destruct (Dict.get extra (pkg_extras p)) as [group|] eqn:G; auto.
  apply add_dependencies_flat. intros d Hd.
  eapply flat_no_bracket; eauto.
Qed.

Lemma drain_package_flat key st p :
  flat p = true -> extras (drain_package key st p) = extras st.
Proof.
  intros F. unfold drain_package.
  destruct (String.eqb key (Py.lower (pkg_name p))); auto.
  destruct (for_value_total p (Py.lower (pkg_name p)) key st) as [st' E].
  rewrite E.
  refine (for_value_keeps (fun s => extras s = extras st) p
            (Py.lower (pkg_name p)) key _ _ _ _ _ eq_refl E).
  intros e s H. now rewrite activate_flat.
Qed.

Lemma drain_step_flat packages st :
  forallb flat packages = true ->
  extras (drain_step packages st) = tl (extras st).
Proof.
  intros F. unfold drain_step.
  destruct (extras st) as [|[key v] rest] eqn:E; [now rewrite E|].
  cbn [extras tl].
  assert (K : extras (fold_left (drain_package key) packages st)
              = (key, v) :: rest).
  { rewrite <- E. clear E. revert st.
    induction packages as [|p r IH]; simpl; intros st; auto.
    simpl in F. apply andb_true_iff in F. destruct F as [Fp Fr].
    rewrite IH by auto. now apply drain_package_flat. }
  rewrite K. simpl. now rewrite String.eqb_refl.
Qed.

(** With no nested requests the loop ends after one turn per pending
    name. *)
Lemma drain_flat packages :
  forallb flat packages = true ->
  forall fuel st,
    length (extras st) <= fuel ->
    exists R, drain fuel packages st = Some R.
Proof.
  intros F. induction fuel as [|fuel IH]; intros st L; simpl.
  - destruct (extras st); simpl in L; [eauto | lia].
  - destruct (extras st) as [|e r] eqn:E; [eauto|].
    apply IH. rewrite drain_step_flat by auto. rewrite E. simpl in *. lia.
Qed.

Lemma get_packages_required_by_flat packages :
  forallb flat packages = true ->
  exists R,
    get_packages_required_by (length (extras (scan packages))) packages
    = Some R.
Proof.
  intros F. unfold get_packages_required_by. now apply drain_flat.
Qed.

Lemma drain_unfold fuel packages st e r :
  extras st = e :: r ->
  drain (S fuel) packages st = drain fuel packages (drain_step packages st).
Proof. intros E. simpl. now rewrite E. Qed.

(* ================================================================== *)
(** ** The metadata record parser *)

Lemma entries_set_absent {V : Type} k (v : V) d :
  Dict.get k d = None -> entries k (Dict.set k v d) = [(k, v)].
Proof.
  unfold entries. induction d as [|[k0 v0] r IH]; simpl.
  - now rewrite String.eqb_refl.
  - destruct (String.eqb k0 k) eqn:E; [discriminate|].
    intros G. simpl. rewrite E. auto.
Qed.

Lemma entries_set_present {V : Type} k (v v0 : V) d :
  entries k d = [(k, v0)] -> entries k (Dict.set k v d) = [(k, v)].
Proof.
  unfold entries. induction d as [|[k1 v1] r IH]; simpl; [discriminate|].
  destruct (String.eqb k1 k) eqn:E; simpl; rewrite E.
  - apply String.eqb_eq in E. subst k1. intros [= -> H]. now rewrite H.
  - auto.
Qed.

Lemma declare_twice dependency a b d :
  Dict.get dependency d = None ->
  Py.truthy b = true ->
  exists d',
    (d1 <- declare dependency a d ;; declare dependency b d1) = Ok d'
    /\ Dict.get dependency d' = Some (Str (a ++ ";" ++ b)%string)
    /\ entries dependency d' = [(dependency, Str (a ++ ";" ++ b)%string)].
Proof.
  intros G T.
  assert (E : declare dependency a d = Ok (Dict.set dependency (Str a) d))
    by (unfold declare; now rewrite G).
  rewrite E. cbn [bind]. unfold declare.
  rewrite get_set_same, T. cbn [iadd bind].
  eexists. split; [reflexivity|]. split.
  - apply get_set_same.
  - eapply entries_set_present. now apply entries_set_absent.
Qed.

Lemma requires_dist_plain line p dependency conditions :
  requirement Pat.after_name
    (Re.sub (Pat.field "Requires-Dist: ") "" line)
  = Ok (dependency, conditions) ->
  Py.contains "extra == "
    (Re.sub (Pat.field "Requires-Dist: ") "" line) = false ->
  requires_dist line p
  = (requires <- declare dependency conditions (pkg_requires p) ;;
     Ok (mk_package (pkg_directory p) (pkg_type p) (pkg_name p)
           (pkg_version p) (pkg_summary p) requires (pkg_extras p))).
Proof.
  intros R C. unfold requires_dist. cbv zeta. rewrite R. cbn [bind].
  now rewrite C.
Qed.

Lemma requires_dist_first line :
  Py.startswith "Requires-Dist: " line = true ->
  Py.startswith "Metadata-Version: " line = false
  /\ Py.startswith "Name: " line = false
  /\ Py.startswith "Version: " line = false
  /\ Py.startswith "Summary: " line = false.
Proof.
  unfold Py.startswith. destruct line as [|c s]; [discriminate|].
  cbn [String.prefix]. destruct (ascii_dec "R" c) as [<- | N];
    [|discriminate].
  intros _. repeat split; reflexivity.
Qed.

(** A line that starts with Requires-Dist: takes that branch. *)
Lemma metadata_line_requires_dist line p :
  Py.startswith "Requires-Dist: " (Py.strip line) = true ->
  metadata_line line p
  = (p' <- requires_dist (Py.strip line) p ;; Ok (Next, p')).
Proof.
  intros S. unfold metadata_line. cbv zeta.
  destruct (requires_dist_first _ S) as [H1 [H2 [H3 H4]]].
  now rewrite H1, H2, H3, H4, S.
Qed.

(** *** Where the parsers raise *)

Lemma interpolate_open s :
  Re.all_chars Re.plain_or_open s = true ->
  Py.has_char "("%char s = true ->
  Re.interpolate s = Raise ReError.
Proof.
  intros A H. unfold Re.interpolate. rewrite A.
  assert (P : Re.all_chars Re.plain s = false).
  { clear A. induction s as [|c s IH]; [discriminate|].
    cbn [Py.has_char] in H. cbn [Re.all_chars].
    destruct (Ascii.eqb c "("%char) eqn:E.
    - apply Ascii.eqb_eq in E. subst c. reflexivity.
    - cbn [orb] in H. rewrite (IH H). apply andb_false_r. }
  now rewrite P.
Qed.

(** A dependency such as  bar(  makes the pattern built from it fail to
    compile. *)
Lemma requirement_raises after line :
  Py.has_char "["%char (Re.sub after "" line) = false ->
  Re.all_chars Re.plain_or_open (Re.sub after "" line) = true ->
  Py.has_char "("%char (Re.sub after "" line) = true ->
  requirement after line = Raise ReError.
Proof.
  intros B A H. unfold requirement. cbv zeta. rewrite B.
  now rewrite interpolate_open.
Qed.

(** A name first met without conditions is stored with an empty dict. *)
Lemma declare_legacy_bare dependency d :
  Dict.get dependency d = None ->
  declare_legacy dependency "" "" d = Ok (Dict.set dependency EmptyDict d).
Proof. intros G. unfold declare_legacy. now rewrite G. Qed.

(** Conditions cannot be appended to an empty dict. *)
Lemma declare_legacy_on_dict dependency conditions extra_conditions d :
  Dict.get dependency d = Some EmptyDict ->
  Py.truthy conditions = true ->
  declare_legacy dependency conditions extra_conditions d = Raise TypeError.
Proof. intros G T. unfold declare_legacy. now rewrite G, T. Qed.

Lemma metadata_line_blank blank p :
  Py.strip blank = "" -> metadata_line blank p = Ok (Break, p).
Proof. intros E. unfold metadata_line. now rewrite E. Qed.

Lemma metadata_lines_blank blank post : Py.strip blank = "" ->
  forall pre p,
    metadata_lines (pre ++ blank :: post) p = metadata_lines pre p.
Proof.
  intros E. induction pre as [|l pre IH]; intros p.
  - cbn [app metadata_lines]. now rewrite metadata_line_blank.
  - cbn [app metadata_lines].
    destruct (metadata_line l p) as [[f p']| |]; cbn [bind]; auto.
    cbn [fst snd]. destruct f; auto.
Qed.

(* ================================================================== *)
(** * The claims *)

(** C1, as the code has it.  When a pending item [(key, value)] is
    drained, every dependency listed under a requested extra of the
    package named [key] is recorded as required by that package itself,
    the owner of the extra, and it stays recorded for the rest of the run.
    The package that asked for the extra is not recorded: with A requiring
    B[x] and the extra x of B holding C, the index maps b to [a] and
    c to [b]. *)
Theorem extras_recorded_for_owner
  packages st key value rest p extra group dependency :
  extras st = (key, value) :: rest ->
  In p packages ->
  Py.lower (pkg_name p) = key ->
  In extra value ->
  Dict.get extra (pkg_extras p) = Some group ->
  In dependency (Dict.keys group) ->
  (forall n,
      holds (required_by (after_turns (S n) packages st))
            (index_key dependency) key)
  /\ get_packages_required_by 1 [Scenario.A; Scenario.B]
     = Some [("b", ["a"]); ("c", ["b"])].
Proof.
  intros E I N X G D. split; [|reflexivity].
  intros n. cbn [after_turns]. apply after_turns_mono.
  now apply drain_step_activates with value rest p extra group.
Qed.

Lemma extras_recorded_for_owner_witness :
  (extras (scan [Scenario.A; Scenario.B]) = [("b", ["x"])]
   /\ In Scenario.B [Scenario.A; Scenario.B]
   /\ Py.lower (pkg_name Scenario.B) = "b"
   /\ In "x" ["x"]
   /\ Dict.get "x" (pkg_extras Scenario.B) = Some [("C", Str "")]
   /\ In "C" (Dict.keys [("C", Str "")]))
  /\ (forall n,
        holds (required_by
                 (after_turns (S n) [Scenario.A; Scenario.B]
                    (scan [Scenario.A; Scenario.B])))
              (index_key "C") "b")
     /\ get_packages_required_by 1 [Scenario.A; Scenario.B]
        = Some [("b", ["a"]); ("c", ["b"])].
Proof.
  assert (H1 : extras (scan [Scenario.A; Scenario.B]) = [("b", ["x"])])
    by reflexivity.
  assert (H2 : In Scenario.B [Scenario.A; Scenario.B])
    by (simpl; right; left; reflexivity).
  assert (H3 : Py.lower (pkg_name Scenario.B) = "b") by reflexivity.
  assert (H4 : In "x" ["x"]) by (simpl; left; reflexivity).
  assert (H5 : Dict.get "x" (pkg_extras Scenario.B) = Some [("C", Str "")])
    by reflexivity.
  assert (H6 : In "C" (Dict.keys [("C", Str "")]))
    by (simpl; left; reflexivity).
  split; [repeat split; assumption|].
  exact (extras_recorded_for_owner [Scenario.A; Scenario.B]
           (scan [Scenario.A; Scenario.B]) "b" ["x"] [] Scenario.B "x"
           [("C", Str "")] "C" H1 H2 H3 H4 H5 H6).
Defined.

(** C1, as stated, fails: with A requiring B[x] and the extra x of B
    holding C, the index at c does not contain a. *)
Lemma original_requirer_not_recorded :
  get_packages_required_by 1 [Scenario.A; Scenario.B]
  = Some [("b", ["a"]); ("c", ["b"])]
  /\ ~ holds [("b", ["a"]); ("c", ["b"])] "c" "a".
Proof.
  split; [reflexivity|].
  intros [l [G I]]. vm_compute in G. injection G as <-.
  destruct I as [I | []]. discriminate.
Qed.

(** C2, as the code has it.  For a line without newline (every stripped
    line of a file), in both parsers: the dependency is the text before
    the first of space ; ! ~ < = > and keeps a bracket group that follows
    the name; the conditions are what follows the last closing bracket of
    the line when the dependency holds an opening bracket, and what
    follows the dependency otherwise (for a dependency made of ordinary
    characters and dots), with leading spaces, semicolons and spaces
    removed.  The line parser returns no extras: the index computation
    reads them out of the lowercased dependency.  The four forms give
    (name, empty), (name[extra1,extra2], empty), (name, >=1.0) and
    (name[extra], >=1.0; extra == QxQ with Q the double quote). *)
Theorem requirement_line after line :
  after = Pat.after_name \/ after = Pat.after_name_eol ->
  Plain.no_newline line ->
  (Py.has_char "[" (Plain.upto_delimiter line) = true ->
   requirement after line
   = Ok (Plain.upto_delimiter line,
         match Plain.after_last_close line with
         | Some t => Plain.lead_stripped t
         | None => line
         end))
  /\ (Py.has_char "[" (Plain.upto_delimiter line) = false ->
      Re.all_chars Re.plain (Plain.upto_delimiter line) = true ->
      requirement after line
      = Ok (Plain.upto_delimiter line,
            Plain.lead_stripped
              (Plain.drop (String.length (Plain.upto_delimiter line)) line)))
  /\ requirement after "name" = Ok ("name", "")
  /\ requirement after "name[extra1,extra2]" = Ok ("name[extra1,extra2]", "")
  /\ requirement after "name>=1.0" = Ok ("name", ">=1.0")
  /\ requirement after Scenario.line_with_marker
     = Ok ("name[extra]",
           (">=1.0; extra == " ++ Scenario.dq ++ "x" ++ Scenario.dq)%string)
  /\ requested (Py.lower "name[extra1,extra2]") = ["extra1"; "extra2"]
  /\ requested (Py.lower "name[extra]") = ["extra"]
  /\ index_key "name[extra1,extra2]" = "name".
Proof.
  intros A N.
  assert (D : Re.sub after "" line = Plain.upto_delimiter line)
    by now apply dependency_plain.
  split; [|split].
  - intros B. unfold requirement. rewrite D, B.
    now rewrite conditions_after_bracket.
  - intros B P. unfold requirement. rewrite D, B.
    unfold Re.interpolate. rewrite P. cbn [bind].
    pose proof (conditions_after_name (Plain.upto_delimiter line)
                  (Plain.drop (String.length (Plain.upto_delimiter line)) line)
                  P (upto_no_newline _ N)) as C.
    rewrite <- upto_split in C. now rewrite C.
  - destruct A as [-> | ->]; repeat split; reflexivity.
Qed.

Lemma requirement_line_witness :
  (Pat.after_name = Pat.after_name \/ Pat.after_name = Pat.after_name_eol)
  /\ Plain.no_newline "some-pkg[x,y]>=1.0; python_version < '3'"
  /\ requirement Pat.after_name "some-pkg[x,y]>=1.0; python_version < '3'"
     = Ok ("some-pkg[x,y]", ">=1.0; python_version < '3'")
  /\ requirement Pat.after_name "name>=1.0" = Ok ("name", ">=1.0").
Proof.
  assert (A : Pat.after_name = Pat.after_name
              \/ Pat.after_name = Pat.after_name_eol) by (left; reflexivity).
  assert (N : Plain.no_newline "some-pkg[x,y]>=1.0; python_version < '3'")
    by reflexivity.
  split; [exact A|]. split; [exact N|].
  pose proof (requirement_line Pat.after_name
                "some-pkg[x,y]>=1.0; python_version < '3'" A N) as H.
  split.
  - exact (proj1 H eq_refl).
  - exact (proj1 (proj2 (proj2 (proj2 (proj2 H))))).
Defined.

(** C2, as stated, fails: for  name[extra1,extra2]  the dependency
    returned is not the text before the opening bracket. *)
Lemma bracket_stays_in_dependency :
  requirement Pat.after_name "name[extra1,extra2]"
  = Ok ("name[extra1,extra2]", "")
  /\ Spec.dependencyName "name[extra1,extra2]" = "name"
  /\ requirement Pat.after_name "name[extra1,extra2]"
     <> Ok (Spec.dependencyName "name[extra1,extra2]", "").
Proof.
  split; [reflexivity|]. split; [reflexivity|].
  vm_compute. discriminate.
Qed.

(** C3.  On the list where the extra x of B pulls in C[y] and the extra y
    of C pulls in B[x], the loop [while extras] never ends: whatever the
    number of turns allowed, [get_packages_required_by] has not
    returned. *)
Theorem cyclic_extras_never_return :
  forall fuel, get_packages_required_by fuel Scenario.cyclic = None.
Proof.
  assert (L : forall fuel,
             drain fuel Scenario.cyclic Scenario.cyclic_b = None
             /\ drain fuel Scenario.cyclic Scenario.cyclic_c = None).
  { induction fuel as [|fuel [IHb IHc]]; [split; reflexivity|]. split.
    - rewrite (drain_unfold fuel Scenario.cyclic Scenario.cyclic_b
                 ("b", ["x"]) []) by reflexivity.
      replace (drain_step Scenario.cyclic Scenario.cyclic_b)
        with Scenario.cyclic_c by (vm_compute; reflexivity).
      exact IHc.
    - rewrite (drain_unfold fuel Scenario.cyclic Scenario.cyclic_c
                 ("c", ["y"]) []) by reflexivity.
      replace (drain_step Scenario.cyclic Scenario.cyclic_c)
        with Scenario.cyclic_b by (vm_compute; reflexivity).
      exact IHb. }
  intros fuel. unfold get_packages_required_by.
  destruct fuel as [|fuel]; [reflexivity|].
  rewrite (drain_unfold fuel Scenario.cyclic (scan Scenario.cyclic)
             ("b", ["x"]) []) by reflexivity.
  destruct fuel as [|fuel]; [reflexivity|].
  rewrite (drain_unfold fuel Scenario.cyclic
             (drain_step Scenario.cyclic (scan Scenario.cyclic))
             ("c", ["y"]) []) by (vm_compute; reflexivity).
  replace (drain_step Scenario.cyclic
             (drain_step Scenario.cyclic (scan Scenario.cyclic)))
    with Scenario.cyclic_b by (vm_compute; reflexivity).
  apply L.
Qed.

(** C4, as the code has it.  A request for extras of a name that is
    already pending is merged into the pending entry: what was pending
    stays pending, and every extra of the new request is pending after it.
    So after the first loop every extra requested by any package is
    pending under the name of its dependency, and all of them are expanded
    when that name is drained: with A requiring B[x] and D requiring B[y],
    the pending entry of b is [x; y], and the dependencies under x
    and under y are both recorded. *)
Theorem pending_extras_accumulate name dependency st k x part :
  (holds (extras st) k x ->
   holds (extras (add_dependency name dependency st)) k x)
  /\ (Py.has_char "[" (Py.lower dependency) = true ->
      In part (requested (Py.lower dependency)) ->
      holds (extras (add_dependency name dependency st))
            (index_key dependency) part)
  /\ (forall packages p,
        In p packages ->
        In dependency (Dict.keys (pkg_requires p)) ->
        Py.has_char "[" (Py.lower dependency) = true ->
        In part (requested (Py.lower dependency)) ->
        holds (extras (scan packages)) (index_key dependency) part)
  /\ (forall packages s key value rest p extra group listed,
        extras s = (key, value) :: rest ->
        In p packages ->
        Py.lower (pkg_name p) = key ->
        In extra value ->
        Dict.get extra (pkg_extras p) = Some group ->
        In listed (Dict.keys group) ->
        holds (required_by (drain_step packages s)) (index_key listed) key)
  /\ extras (scan [Scenario.A; Scenario.D; Scenario.B_two])
     = [("b", ["x"; "y"])]
  /\ get_packages_required_by 1 [Scenario.A; Scenario.D; Scenario.B_two]
     = Some [("b", ["a"; "d"]); ("c", ["b"]); ("e", ["b"])].
Proof.
  split; [apply add_dependency_pending_mono|].
  split; [apply add_dependency_enqueues|].
  split; [intros packages p; apply scan_enqueues|].
  split; [|split; reflexivity].
  intros packages s key value rest p extra group listed.
  apply drain_step_activates.
Qed.

Lemma pending_extras_accumulate_witness :
  (holds (extras (mk_state [("b", ["x"])] [("b", ["a"])])) "b" "x"
   /\ Py.has_char "[" (Py.lower "B[y]") = true
   /\ In "y" (requested (Py.lower "B[y]")))
  /\ holds (extras (add_dependency "d" "B[y]"
                      (mk_state [("b", ["x"])] [("b", ["a"])]))) "b" "x"
  /\ holds (extras (add_dependency "d" "B[y]"
                      (mk_state [("b", ["x"])] [("b", ["a"])])))
           (index_key "B[y]") "y".
Proof.
  assert (H1 : holds (extras (mk_state [("b", ["x"])] [("b", ["a"])]))
                 "b" "x")
    by (exists ["x"]; split; [reflexivity | left; reflexivity]).
  assert (H2 : Py.has_char "[" (Py.lower "B[y]") = true) by reflexivity.
  assert (H3 : In "y" (requested (Py.lower "B[y]")))
    by (left; reflexivity).
  split; [repeat split; assumption|].
  pose proof (pending_extras_accumulate "d" "B[y]"
                (mk_state [("b", ["x"])] [("b", ["a"])]) "b" "x" "y") as H.
  split.
  - exact (proj1 H H1).
  - exact (proj1 (proj2 H) H2 H3).
Defined.

(** C4, as stated, fails: with A requiring B[x] and then D requiring B[y]
    before b is drained, the extra x of the earlier request is expanded
    all the same, and C, listed under x, is in the index. *)
Lemma earlier_extras_are_expanded :
  get_packages_required_by 1 [Scenario.A; Scenario.D; Scenario.B_two]
  = Some [("b", ["a"; "d"]); ("c", ["b"]); ("e", ["b"])]
  /\ Dict.get "b" (extras (scan [Scenario.A; Scenario.D; Scenario.B_two]))
     <> Some ["y"]
  /\ ~ (forall R,
          get_packages_required_by 1
            [Scenario.A; Scenario.D; Scenario.B_two] = Some R ->
          Dict.get "c" R = None).
Proof.
  split; [reflexivity|]. split; [vm_compute; discriminate|].
  intros H. specialize (H _ eq_refl). vm_compute in H. discriminate.
Qed.

(** C5.  A requirement whose name ends in an opening parenthesis makes
    both parsers raise [re.error], and a name declared twice in a
    requires.txt file, first without conditions, makes
    [process_requires_file] raise [TypeError]. *)
Theorem parsers_raise :
  parse_metadata "foo-1.0.dist-info" "user"
    ["Name: foo"; "Requires-Dist: bar(>=1.0)"] = Raise ReError
  /\ process_requires_file ["bar(>=1.0)"] [] [] = Raise ReError
  /\ process_requires_file ["pkgA"; "pkgA>=1.0"] [] [] = Raise TypeError.
Proof. repeat split; reflexivity. Qed.

(** C6.  On the lines pkgA, [extra1], pkgB>=2.0, [], pkgC the
    requires.txt parser files pkgA and pkgC under requires (the empty
    header resets the filing) and pkgB under extra1 with >=2.0, but what
    it stores for pkgA and pkgC is an empty dict, not an empty str. *)
Theorem legacy_scenario :
  process_requires_file ["pkgA"; "[extra1]"; "pkgB>=2.0"; "[]"; "pkgC"] [] []
  = Ok ([("pkgA", EmptyDict); ("pkgC", EmptyDict)],
        [("extra1", [("pkgB", Str ">=2.0")])])
  /\ EmptyDict <> Str "".
Proof. split; [reflexivity | discriminate]. Qed.

(** C7.  For every package list, every package P of it and every
    dependency D among the keys of its requires: the lowercased name of P
    is in the index under the key of D from the end of the first loop on,
    after every turn of the second loop, and so in the index that is
    returned; every key and every member of that index is in lowercase.
    The key of D is D in lowercase without its bracketed extras: for a D
    without newline it is the lowercased text before the first opening
    bracket, so  name[rest]  is indexed under  name  and B[x] under b.
    When no dependency listed under an extra requests extras itself, the
    index is returned after one turn per pending name; an index is also
    returned for the chain in which the extra x of B pulls in C[y] and the
    extra y of C pulls in D. *)
Theorem requirers_recorded packages p dependency :
  In p packages ->
  In dependency (Dict.keys (pkg_requires p)) ->
  (forall n,
      holds (required_by (after_turns n packages (scan packages)))
            (index_key dependency) (Py.lower (pkg_name p)))
  /\ (forall fuel R,
        get_packages_required_by fuel packages = Some R ->
        holds R (index_key dependency) (Py.lower (pkg_name p))
        /\ normal R)
  /\ (Py.has_char "[" (Py.lower dependency) = false ->
      index_key dependency = Py.lower dependency)
  /\ lowered (index_key dependency)
  /\ lowered (Py.lower (pkg_name p))
  /\ (forallb flat packages = true ->
      exists R,
        get_packages_required_by (length (extras (scan packages))) packages
        = Some R)
  /\ (Plain.no_newline dependency ->
      index_key dependency = without_extras (Py.lower dependency))
  /\ (forall name rest,
        Plain.no_newline dependency ->
        Py.lower dependency = (name ++ "[" ++ rest)%string ->
        Py.has_char "[" name = false ->
        index_key dependency = name)
  /\ index_key "B[x]" = "b"
  /\ Py.lower "ABCDEFGHIJKLMNOPQRSTUVWXYZ-_.09az"
     = "abcdefghijklmnopqrstuvwxyz-_.09az"
  /\ get_packages_required_by 1 [Scenario.A; Scenario.B]
     = Some [("b", ["a"]); ("c", ["b"])]
  /\ get_packages_required_by 2
       [Scenario.A; Scenario.B_cyclic; Scenario.C_chain]
     = Some [("b", ["a"]); ("c", ["b"]); ("d", ["c"])].
Proof.
  intros I D.
  assert (H : forall n,
             holds (required_by (after_turns n packages (scan packages)))
                   (index_key dependency) (Py.lower (pkg_name p))).
  { intros n. apply after_turns_mono. now apply scan_records. }
  split; [exact H|].
  split; [|split; [|split; [|split; [|split; [|split; [|split]]]]]].
  - intros fuel R E. unfold get_packages_required_by in E.
    apply drain_after_turns in E. destruct E as [n ->]. split.
    + apply H.
    + apply normal_after_turns, normal_scan.
  - intros B. unfold index_key, bare. now rewrite B.
  - apply index_key_lowered.
  - apply lower_lowered.
  - apply get_packages_required_by_flat.
  - apply index_key_plain.
  - intros name rest N E B. rewrite (index_key_plain _ N), E.
    now apply without_extras_bracket.
  - repeat split; reflexivity.
Qed.

Lemma requirers_recorded_witness :
  (In Scenario.A [Scenario.A; Scenario.B]
   /\ In "B[x]" (Dict.keys (pkg_requires Scenario.A)))
  /\ holds [("b", ["a"]); ("c", ["b"])] "b" "a"
  /\ normal [("b", ["a"]); ("c", ["b"])].
Proof.
  assert (H1 : In Scenario.A [Scenario.A; Scenario.B])
    by (left; reflexivity).
  assert (H2 : In "B[x]" (Dict.keys (pkg_requires Scenario.A)))
    by (left; reflexivity).
  split; [split; assumption|].
  exact (proj1 (proj2 (requirers_recorded [Scenario.A; Scenario.B]
                         Scenario.A "B[x]" H1 H2))
           1 [("b", ["a"]); ("c", ["b"])] eq_refl).
Defined.

(** C8.  Two successive Requires-Dist lines that declare the same
    dependency, not yet in requires, with the conditions a and then b
    (b not empty, neither line naming an extra) leave one entry for that
    dependency in requires, whose conditions are a;b.  So the lines
    Requires-Dist: dep a  and  Requires-Dist: dep b  give dep the
    conditions a;b. *)
Theorem merge_law p line1 line2 dependency a b :
  Py.startswith "Requires-Dist: " (Py.strip line1) = true ->
  Py.startswith "Requires-Dist: " (Py.strip line2) = true ->
  requirement Pat.after_name
    (Re.sub (Pat.field "Requires-Dist: ") "" (Py.strip line1))
  = Ok (dependency, a) ->
  requirement Pat.after_name
    (Re.sub (Pat.field "Requires-Dist: ") "" (Py.strip line2))
  = Ok (dependency, b) ->
  Py.contains "extra == "
    (Re.sub (Pat.field "Requires-Dist: ") "" (Py.strip line1)) = false ->
  Py.contains "extra == "
    (Re.sub (Pat.field "Requires-Dist: ") "" (Py.strip line2)) = false ->
  Dict.get dependency (pkg_requires p) = None ->
  Py.truthy b = true ->
  (exists p',
      metadata_lines [line1; line2] p = Ok p'
      /\ entries dependency (pkg_requires p')
         = [(dependency, Str (a ++ ";" ++ b)%string)]
      /\ Dict.get dependency (pkg_requires p')
         = Some (Str (a ++ ";" ++ b)%string))
  /\ parse_metadata "foo-1.0.dist-info" "user"
       ["Name: foo"; "Requires-Dist: dep a"; "Requires-Dist: dep b"]
     = Ok (mk_package "foo-1.0.dist-info" "user" "foo" "" ""
             [("dep", Str "a;b")] []).
Proof.
  intros S1 S2 R1 R2 C1 C2 G T. split; [|reflexivity].
  destruct (declare_twice dependency a b (pkg_requires p) G T)
    as [d' [E [G' N']]].
  cbn [metadata_lines].
  rewrite (metadata_line_requires_dist line1 p S1).
  rewrite (requires_dist_plain _ p dependency a R1 C1).
  destruct (declare dependency a (pkg_requires p)) as [d1| |] eqn:D1;
    cbn [bind] in *; try discriminate.
  cbn [fst snd].
  rewrite (metadata_line_requires_dist line2 _ S2).
  rewrite (requires_dist_plain _ _ dependency b R2 C2).
  cbn [pkg_requires]. rewrite E. cbn [bind fst snd].
  eexists. split; [reflexivity|]. cbn [pkg_requires]. auto.
Qed.

Lemma merge_law_witness :
  (Py.startswith "Requires-Dist: " (Py.strip "Requires-Dist: dep >=1.0")
   = true
   /\ Py.startswith "Requires-Dist: " (Py.strip "Requires-Dist: dep <2.0")
      = true
   /\ requirement Pat.after_name
        (Re.sub (Pat.field "Requires-Dist: ") ""
           (Py.strip "Requires-Dist: dep >=1.0"))
      = Ok ("dep", ">=1.0")
   /\ requirement Pat.after_name
        (Re.sub (Pat.field "Requires-Dist: ") ""
           (Py.strip "Requires-Dist: dep <2.0"))
      = Ok ("dep", "<2.0")
   /\ Py.contains "extra == "
        (Re.sub (Pat.field "Requires-Dist: ") ""
           (Py.strip "Requires-Dist: dep >=1.0"))
      = false
   /\ Py.contains "extra == "
        (Re.sub (Pat.field "Requires-Dist: ") ""
           (Py.strip "Requires-Dist: dep <2.0"))
      = false
   /\ Dict.get "dep" (pkg_requires Scenario.A) = None
   /\ Py.truthy "<2.0" = true)
  /\ exists p',
      metadata_lines ["Requires-Dist: dep >=1.0"; "Requires-Dist: dep <2.0"]
        Scenario.A = Ok p'
      /\ entries "dep" (pkg_requires p') = [("dep", Str ">=1.0;<2.0")]
      /\ Dict.get "dep" (pkg_requires p') = Some (Str ">=1.0;<2.0").
Proof.
  split; [repeat split; reflexivity|].
  exact (proj1 (merge_law Scenario.A "Requires-Dist: dep >=1.0"
                  "Requires-Dist: dep <2.0" "dep" ">=1.0" "<2.0"
                  eq_refl eq_refl eq_refl eq_refl eq_refl eq_refl
                  eq_refl eq_refl)).
Defined.

(** C9.  The metadata record parser stops at the first blank line: the
    lines after it change nothing.  So the lines  Name: foo , a blank
    line,  Requires-Dist: bar  give a package named foo whose requires is
    empty. *)
Theorem blank_line_ends_scan package_dir directory_type pre blank post :
  Py.strip blank = "" ->
  parse_metadata package_dir directory_type (pre ++ blank :: post)
  = parse_metadata package_dir directory_type pre
  /\ parse_metadata "foo-1.0.dist-info" "user"
       ["Name: foo"; ""; "Requires-Dist: bar"]
     = Ok (mk_package "foo-1.0.dist-info" "user" "foo" "" "" [] []).
Proof.
  intros E. split; [|reflexivity].
  unfold parse_metadata. now apply metadata_lines_blank.
Qed.

Lemma blank_line_ends_scan_witness :
  Py.strip "   " = ""
  /\ parse_metadata "d" "user"
       (["Name: foo"; "Requires-Dist: baz"] ++ "   " :: ["Requires-Dist: bar"])
     = parse_metadata "d" "user" ["Name: foo"; "Requires-Dist: baz"].
Proof.
  split; [reflexivity|].
  exact (proj1 (blank_line_ends_scan "d" "user"
                  ["Name: foo"; "Requires-Dist: baz"] "   "
                  ["Requires-Dist: bar"] eq_refl)).
Defined.

(** C10.  A package whose requires holds its own name, in any case and
    with or without bracketed extras after it (the lowercased dependency,
    cut before its first opening bracket, is the lowercased name), is
    indexed under its own name: its lowercased name is among the keys of
    the index from the end of the first loop on, so in any index returned,
    and [is_package_required] answers true for it.  An index is returned
    when no dependency listed under an extra requests extras itself.  A
    package that requires itself, as  selfish  or as  SELFISH[Extra,more],
    and that nothing else requires is classified as required. *)
Theorem self_requirement_counts packages p dependency :
  In p packages ->
  In dependency (Dict.keys (pkg_requires p)) ->
  Plain.no_newline dependency ->
  without_extras (Py.lower dependency) = Py.lower (pkg_name p) ->
  index_key dependency = Py.lower (pkg_name p)
  /\ (forall n,
        is_package_required p
          (required_by (after_turns n packages (scan packages))) = true)
  /\ (forall fuel R,
        get_packages_required_by fuel packages = Some R ->
        In (Py.lower (pkg_name p)) (Dict.keys R)
        /\ is_package_required p R = true)
  /\ (forallb flat packages = true ->
      exists R,
        get_packages_required_by (length (extras (scan packages))) packages
        = Some R
        /\ In (Py.lower (pkg_name p)) (Dict.keys R)
        /\ is_package_required p R = true)
  /\ get_packages_required_by 0 [Scenario.Selfish]
     = Some [("selfish", ["selfish"])]
  /\ is_package_required Scenario.Selfish [("selfish", ["selfish"])] = true
  /\ get_packages_required_by 1 [Scenario.Selfish_extra]
     = Some [("selfish", ["selfish"])]
  /\ is_package_required Scenario.Selfish_extra [("selfish", ["selfish"])]
     = true.
Proof.
  intros I D N W.
  assert (K : index_key dependency = Py.lower (pkg_name p))
    by (now rewrite index_key_plain).
  assert (H : forall n,
             holds (required_by (after_turns n packages (scan packages)))
                   (Py.lower (pkg_name p)) (Py.lower (pkg_name p))).
  { intros n. rewrite <- K at 1. apply after_turns_mono.
    now apply scan_records. }
  assert (G : forall fuel R,
             get_packages_required_by fuel packages = Some R ->
             In (Py.lower (pkg_name p)) (Dict.keys R)
             /\ is_package_required p R = true).
  { intros fuel R E. unfold get_packages_required_by in E.
    apply drain_after_turns in E. destruct E as [n ->].
    specialize (H n). split.
    - destruct H as [l [G _]]. apply get_in in G.
      unfold Dict.keys. apply in_map_iff.
      now exists (Py.lower (pkg_name p), l).
    - unfold is_package_required. eapply holds_mem, H. }
  split; [exact K|]. split; [|split; [exact G|split]].
  - intros n. unfold is_package_required. eapply holds_mem, H.
  - intros F. destruct (get_packages_required_by_flat packages F) as [R E].
    exists R. split; [exact E|]. exact (G _ R E).
  - repeat split; reflexivity.
Qed.

Lemma self_requirement_counts_witness :
  (In Scenario.Selfish_extra [Scenario.Selfish_extra; Scenario.A]
   /\ In "SELFISH[Extra,more]"
        (Dict.keys (pkg_requires Scenario.Selfish_extra))
   /\ Plain.no_newline "SELFISH[Extra,more]"
   /\ without_extras (Py.lower "SELFISH[Extra,more]")
      = Py.lower (pkg_name Scenario.Selfish_extra))
  /\ In (Py.lower (pkg_name Scenario.Selfish_extra))
        (Dict.keys [("selfish", ["selfish"]); ("b", ["a"])])
  /\ is_package_required Scenario.Selfish_extra
       [("selfish", ["selfish"]); ("b", ["a"])] = true.
Proof.
  assert (H1 : In Scenario.Selfish_extra [Scenario.Selfish_extra; Scenario.A])
    by (left; reflexivity).
  assert (H2 : In "SELFISH[Extra,more]"
                 (Dict.keys (pkg_requires Scenario.Selfish_extra)))
    by (left; reflexivity).
  assert (H3 : Plain.no_newline "SELFISH[Extra,more]") by reflexivity.
  assert (H4 : without_extras (Py.lower "SELFISH[Extra,more]")
               = Py.lower (pkg_name Scenario.Selfish_extra))
    by reflexivity.
  split; [repeat split; assumption|].
  exact (proj1 (proj2 (proj2 (self_requirement_counts
                                [Scenario.Selfish_extra; Scenario.A]
                                Scenario.Selfish_extra
                                "SELFISH[Extra,more]" H1 H2 H3 H4)))
           2 [("selfish", ["selfish"]); ("b", ["a"])] eq_refl).
Defined.

(* ================================================================== *)
(** * Further properties of the parsers *)

Lemma result_bind_ok {A B : Type} (m : result A) (f : A -> result B) b :
  bind m f = Ok b -> exists a, m = Ok a /\ f a = Ok b.
Proof. destruct m; cbn [bind]; intros H; try discriminate. eauto. Qed.

(** ** Lines the metadata parser passes over *)

Lemma metadata_line_passed line p :
  Py.truthy (Py.strip line) = true ->
  Py.startswith "Name: " (Py.strip line) = false ->
  Py.startswith "Version: " (Py.strip line) = false ->
  Py.startswith "Summary: " (Py.strip line) = false ->
  Py.startswith "Requires-Dist: " (Py.strip line) = false ->
  metadata_line line p = Ok (Next, p).
Proof.
  intros T N V S R. unfold metadata_line. cbv zeta.
  rewrite N, V, S, R, T. cbn [negb].
  destruct (Py.startswith "Metadata-Version: " (Py.strip line)); auto.
  destruct (existsb (fun key => Py.startswith key (Py.strip line))
              passed_over); auto.
Qed.

Lemma metadata_lines_skip line post : 
  (forall p, metadata_line line p = Ok (Next, p)) ->
  forall pre p,
    metadata_lines (pre ++ line :: post) p = metadata_lines (pre ++ post) p.
Proof.
  intros S. induction pre as [|l pre IH]; intros p.
  - cbn [app metadata_lines]. rewrite S. reflexivity.
  - cbn [app metadata_lines].
    destruct (metadata_line l p) as [[f p']| |]; cbn [bind]; auto.
    cbn [fst snd]. destruct f; auto.
Qed.

(** X1 (metadata parser, lines 150-234).  A line that is not blank after
    strip() and does not start with one of the fields Name, Version,
    Summary and Requires-Dist changes nothing: the file parsed with the
    line gives what the file without it gives.  This covers
    Metadata-Version, the seventeen fields that are passed over and the
    unknown fields that are only logged. *)
Theorem unknown_lines_are_skipped package_dir directory_type pre line post :
  Py.truthy (Py.strip line) = true ->
  Py.startswith "Name: " (Py.strip line) = false ->
  Py.startswith "Version: " (Py.strip line) = false ->
  Py.startswith "Summary: " (Py.strip line) = false ->
  Py.startswith "Requires-Dist: " (Py.strip line) = false ->
  parse_metadata package_dir directory_type (pre ++ line :: post)
  = parse_metadata package_dir directory_type (pre ++ post).
Proof.
  intros T N V S R. unfold parse_metadata. apply metadata_lines_skip.
  intros p. now apply metadata_line_passed.
Qed.

Lemma unknown_lines_are_skipped_witness :
  (Py.truthy (Py.strip "X-Whatever: (1") = true
   /\ Py.startswith "Name: " (Py.strip "X-Whatever: (1") = false
   /\ Py.startswith "Version: " (Py.strip "X-Whatever: (1") = false
   /\ Py.startswith "Summary: " (Py.strip "X-Whatever: (1") = false
   /\ Py.startswith "Requires-Dist: " (Py.strip "X-Whatever: (1") = false)
  /\ parse_metadata "d" "user"
       (["Name: foo"] ++ "X-Whatever: (1" :: ["Requires-Dist: bar"])
     = parse_metadata "d" "user" (["Name: foo"] ++ ["Requires-Dist: bar"]).
Proof.
  split; [repeat split; reflexivity|].
  exact (unknown_lines_are_skipped "d" "user" ["Name: foo"] "X-Whatever: (1"
           ["Requires-Dist: bar"] eq_refl eq_refl eq_refl eq_refl eq_refl).
Defined.

(** ** Requirements with and without an extra marker *)

Lemma requires_dist_marked line p p' :
  requires_dist line p = Ok p' ->
  Py.contains "extra == " (Re.sub (Pat.field "Requires-Dist: ") "" line)
  = true ->
  pkg_requires p' = pkg_requires p.
Proof.
  unfold requires_dist. cbv zeta. intros H C.
  apply result_bind_ok in H. destruct H as [[dependency conditions] [_ H]].
  rewrite C in H.
  apply result_bind_ok in H. destruct H as [st [_ H]].
  now injection H as <-.
Qed.

Lemma requires_dist_unmarked line p p' :
  requires_dist line p = Ok p' ->
  Py.contains "extra == " (Re.sub (Pat.field "Requires-Dist: ") "" line)
  = false ->
  pkg_extras p' = pkg_extras p.
Proof.
  unfold requires_dist. cbv zeta. intros H C.
  apply result_bind_ok in H. destruct H as [[dependency conditions] [_ H]].
  rewrite C in H.
  apply result_bind_ok in H. destruct H as [st [_ H]].
  now injection H as <-.
Qed.

Lemma metadata_line_cases line p f p' :
  metadata_line line p = Ok (f, p') ->
  (pkg_requires p' = pkg_requires p /\ pkg_extras p' = pkg_extras p)
  \/ (Py.startswith "Requires-Dist: " (Py.strip line) = true
      /\ requires_dist (Py.strip line) p = Ok p').
Proof.
  unfold metadata_line. cbv zeta.
  destruct (Py.startswith "Metadata-Version: " (Py.strip line));
    [intros [= <- <-]; now left|].
  destruct (Py.startswith "Name: " (Py.strip line));
    [intros [= <- <-]; now left|].
  destruct (Py.startswith "Version: " (Py.strip line));
    [intros [= <- <-]; now left|].
  destruct (Py.startswith "Summary: " (Py.strip line));
    [intros [= <- <-]; now left|].
  destruct (Py.startswith "Requires-Dist: " (Py.strip line)).
  - intros H. apply result_bind_ok in H. destruct H as [q [H E]].
    injection E as <- <-. now right.
  - destruct (existsb _ passed_over); [intros [= <- <-]; now left|].
    destruct (negb (Py.truthy (Py.strip line)));
      intros [= <- <-]; now left.
Qed.

(** X2 (metadata parser, lines 163-196).  A line that is read changes
    one of the two mappings at most: when the text after Requires-Dist
    contains the marker  extra ==  the requires of the package stay as they
    were (the requirement goes under extras), and when it does not the
    extras stay as they were. *)
Theorem marker_decides_the_mapping line p f p' :
  metadata_line line p = Ok (f, p') ->
  (Py.contains "extra == "
     (Re.sub (Pat.field "Requires-Dist: ") "" (Py.strip line)) = true ->
   pkg_requires p' = pkg_requires p)
  /\ (Py.contains "extra == "
        (Re.sub (Pat.field "Requires-Dist: ") "" (Py.strip line)) = false ->
      pkg_extras p' = pkg_extras p).
Proof.
  intros H. destruct (metadata_line_cases _ _ _ _ H) as [[R E] | [S D]].
  - auto.
  - split; intros C.
    + eapply requires_dist_marked; eauto.
    + eapply requires_dist_unmarked; eauto.
Qed.

Lemma marker_decides_the_mapping_witness :
  metadata_line "Requires-Dist: bar>=1; extra == 'x'"
    (mk_package "d" "user" "foo" "" "" [] [])
  = Ok (Next, mk_package "d" "user" "foo" "" "" []
                [("x", [("bar", Str ">=1")])])
  /\ pkg_requires (mk_package "d" "user" "foo" "" "" []
                     [("x", [("bar", Str ">=1")])])
     = pkg_requires (mk_package "d" "user" "foo" "" "" [] []).
Proof.
  assert (H : metadata_line "Requires-Dist: bar>=1; extra == 'x'"
                (mk_package "d" "user" "foo" "" "" [] [])
              = Ok (Next, mk_package "d" "user" "foo" "" "" []
                            [("x", [("bar", Str ">=1")])]))
    by (vm_compute; reflexivity).
  split; [exact H|].
  exact (proj1 (marker_decides_the_mapping _ _ _ _ H) eq_refl).
Defined.

(** ** What the parsers can raise *)

Lemma all_chars_app P a b :
  Re.all_chars P a = true -> Re.all_chars P b = true ->
  Re.all_chars P (a ++ b)%string = true.
Proof.
  intros A B. induction a as [|c a IH]; cbn [String.append Re.all_chars] in *;
    auto.
  apply andb_true_iff in A. destruct A as [Ac Aa].
  now rewrite Ac, IH.
Qed.

Lemma split_go_keeps_chars P sep : forall s skip cur,
  Re.all_chars P cur = true -> Re.all_chars P s = true ->
  Forall (fun x => Re.all_chars P x = true) (Py.split_go sep skip cur s).
Proof.
  induction s as [|c s IH]; intros skip cur C S; cbn [Py.split_go].
  - now constructor.
  - cbn [Re.all_chars] in S. apply andb_true_iff in S. destruct S as [Sc Ss].
    destruct skip as [|n]; [|now apply IH].
    destruct (String.prefix sep (String c s)).
    + constructor; auto.
    + apply IH; auto. apply all_chars_app; auto.
      cbn [Re.all_chars]. now rewrite Sc.
Qed.

Lemma result_bind_raise {A B : Type} (m : result A) (f : A -> result B) e :
  bind m f = Raise e ->
  m = Raise e \/ exists a, m = Ok a /\ f a = Raise e.
Proof.
  destruct m; cbn [bind]; intros H; try discriminate.
  - right. eauto.
  - left. congruence.
Qed.

Lemma interpolate_raise s e : Re.interpolate s = Raise e -> e = ReError.
Proof.
  unfold Re.interpolate. destruct (Re.all_chars Re.plain s); [discriminate|].
  destruct (Re.all_chars Re.plain_or_open s); [|discriminate].
  now intros [= <-].
Qed.

Lemma requirement_raise after line e :
  requirement after line = Raise e -> e = ReError.
Proof.
  unfold requirement. cbv zeta.
  destruct (Py.has_char "[" (Re.sub after "" line)); [discriminate|].
  intros H. apply result_bind_raise in H.
  destruct H as [H | [a [_ H]]]; [|discriminate].
  now apply interpolate_raise in H.
Qed.









(** *** Lines without regular expression syntax *)
















(** ** The requires.txt parser *)

Lemma requires_line_blank blank st :
  Py.strip blank = "" -> requires_line blank st = Ok st.
Proof. intros E. unfold requires_line. now rewrite E. Qed.

Lemma requires_lines_blank blank post : Py.strip blank = "" ->
  forall pre st,
    requires_lines (pre ++ blank :: post) st = requires_lines (pre ++ post) st.
Proof.
  intros E. induction pre as [|l pre IH]; intros st.
  - cbn [app requires_lines]. now rewrite requires_line_blank.
  - cbn [app requires_lines].
    destruct (requires_line l st); cbn [bind]; auto.
Qed.

(** X4 (process_requires_file, lines 55-57).  A line of requires.txt
    that is blank after strip() is skipped: the file with the line gives
    what the file without it gives, whatever comes before and after; the
    current extra section is not closed by it. *)
Theorem blank_lines_are_skipped pre blank post requires extras :
  Py.strip blank = "" ->
  process_requires_file (pre ++ blank :: post) requires extras
  = process_requires_file (pre ++ post) requires extras.
Proof.
  intros E. unfold process_requires_file.
  now rewrite requires_lines_blank.
Qed.

Lemma blank_lines_are_skipped_witness :
  Py.strip "  " = ""
  /\ process_requires_file (["pkgA"] ++ "  " :: ["[x]"; "pkgB"]) [] []
     = process_requires_file (["pkgA"] ++ ["[x]"; "pkgB"]) [] [].
Proof.
  split; [reflexivity|].
  exact (blank_lines_are_skipped ["pkgA"] "  " ["[x]"; "pkgB"] [] []
           eq_refl).
Defined.

(** *** No KeyError *)

Lemma mem_set_same {V : Type} k (v : V) d : Dict.mem k (Dict.set k v d) = true.
Proof. unfold Dict.mem. now rewrite get_set_same. Qed.

Lemma iadd_raise v s e : iadd v s = Raise e -> e = TypeError.
Proof. destruct v; cbn; [discriminate | now intros [= <-]]. Qed.

Lemma declare_legacy_raise dependency conditions extra_conditions d e :
  declare_legacy dependency conditions extra_conditions d = Raise e ->
  e = TypeError.
Proof.
  unfold declare_legacy. cbv zeta.
  destruct (Dict.get dependency d) as [v|]; intros H.
  - apply result_bind_raise in H. destruct H as [H | [v1 [H1 H]]].
    + destruct (Py.truthy conditions); [|discriminate].
      now apply iadd_raise in H.
    + apply result_bind_raise in H. destruct H as [H | [v2 [_ H]]];
        [|discriminate].
      destruct (Py.truthy extra_conditions); [|discriminate].
      now apply iadd_raise in H.
  - apply result_bind_raise in H. destruct H as [H | [v2 [_ H]]];
      [|discriminate].
    destruct (Py.truthy extra_conditions); [|discriminate].
    destruct (value_truthy _); [|discriminate].
    now apply iadd_raise in H.
Qed.

Lemma requires_line_known line st :
  extra_known st ->
  requires_line line st <> Raise KeyError
  /\ (forall st', requires_line line st = Ok st' -> extra_known st').
Proof.
  intros K. unfold requires_line. cbv zeta.
  destruct (Py.truthy (Py.strip line));
    [|split; [discriminate | now intros st' [= <-]]].
  destruct (Py.first_is "[" (Py.strip line)).
  - split; [discriminate|]. intros st' [= <-]. unfold extra_known.
    cbn [cur_extra cur_extras]. intros T. rewrite T. cbn [andb].
    destruct (Dict.mem _ (cur_extras st)) eqn:M; cbn [negb]; auto.
    apply mem_set_same.
  - destruct (requirement Pat.after_name_eol (Py.strip line))
      as [[dependency conditions]| e0 |] eqn:Q; cbn [bind].
    2:{ apply requirement_raise in Q. subst e0.
        split; [discriminate | discriminate]. }
    2:{ split; discriminate. }
    destruct (Py.truthy (cur_extra st)) eqn:T.
    + specialize (K T). unfold Dict.mem in K.
      destruct (Dict.get (cur_extra st) (cur_extras st)) as [group|];
        [|discriminate].
      destruct (declare_legacy dependency conditions
                  (cur_extra_conditions st) group) as [g'| e0 |] eqn:D;
        cbn [bind].
      * split; [discriminate|]. intros st' [= <-]. unfold extra_known.
        cbn [cur_extra cur_extras]. intros _. apply mem_set_same.
      * split; [|discriminate]. intros [= ->].
        apply declare_legacy_raise in D. discriminate.
      * split; discriminate.
    + destruct (declare_legacy dependency conditions
                  (cur_extra_conditions st) (cur_requires st))
        as [r'| e0 |] eqn:D; cbn [bind].
      * split; [discriminate|]. intros st' [= <-]. unfold extra_known.
        cbn [cur_extra cur_extras]. rewrite T. discriminate.
      * split; [|discriminate]. intros [= ->].
        apply declare_legacy_raise in D. discriminate.
      * split; discriminate.
Qed.

Lemma requires_lines_known lines : forall st,
  extra_known st -> requires_lines lines st <> Raise KeyError.
Proof.
  induction lines as [|l rest IH]; intros st K; cbn [requires_lines].
  - discriminate.
  - destruct (requires_line_known l st K) as [N O].
    destruct (requires_line l st) as [st'| e0 |]; cbn [bind].
    + apply IH. now apply O.
    + exact N.
    + discriminate.
Qed.

(** X5 (process_requires_file, lines 70-94).  The subscripts
    extras[extra] never fail: whatever the lines and the dicts handed in,
    process_requires_file does not raise KeyError, because an extra that
    becomes current has been given an entry first. *)
Theorem current_extra_is_always_there lines requires extras :
  process_requires_file lines requires extras <> Raise KeyError.
Proof.
  unfold process_requires_file.
  pose proof (requires_lines_known lines
                (mk_requires_state "" "" requires extras)) as N.
  destruct (requires_lines lines _) as [st| e0 |]; cbn [bind];
    try discriminate.
  intros [= ->]. apply N; [|reflexivity].
  unfold extra_known. cbn. discriminate.
Qed.

(** *** Merging keeps what was there *)

Lemma extends_refl l : extends l l.
Proof. exists []. now rewrite app_nil_r. Qed.

Lemma extends_trans a b c : extends a b -> extends b c -> extends a c.
Proof.
  intros [m1 ->] [m2 ->]. exists (m1 ++ m2). now rewrite app_assoc.
Qed.

Lemma keys_set_extends {V : Type} k (v : V) d :
  extends (Dict.keys d) (Dict.keys (Dict.set k v d)).
Proof.
  induction d as [|[k0 v0] r [more IH]]; simpl.
  - now exists [k].
  - destruct (String.eqb k0 k); simpl.
    + apply extends_refl.
    + exists more. now rewrite IH.
Qed.

Lemma declare_legacy_extends dependency conditions extra_conditions d d' :
  declare_legacy dependency conditions extra_conditions d = Ok d' ->
  extends (Dict.keys d) (Dict.keys d').
Proof.
  unfold declare_legacy.
  destruct (Dict.get dependency d) as [v|]; intros H.
  - apply result_bind_ok in H. destruct H as [v1 [_ H]].
    apply result_bind_ok in H. destruct H as [v2 [_ H]].
    injection H as <-. apply keys_set_extends.
  - apply result_bind_ok in H. destruct H as [v2 [_ H]].
    injection H as <-. apply keys_set_extends.
Qed.

Lemma groups_extend_refl e : groups_extend e e.
Proof. intros x g G. exists g. split; auto. apply extends_refl. Qed.

Lemma groups_extend_trans a b c :
  groups_extend a b -> groups_extend b c -> groups_extend a c.
Proof.
  intros A B x g G. destruct (A _ _ G) as [g1 [G1 E1]].
  destruct (B _ _ G1) as [g2 [G2 E2]]. exists g2. split; auto.
  eapply extends_trans; eauto.
Qed.

Lemma groups_extend_set x g g' e :
  Dict.get x e = Some g ->
  extends (Dict.keys g) (Dict.keys g') ->
  groups_extend e (Dict.set x g' e).
Proof.
  intros G E y h H. destruct (String.eqb x y) eqn:Q.
  - apply String.eqb_eq in Q. subst y. rewrite get_set_same.
    pose proof (eq_trans (eq_sym H) G) as Same. injection Same as ->.
    exists g'. split; auto.
  - apply String.eqb_neq in Q. rewrite get_set_other by auto.
    exists h. split; auto. apply extends_refl.
Qed.

Lemma groups_extend_new x e :
  Dict.mem x e = false -> groups_extend e (Dict.set x [] e).
Proof.
  intros M y h H. destruct (String.eqb x y) eqn:Q.
  - apply String.eqb_eq in Q. subst y. unfold Dict.mem in M.
    rewrite H in M. discriminate.
  - apply String.eqb_neq in Q. rewrite get_set_other by auto.
    exists h. split; auto. apply extends_refl.
Qed.

Lemma merged_refl st : merged st st.
Proof.
  repeat split; try apply extends_refl. apply groups_extend_refl.
Qed.

Lemma merged_trans a b c : merged a b -> merged b c -> merged a c.
Proof.
  intros [A1 [A2 A3]] [B1 [B2 B3]]. repeat split.
  - eapply extends_trans; eauto.
  - eapply extends_trans; eauto.
  - eapply groups_extend_trans; eauto.
Qed.

Lemma requires_line_merged line st st' :
  requires_line line st = Ok st' -> merged st st'.
Proof.
  unfold requires_line. cbv zeta.
  destruct (Py.truthy (Py.strip line));
    [|intros [= <-]; apply merged_refl].
  destruct (Py.first_is "[" (Py.strip line)).
  - intros [= <-]. unfold merged. cbn [cur_requires cur_extras].
    split; [apply extends_refl|].
    destruct (Py.truthy _ && negb (Dict.mem _ (cur_extras st))) eqn:C.
    + split; [apply keys_set_extends|]. apply groups_extend_new.
      apply andb_true_iff in C. destruct C as [_ C].
      now apply negb_true_iff in C.
    + split; [apply extends_refl | apply groups_extend_refl].
  - intros H. apply result_bind_ok in H.
    destruct H as [[dependency conditions] [_ H]].
    destruct (Py.truthy (cur_extra st)).
    + destruct (Dict.get (cur_extra st) (cur_extras st)) as [group|] eqn:G;
        [|discriminate].
      apply result_bind_ok in H. destruct H as [g' [D H]].
      injection H as <-. unfold merged. cbn [cur_requires cur_extras].
      split; [apply extends_refl|].
      split; [apply keys_set_extends|].
      eapply groups_extend_set; eauto.
      eapply declare_legacy_extends; eauto.
    + apply result_bind_ok in H. destruct H as [r' [D H]].
      injection H as <-. unfold merged. cbn [cur_requires cur_extras].
      split; [eapply declare_legacy_extends; eauto|].
      split; [apply extends_refl | apply groups_extend_refl].
Qed.

Lemma requires_lines_merged lines : forall st st',
  requires_lines lines st = Ok st' -> merged st st'.
Proof.
  induction lines as [|l rest IH]; intros st st' H; cbn [requires_lines] in H.
  - injection H as <-. apply merged_refl.
  - apply result_bind_ok in H. destruct H as [st1 [H1 H2]].
    eapply merged_trans; [eapply requires_line_merged | eapply IH]; eauto.
Qed.

(** X6 (process_requires_file).  When the function returns, it has only
    added: the keys of requires and of extras it was given are still there,
    in the same order and before any new key, and so are the dependencies
    under every extra it was given. *)
Theorem requires_file_only_adds lines requires extras requires' extras' :
  process_requires_file lines requires extras = Ok (requires', extras') ->
  extends (Dict.keys requires) (Dict.keys requires')
  /\ extends (Dict.keys extras) (Dict.keys extras')
  /\ groups_extend extras extras'.
Proof.
  unfold process_requires_file. intros H.
  apply result_bind_ok in H. destruct H as [st [H E]].
  injection E as <- <-.
  exact (requires_lines_merged _ _ _ H).
Qed.

Lemma requires_file_only_adds_witness :
  process_requires_file ["new>=1"; "[test]"; "pytest"]
    [("old", Str "")] [("test", [("tox", Str "")])]
  = Ok ([("old", Str ""); ("new", Str ">=1")],
        [("test", [("tox", Str ""); ("pytest", EmptyDict)])])
  /\ extends (Dict.keys [("old", Str "")])
       (Dict.keys [("old", Str ""); ("new", Str ">=1")])
  /\ extends (Dict.keys [("test", [("tox", Str "")])])
       (Dict.keys [("test", [("tox", Str ""); ("pytest", EmptyDict)])])
  /\ groups_extend [("test", [("tox", Str "")])]
       [("test", [("tox", Str ""); ("pytest", EmptyDict)])].
Proof.
  split; [reflexivity|].
  exact (requires_file_only_adds ["new>=1"; "[test]"; "pytest"]
           [("old", Str "")] [("test", [("tox", Str "")])]
           [("old", Str ""); ("new", Str ">=1")]
           [("test", [("tox", Str ""); ("pytest", EmptyDict)])] eq_refl).
Defined.

(* ================================================================== *)
(** * Further properties of the required-by index *)

(** ** Where an entry comes from *)

Lemma holds_add_once_inv d k x k' y :
  holds (add_once k x d) k' y -> (k' = k /\ y = x) \/ holds d k' y.
Proof.
  unfold add_once. intros [l [G I]].
  destruct (String.eqb k k') eqn:E.
  - apply String.eqb_eq in E. subst k'.
    destruct (Dict.get k d) as [l0|] eqn:G0.
    + destruct (Py.mem x l0).
      * right. exists l. split; congruence.
      * rewrite get_set_same in G. injection G as <-.
        apply in_app_or in I. destruct I as [I | [<- | []]]; auto.
        right. exists l0. auto.
    + rewrite get_set_same in G. injection G as <-.
      destruct I as [<- | []]. auto.
  - apply String.eqb_neq in E. right. exists l. split; auto.
    destruct (Dict.get k d) as [l0|].
    + destruct (Py.mem x l0); auto. now rewrite get_set_other in G.
    + now rewrite get_set_other in G.
Qed.

Lemma add_dependency_inv name dependency st k x :
  holds (required_by (add_dependency name dependency st)) k x ->
  (k = index_key dependency /\ x = name) \/ holds (required_by st) k x.
Proof.
  unfold add_dependency, index_key, bare.
  destruct (Py.has_char "[" (Py.lower dependency)); cbn [required_by];
    apply holds_add_once_inv.
Qed.

Lemma add_dependencies_inv name deps : forall st k x,
  holds (required_by (add_dependencies name deps st)) k x ->
  (exists d, In d deps /\ k = index_key d /\ x = name)
  \/ holds (required_by st) k x.
Proof.
  unfold add_dependencies.
  induction deps as [|d r IH]; cbn [fold_left]; intros st k x H; auto.
  apply IH in H. destruct H as [[d' [I [K X]]] | H].
  - left. exists d'. split; [now right | auto].
  - apply add_dependency_inv in H. destruct H as [[K X] | H]; auto.
    left. exists d. split; [now left | auto].
Qed.

Lemma scan_fold_inv packages : forall st k x,
  holds (required_by (fold_left scan_package packages st)) k x ->
  (exists p, In p packages /\ x = Py.lower (pkg_name p) /\ declared_by p k)
  \/ holds (required_by st) k x.
Proof.
  induction packages as [|p r IH]; cbn [fold_left]; intros st k x H; auto.
  apply IH in H. destruct H as [[q [I [X D]]] | H].
  - left. exists q. split; [now right | auto].
  - unfold scan_package in H. apply add_dependencies_inv in H.
    destruct H as [[d [I [K X]]] | H]; auto.
    left. exists p. split; [now left|]. split; auto. now exists d.
Qed.

Lemma holds_empty k x : ~ holds [] k x.
Proof. intros [l [G _]]. discriminate. Qed.

Lemma scan_inv packages k x :
  holds (required_by (scan packages)) k x ->
  exists p, In p packages /\ x = Py.lower (pkg_name p) /\ declared_by p k.
Proof.
  intros H. apply scan_fold_inv in H. destruct H as [H | H]; auto.
  now apply holds_empty in H.
Qed.

Lemma sound_activate packages p extra st :
  In p packages -> sound packages st ->
  sound packages (activate p (Py.lower (pkg_name p)) extra st).
Proof.
  intros I S k x H. unfold activate in H.
  destruct (Dict.get extra (pkg_extras p)) as [g|] eqn:G; auto.
  apply add_dependencies_inv in H. destruct H as [[d [Id [K X]]] | H]; auto.
  exists p. split; auto. split; auto. right. now exists extra, g, d.
Qed.

Lemma sound_drain_package packages key st p :
  In p packages -> sound packages st ->
  sound packages (drain_package key st p).
Proof.
  intros I S. unfold drain_package.
  destruct (String.eqb key (Py.lower (pkg_name p))); auto.
  destruct (for_value_total p (Py.lower (pkg_name p)) key st) as [st' E].
  rewrite E.
  refine (for_value_keeps (sound packages) p _ key _ _ _ _ _ S E).
  intros e s. now apply sound_activate.
Qed.

Lemma sound_drain_packages packages key : forall ps st,
  incl ps packages -> sound packages st ->
  sound packages (fold_left (drain_package key) ps st).
Proof.
  induction ps as [|p r IH]; cbn [fold_left]; intros st I S; auto.
  apply IH.
  - intros q Hq. apply I. now right.
  - apply sound_drain_package; auto. apply I. now left.
Qed.

Lemma sound_drain_step packages st :
  sound packages st -> sound packages (drain_step packages st).
Proof.
  intros S. unfold drain_step.
  destruct (extras st) as [|[key v] rest]; auto.
  intros k x H. cbn [required_by] in H.
  eapply sound_drain_packages; eauto. apply incl_refl.
Qed.

Lemma sound_after_turns packages n : forall st,
  sound packages st -> sound packages (after_turns n packages st).
Proof.
  induction n as [|n IH]; cbn [after_turns]; intros st S; auto.
  apply IH. now apply sound_drain_step.
Qed.

Lemma sound_scan packages : sound packages (scan packages).
Proof.
  intros k x H. apply scan_inv in H. destruct H as [p [I [X D]]].
  exists p. auto.
Qed.

Lemma sound_reached packages n :
  sound packages (after_turns n packages (scan packages)).
Proof. apply sound_after_turns, sound_scan. Qed.

(** X7 (get_packages_required_by).  Every entry of a returned index has
    an origin in the list: when x is recorded under the key k, x is the
    lowercased name of a listed package that declares, in its requires or
    under one of its extras, a dependency whose key is k. *)
Theorem index_entries_have_an_origin packages fuel R k x :
  get_packages_required_by fuel packages = Some R ->
  holds R k x ->
  origin packages k x.
Proof.
  intros E. unfold get_packages_required_by in E.
  apply drain_after_turns in E. destruct E as [n ->].
  apply sound_reached.
Qed.

Lemma index_entries_have_an_origin_witness :
  (get_packages_required_by 1 [Scenario.A; Scenario.B]
   = Some [("b", ["a"]); ("c", ["b"])]
   /\ holds [("b", ["a"]); ("c", ["b"])] "c" "b")
  /\ origin [Scenario.A; Scenario.B] "c" "b".
Proof.
  assert (H1 : get_packages_required_by 1 [Scenario.A; Scenario.B]
               = Some [("b", ["a"]); ("c", ["b"])]) by reflexivity.
  assert (H2 : holds [("b", ["a"]); ("c", ["b"])] "c" "b")
    by (exists ["b"]; split; [reflexivity | left; reflexivity]).
  split; [split; assumption|].
  exact (index_entries_have_an_origin [Scenario.A; Scenario.B] 1
           [("b", ["a"]); ("c", ["b"])] "c" "b" H1 H2).
Defined.

(** ** No repetition *)

Lemma keys_set {V : Type} k (v : V) d :
  Dict.keys (Dict.set k v d)
  = if Dict.mem k d then Dict.keys d else Dict.keys d ++ [k].
Proof.
  unfold Dict.mem.
  induction d as [|[k0 v0] r IH]; simpl; auto.
  destruct (String.eqb k0 k) eqn:E; simpl; auto.
  rewrite IH. destruct (Dict.get k r); auto.
Qed.

Lemma mem_keys {V : Type} k (d : Dict.t V) :
  Dict.mem k d = false -> ~ In k (Dict.keys d).
Proof.
  unfold Dict.mem. induction d as [|[k0 v0] r IH]; simpl; [tauto|].
  destruct (String.eqb k0 k) eqn:E; [discriminate|].
  intros M [H | H]; [|now apply IH].
  subst. now rewrite String.eqb_refl in E.
Qed.

Lemma tidy_set k l d :
  tidy d -> NoDup l -> tidy (Dict.set k l d).
Proof.
  intros [K L] N. split.
  - rewrite keys_set. destruct (Dict.mem k d) eqn:M; auto.
    apply NoDup_app; auto.
    + constructor; [intros [] | constructor].
    + intros y Hy [<- | []]. now apply mem_keys in M.
  - intros k' l' H. apply in_set in H.
    destruct H as [[= -> ->] | H]; eauto.
Qed.

Lemma tidy_add_once k x d : tidy d -> tidy (add_once k x d).
Proof.
  intros T. unfold add_once.
  destruct (Dict.get k d) as [l|] eqn:G.
  - destruct (Py.mem x l) eqn:M; auto.
    apply tidy_set; auto. apply NoDup_app.
    + apply get_in in G. now apply (proj2 T) in G.
    + constructor; [intros [] | constructor].
    + intros y Hy [<- | []]. apply mem_In in Hy. congruence.
  - apply tidy_set; auto. constructor; [intros [] | constructor].
Qed.

Lemma inhabited_add_once k x d : inhabited d -> inhabited (add_once k x d).
Proof.
  intros I k' l' G. unfold add_once in G.
  destruct (String.eqb k k') eqn:E.
  - apply String.eqb_eq in E. subst k'.
    destruct (Dict.get k d) as [l|] eqn:G0.
    + destruct (Py.mem x l); [exact (I _ _ G)|].
      rewrite get_set_same in G. injection G as <-.
      now destruct l.
    + rewrite get_set_same in G. now injection G as <-.
  - apply String.eqb_neq in E.
    destruct (Dict.get k d) as [l|].
    + destruct (Py.mem x l); [now apply I in G|].
      rewrite get_set_other in G by auto. now apply I in G.
    + rewrite get_set_other in G by auto. now apply I in G.
Qed.

(** What [add_once] keeps on [required_by], every step of the
    computation keeps. *)
Section IndexInvariant.
Variable Q : Dict.t (list string) -> Prop.
Hypothesis Q_add_once : forall k x d, Q d -> Q (add_once k x d).

Lemma keeps_add_dependency name dependency st :
  Q (required_by st) -> Q (required_by (add_dependency name dependency st)).
Proof.
  intros H. unfold add_dependency.
  destruct (Py.has_char "[" (Py.lower dependency)); cbn [required_by]; auto.
Qed.

Lemma keeps_add_dependencies name deps : forall st,
  Q (required_by st) -> Q (required_by (add_dependencies name deps st)).
Proof.
  unfold add_dependencies.
  induction deps as [|d r IH]; cbn [fold_left]; intros st H; auto.
  apply IH. now apply keeps_add_dependency.
Qed.

Lemma keeps_scan packages : Q [] -> Q (required_by (scan packages)).
Proof.
  intros E. unfold scan.
  assert (H : Q (required_by (mk_state [] []))) by exact E.
  revert H. generalize (mk_state [] []).
  induction packages as [|p r IH]; cbn [fold_left]; intros st H; auto.
  apply IH. now apply keeps_add_dependencies.
Qed.

Lemma keeps_drain_package key st p :
  Q (required_by st) -> Q (required_by (drain_package key st p)).
Proof.
  intros H. unfold drain_package.
  destruct (String.eqb key (Py.lower (pkg_name p))); auto.
  destruct (for_value_total p (Py.lower (pkg_name p)) key st) as [st' E].
  rewrite E.
  refine (for_value_keeps (fun s => Q (required_by s)) p _ key _ _ _ _ _ H E).
  intros e s Hs. unfold activate.
  destruct (Dict.get e (pkg_extras p)); auto.
  now apply keeps_add_dependencies.
Qed.

Lemma keeps_drain_step packages st :
  Q (required_by st) -> Q (required_by (drain_step packages st)).
Proof.
  intros H. unfold drain_step.
  destruct (extras st) as [|[key v] rest]; auto. cbn [required_by].
  clear v rest. revert st H.
  induction packages as [|p r IH]; cbn [fold_left]; intros st H; auto.
  apply IH. now apply keeps_drain_package.
Qed.

Lemma keeps_after_turns packages n : forall st,
  Q (required_by st) -> Q (required_by (after_turns n packages st)).
Proof.
  induction n as [|n IH]; cbn [after_turns]; intros st H; auto.
  apply IH. now apply keeps_drain_step.
Qed.

Lemma keeps_returned packages fuel R :
  Q [] -> get_packages_required_by fuel packages = Some R -> Q R.
Proof.
  intros E H. unfold get_packages_required_by in H.
  apply drain_after_turns in H. destruct H as [n ->].
  now apply keeps_after_turns, keeps_scan.
Qed.

End IndexInvariant.

(** X8 (get_packages_required_by).  A returned index has no repetition:
    no key twice, no name twice in the list of a key, and no key with an
    empty list. *)
Theorem index_has_no_repetition packages fuel R :
  get_packages_required_by fuel packages = Some R ->
  NoDup (Dict.keys R)
  /\ (forall k l, In (k, l) R -> NoDup l /\ l <> []).
Proof.
  intros H.
  pose proof (keeps_returned tidy tidy_add_once packages fuel R) as T.
  pose proof (keeps_returned inhabited inhabited_add_once packages fuel R)
    as I.
  assert (T0 : tidy []) by (split; [constructor | intros k l []]).
  assert (I0 : inhabited []) by (intros k l; discriminate).
  destruct (T T0 H) as [K L]. specialize (I I0 H).
  split; auto. intros k l In_. split; [eauto|].
  apply (I k). clear - K In_.
  induction R as [|[k0 l0] r IH]; [destruct In_|].
  cbn [Dict.keys map fst] in K. inversion K as [|? ? N K']; subst.
  cbn [Dict.get]. destruct In_ as [[= -> ->] | In_].
  - now rewrite String.eqb_refl.
  - destruct (String.eqb k0 k) eqn:E; [|now apply IH].
    apply String.eqb_eq in E. subst k0. exfalso. apply N.
    unfold Dict.keys. apply in_map_iff. now exists (k, l).
Qed.

Lemma index_has_no_repetition_witness :
  get_packages_required_by 1
    [Scenario.A; Scenario.A; Scenario.D; Scenario.B_two]
  = Some [("b", ["a"; "d"]); ("c", ["b"]); ("e", ["b"])]
  /\ NoDup (Dict.keys [("b", ["a"; "d"]); ("c", ["b"]); ("e", ["b"])])
  /\ (forall k l,
        In (k, l) [("b", ["a"; "d"]); ("c", ["b"]); ("e", ["b"])] ->
        NoDup l /\ l <> []).
Proof.
  split; [reflexivity|].
  exact (index_has_no_repetition
           [Scenario.A; Scenario.A; Scenario.D; Scenario.B_two] 1
           [("b", ["a"; "d"]); ("c", ["b"]); ("e", ["b"])] eq_refl).
Defined.

(** ** Lists without bracketed requirements *)

Lemma scan_bracket_free packages :
  bracket_free packages -> extras (scan packages) = [].
Proof.
  unfold scan. intros B.
  assert (E : extras (mk_state [] []) = []) by reflexivity.
  revert E. generalize (mk_state [] []).
  induction packages as [|p r IH]; cbn [fold_left]; intros st E; auto.
  apply IH.
  - intros q d Iq Id. apply (B q d); auto. now right.
  - unfold scan_package. rewrite add_dependencies_flat; auto.
    intros d Id. apply (B p d); auto. now left.
Qed.

Lemma drain_nothing_pending fuel packages st :
  extras st = [] -> drain fuel packages st = Some (required_by st).
Proof. intros E. destruct fuel; cbn [drain]; now rewrite E. Qed.

Lemma inhabited_holds d k :
  inhabited d -> Dict.mem k d = true -> exists x, holds d k x.
Proof.
  unfold Dict.mem. intros I M.
  destruct (Dict.get k d) as [l|] eqn:G; [|discriminate].
  destruct l as [|x l]; [now apply I in G|].
  exists x, (x :: l). split; auto. now left.
Qed.

Lemma returns_scan_when_bracket_free packages fuel :
  bracket_free packages ->
  get_packages_required_by fuel packages
  = Some (required_by (scan packages)).
Proof.
  intros B. unfold get_packages_required_by.
  apply drain_nothing_pending. now apply scan_bracket_free.
Qed.

(** X9 (get_packages_required_by, is_package_required).  When no key
    of requires carries a bracket, the second loop has nothing to do: the
    function returns the index of the first loop, x is recorded under k
    exactly when some listed package named x (lowercased) requires a
    dependency that lowercases to k, and a package is required exactly
    when some listed package requires a dependency equal to its name up to
    case. *)
Theorem plain_requirements_index packages :
  bracket_free packages ->
  (forall fuel,
      get_packages_required_by fuel packages
      = Some (required_by (scan packages)))
  /\ (forall k x,
        holds (required_by (scan packages)) k x <->
        exists p d, In p packages /\ In d (Dict.keys (pkg_requires p))
                    /\ k = Py.lower d /\ x = Py.lower (pkg_name p))
  /\ (forall q,
        is_package_required q (required_by (scan packages)) = true <->
        exists p d, In p packages /\ In d (Dict.keys (pkg_requires p))
                    /\ Py.lower d = Py.lower (pkg_name q)).
Proof.
  intros B.
  assert (K : forall p d, In p packages ->
                          In d (Dict.keys (pkg_requires p)) ->
                          index_key d = Py.lower d).
  { intros p d Ip Id. unfold index_key, bare. now rewrite (B p d). }
  assert (C : forall k x,
             holds (required_by (scan packages)) k x <->
             exists p d, In p packages /\ In d (Dict.keys (pkg_requires p))
                         /\ k = Py.lower d /\ x = Py.lower (pkg_name p)).
  { intros k x. split.
    - intros H. apply scan_inv in H.
      destruct H as [p [Ip [X [d [Id Kd]]]]].
      exists p, d. rewrite (K p d) in Kd; auto.
    - intros [p [d [Ip [Id [-> ->]]]]]. rewrite <- (K p d); auto.
      now apply scan_records. }
  split; [|split; [exact C|]].
  - intros fuel. now apply returns_scan_when_bracket_free.
  - intros q. unfold is_package_required. split.
    + intros M. apply inhabited_holds in M.
      * destruct M as [x H]. apply C in H.
        destruct H as [p [d [Ip [Id [E _]]]]]. now exists p, d.
      * apply (keeps_scan inhabited inhabited_add_once).
        intros k l; discriminate.
    + intros [p [d [Ip [Id E]]]].
      apply holds_mem with (x := Py.lower (pkg_name p)).
      apply C. exists p, d. auto.
Qed.

Lemma plain_requirements_index_witness :
  bracket_free [Scenario.Selfish; Scenario.B]
  /\ get_packages_required_by 0 [Scenario.Selfish; Scenario.B]
     = Some (required_by (scan [Scenario.Selfish; Scenario.B])).
Proof.
  assert (B : bracket_free [Scenario.Selfish; Scenario.B]).
  { intros p d [<- | [<- | []]] Id; cbn in Id;
      [destruct Id as [<- | []]; reflexivity | destruct Id]. }
  split; [exact B|].
  exact (proj1 (plain_requirements_index [Scenario.Selfish; Scenario.B] B) 0).
Defined.

(** ** A package listed more than once *)

Lemma add_once_absorbs k x d : holds d k x -> add_once k x d = d.
Proof.
  intros [l [G I]]. unfold add_once. rewrite G.
  apply mem_In in I. now rewrite I.
Qed.

Lemma enqueue_absorbs k parts d :
  (forall part, In part parts -> holds d k part) ->
  fold_left (fun ex part => add_once k part ex) parts d = d.
Proof.
  induction parts as [|part r IH]; cbn [fold_left]; intros H; auto.
  rewrite add_once_absorbs by (apply H; now left).
  apply IH. intros q Hq. apply H. now right.
Qed.

Lemma add_dependency_absorbs name dependency st :
  absorbed name dependency st -> add_dependency name dependency st = st.
Proof.
  intros [R E]. unfold add_dependency. unfold index_key, bare in *.
  destruct (Py.has_char "[" (Py.lower dependency)) eqn:B.
  - rewrite enqueue_absorbs by (apply E; auto).
    rewrite add_once_absorbs by exact R. now destruct st.
  - rewrite add_once_absorbs by exact R. now destruct st.
Qed.

Lemma add_dependencies_absorbs name deps st :
  (forall d, In d deps -> absorbed name d st) ->
  add_dependencies name deps st = st.
Proof.
  unfold add_dependencies.
  induction deps as [|d r IH]; cbn [fold_left]; intros H; auto.
  rewrite add_dependency_absorbs by (apply H; now left).
  apply IH. intros q Hq. apply H. now right.
Qed.

Lemma scan_package_again packages p :
  In p packages -> scan_package (scan packages) p = scan packages.
Proof.
  intros I. unfold scan_package. apply add_dependencies_absorbs.
  intros d Id. split.
  - now apply scan_records.
  - intros B part Ip. now apply scan_enqueues with p.
Qed.

Lemma scan_again packages : forall more,
  incl more packages -> scan (packages ++ more) = scan packages.
Proof.
  intros more I. unfold scan. rewrite fold_left_app.
  fold (scan packages).
  induction more as [|q r IH]; cbn [fold_left]; auto.
  rewrite scan_package_again by (apply I; now left).
  apply IH. intros x Hx. apply I. now right.
Qed.

(** X10 (get_packages_required_by, lines 526-572).  Listing again
    packages that are already in the list changes nothing in the first
    loop, neither in the index nor in the pending extras; when no key of
    requires carries a bracket the function returns the same index. *)
Theorem listing_a_package_again packages more :
  incl more packages ->
  scan (packages ++ more) = scan packages
  /\ (bracket_free packages ->
      forall fuel,
        get_packages_required_by fuel (packages ++ more)
        = get_packages_required_by fuel packages).
Proof.
  intros I. split; [now apply scan_again|].
  intros B fuel.
  assert (B' : bracket_free (packages ++ more)).
  { intros p d Ip Id. apply in_app_or in Ip.
    destruct Ip as [Ip | Ip]; [|apply I in Ip]; now apply (B p d). }
  rewrite (returns_scan_when_bracket_free _ fuel B').
  rewrite (returns_scan_when_bracket_free _ fuel B).
  now rewrite scan_again.
Qed.

Lemma listing_a_package_again_witness :
  incl [Scenario.A] [Scenario.A; Scenario.B]
  /\ scan ([Scenario.A; Scenario.B] ++ [Scenario.A])
     = scan [Scenario.A; Scenario.B].
Proof.
  assert (I : incl [Scenario.A] [Scenario.A; Scenario.B])
    by (intros x [<- | []]; left; reflexivity).
  split; [exact I|].
  exact (proj1 (listing_a_package_again [Scenario.A; Scenario.B]
                  [Scenario.A] I)).
Defined.

(** ** Pending names that lead nowhere *)

Lemma for_value_inert p name key st :
  (forall e, In e (value_of key st) -> Dict.get e (pkg_extras p) = None) ->
  forall fuel i,
    length (value_of key st) <= fuel + i ->
    for_value fuel p name key i st = Some st.
Proof.
  intros N. induction fuel as [|fuel IH]; intros i L; cbn [for_value].
  - destruct (nth_error (value_of key st) i) eqn:E; auto.
    assert (i < length (value_of key st))
      by (apply nth_error_Some; congruence).
    lia.
  - destruct (nth_error (value_of key st) i) as [e|] eqn:E; auto.
    unfold activate. rewrite (N e) by (eapply nth_error_In; eauto).
    apply IH. lia.
Qed.

Lemma drain_package_inert key st p :
  (Py.lower (pkg_name p) = key ->
   forall e, In e (value_of key st) -> Dict.get e (pkg_extras p) = None) ->
  drain_package key st p = st.
Proof.
  intros N. unfold drain_package.
  destruct (String.eqb key (Py.lower (pkg_name p))) eqn:E; auto.
  apply String.eqb_eq in E.
  rewrite for_value_inert; auto.
  unfold turns. lia.
Qed.

Lemma drain_step_inert packages st key value rest :
  extras st = (key, value) :: rest ->
  (forall p e, In p packages -> Py.lower (pkg_name p) = key ->
               In e value -> Dict.get e (pkg_extras p) = None) ->
  drain_step packages st = mk_state rest (required_by st).
Proof.
  intros E N. unfold drain_step. rewrite E.
  assert (V : value_of key st = value).
  { unfold value_of, list_at. rewrite E. cbn [Dict.get].
    now rewrite String.eqb_refl. }
  assert (F : fold_left (drain_package key) packages st = st).
  { clear E. induction packages as [|p r IH]; cbn [fold_left]; auto.
    rewrite drain_package_inert.
    - apply IH. intros q e Iq. apply N. now right.
    - intros Nm e Ie. rewrite V in Ie. apply (N p e); auto. now left. }
  rewrite F, E. cbn [Dict.del]. now rewrite String.eqb_refl.
Qed.

(** X11 (get_packages_required_by, lines 574-604).  A pending name that
    no listed package answers to, or whose requested extras no such
    package declares, is dropped by its turn of the second loop: the index
    is unchanged and only the pending entry is deleted. *)
Theorem unmatched_pending_is_dropped packages st key value rest :
  extras st = (key, value) :: rest ->
  (forall p e, In p packages -> Py.lower (pkg_name p) = key ->
               In e value -> Dict.get e (pkg_extras p) = None) ->
  drain_step packages st = mk_state rest (required_by st).
Proof. apply drain_step_inert. Qed.

Lemma unmatched_pending_is_dropped_witness :
  (extras (scan [Scenario.A]) = [("b", ["x"])]
   /\ forall p e, In p [Scenario.A] -> Py.lower (pkg_name p) = "b" ->
                  In e ["x"] -> Dict.get e (pkg_extras p) = None)
  /\ drain_step [Scenario.A] (scan [Scenario.A])
     = mk_state [] (required_by (scan [Scenario.A])).
Proof.
  assert (H1 : extras (scan [Scenario.A]) = [("b", ["x"])]) by reflexivity.
  assert (H2 : forall p e, In p [Scenario.A] ->
                           Py.lower (pkg_name p) = "b" ->
                           In e ["x"] -> Dict.get e (pkg_extras p) = None).
  { intros p e [<- | []] N. discriminate. }
  split; [split; assumption|].
  exact (unmatched_pending_is_dropped [Scenario.A] (scan [Scenario.A])
           "b" ["x"] [] H1 H2).
Defined.

(** ** Pending extras are in lowercase *)

Lemma requested_lowered s part :
  lowered s -> In part (requested s) -> lowered part.
Proof.
  intros L I. unfold requested, bracketed, Py.split in I.
  assert (B : lowered (Re.sub Pat.from_close ""
                         (Re.sub Pat.up_to_open "" s)))
    by now apply sub_lowered, sub_lowered.
  apply lowered_all_chars in B.
  pose proof (split_go_keeps_chars lower_fixed "," _ 0 EmptyString
                eq_refl B) as F.
  rewrite Forall_forall in F. apply lowered_all_chars. now apply F.
Qed.

Lemma normal_enqueue k parts : forall d,
  lowered k -> (forall part, In part parts -> lowered part) ->
  normal d ->
  normal (fold_left (fun ex part => add_once k part ex) parts d).
Proof.
  induction parts as [|part r IH]; cbn [fold_left]; intros d K P N; auto.
  apply IH; auto.
  - intros q Hq. apply P. now right.
  - apply normal_add_once; auto. apply P. now left.
Qed.

Lemma pending_add_dependency name dependency st :
  normal (extras st) -> normal (extras (add_dependency name dependency st)).
Proof.
  intros N. unfold add_dependency.
  destruct (Py.has_char "[" (Py.lower dependency)) eqn:B;
    cbn [extras]; auto.
  apply normal_enqueue; auto.
  - pose proof (index_key_lowered dependency) as K.
    unfold index_key in K. exact K.
  - intros part. apply requested_lowered, lower_lowered.
Qed.

Lemma pending_add_dependencies name deps : forall st,
  normal (extras st) -> normal (extras (add_dependencies name deps st)).
Proof.
  unfold add_dependencies.
  induction deps as [|d r IH]; cbn [fold_left]; intros st N; auto.
  apply IH. now apply pending_add_dependency.
Qed.

Lemma pending_scan packages : normal (extras (scan packages)).
Proof.
  unfold scan.
  assert (N : normal (extras (mk_state [] []))) by (intros k l []).
  revert N. generalize (mk_state [] []).
  induction packages as [|p r IH]; cbn [fold_left]; intros st N; auto.
  apply IH. now apply pending_add_dependencies.
Qed.

Lemma in_del {V : Type} k (d : Dict.t V) kv : In kv (Dict.del k d) -> In kv d.
Proof.
  induction d as [|[k0 v0] r IH]; cbn [Dict.del]; auto.
  destruct (String.eqb k0 k).
  - intros H. now right.
  - intros [H | H]; [now left | right; auto].
Qed.

Lemma pending_drain_package key st p :
  normal (extras st) -> normal (extras (drain_package key st p)).
Proof.
  intros N. unfold drain_package.
  destruct (String.eqb key (Py.lower (pkg_name p))); auto.
  destruct (for_value_total p (Py.lower (pkg_name p)) key st) as [st' E].
  rewrite E.
  refine (for_value_keeps (fun s => normal (extras s)) p _ key _ _ _ _ _ N E).
  intros e s Hs. unfold activate.
  destruct (Dict.get e (pkg_extras p)); auto.
  now apply pending_add_dependencies.
Qed.

Lemma pending_drain_step packages st :
  normal (extras st) -> normal (extras (drain_step packages st)).
Proof.
  intros N. unfold drain_step.
  destruct (extras st) as [|[key v] rest] eqn:E; [now rewrite E|].
  cbn [extras].
  assert (F : normal (extras (fold_left (drain_package key) packages st))).
  { rewrite <- E in N. clear E. revert st N.
    induction packages as [|p r IH]; cbn [fold_left]; intros st N; auto.
    apply IH. now apply pending_drain_package. }
  intros k l H. apply in_del in H. now apply F.
Qed.

Lemma pending_after_turns packages n : forall st,
  normal (extras st) -> normal (extras (after_turns n packages st)).
Proof.
  induction n as [|n IH]; cbn [after_turns]; intros st N; auto.
  apply IH. now apply pending_drain_step.
Qed.

(** X12 (get_packages_required_by, lines 531-541 and 579-582).  The
    requested extras are kept lowercased, during all the run, while the
    extras of a package are looked up as they are written in its metadata:
    a turn for a name whose packages declare only extras with an uppercase
    letter changes nothing in the index.  So A requiring B[Dev] does not
    bring in what B lists under Dev. *)
Theorem requested_extras_are_lowercased packages n :
  normal (extras (after_turns n packages (scan packages)))
  /\ (forall key value rest,
        extras (after_turns n packages (scan packages))
        = (key, value) :: rest ->
        (forall p e, In p packages -> Py.lower (pkg_name p) = key ->
                     Dict.mem e (pkg_extras p) = true -> ~ lowered e) ->
        drain_step packages (after_turns n packages (scan packages))
        = mk_state rest
            (required_by (after_turns n packages (scan packages))))
  /\ get_packages_required_by 1
       [Scenario.pkg "A" [("B[Dev]", Str "")] [];
        Scenario.pkg "B" [] [("Dev", [("C", Str "")])]]
     = Some [("b", ["a"])].
Proof.
  assert (N : normal (extras (after_turns n packages (scan packages))))
    by apply pending_after_turns, pending_scan.
  split; [exact N|]. split; [|reflexivity].
  intros key value rest E U. apply drain_step_inert with key value; auto.
  intros p e Ip Nm Ie.
  destruct (Dict.get e (pkg_extras p)) as [g|] eqn:G; auto.
  exfalso. apply (U p e Ip Nm).
  - unfold Dict.mem. now rewrite G.
  - assert (In (key, value) (extras (after_turns n packages (scan packages))))
      by (rewrite E; now left).
    apply N in H. now apply H.
Qed.

(* ================================================================== *)
(** * Properties of the listing helpers *)

(** ** get_unique_packages *)

Lemma unique_fold name packages : forall unique_packages,
  Dict.get name
    (fold_left
       (fun unique_packages p =>
          match Dict.get (pkg_name p) unique_packages with
          | Some n => Dict.set (pkg_name p) (n + 1) unique_packages
          | None => Dict.set (pkg_name p) 1 unique_packages
          end) packages unique_packages)
  = match Dict.get name unique_packages with
    | Some n => Some (n + occurrences name packages)
    | None =>
        if occurrences name packages =? 0 then None
        else Some (occurrences name packages)
    end.
Proof.
  unfold occurrences.
  induction packages as [|p r IH]; intros u; cbn [fold_left filter].
  - cbn [length]. destruct (Dict.get name u); auto; f_equal; lia.
  - rewrite IH. clear IH.
    destruct (String.eqb (pkg_name p) name) eqn:E.
    + apply String.eqb_eq in E. rewrite E. cbn [length].
      destruct (Dict.get name u) as [n|]; rewrite get_set_same.
      * f_equal. lia.
      * cbn [Nat.eqb]. f_equal.
    + apply String.eqb_neq in E.
      destruct (Dict.get (pkg_name p) u) as [m|];
        now rewrite get_set_other.
Qed.

(** X13 (get_unique_packages).  The count stored for a name is the
    number of packages of the list that bear it, and a name has an entry
    only when that number is not zero. *)
Theorem unique_packages_counts name packages :
  Dict.get name (get_unique_packages packages)
  = if occurrences name packages =? 0 then None
    else Some (occurrences name packages).
Proof. unfold get_unique_packages. now rewrite unique_fold. Qed.

(** ** get_packages_list_max_sizes *)

Lemma longer_max a b : longer a b = Nat.max a b.
Proof.
  unfold longer. destruct (a <? b) eqn:E.
  - apply Nat.ltb_lt in E. lia.
  - apply Nat.ltb_ge in E. lia.
Qed.

Lemma sizes_fold packages : forall a b c,
  let r := fold_left sizes_step packages (a, b, c) in
  (a <= fst (fst r) /\ b <= snd (fst r) /\ c <= snd r)
  /\ (forall p, In p packages -> fits r p)
  /\ (fst (fst r) = a
      \/ exists p, In p packages /\ fst (fst r) = String.length (pkg_name p))
  /\ (snd (fst r) = b
      \/ exists p, In p packages
                   /\ snd (fst r) = String.length (pkg_version p))
  /\ (snd r = c
      \/ exists p, In p packages /\ snd r = String.length (pkg_summary p)).
Proof.
  induction packages as [|p r IH]; intros a b c; cbn [fold_left].
  - cbn. repeat split; auto; contradiction.
  - cbn [sizes_step]. rewrite !longer_max.
    specialize (IH (Nat.max a (String.length (pkg_name p)))
                   (Nat.max b (String.length (pkg_version p)))
                   (Nat.max c (String.length (pkg_summary p)))).
    cbv zeta in *.
    set (res := fold_left sizes_step r _) in *.
    destruct IH as [[La [Lb Lc]] [F [Ea [Eb Ec]]]].
    split; [repeat split; lia|].
    split.
    { intros q [<- | Iq]; [|now apply F].
      unfold fits. repeat split; lia. }
    split; [|split].
    + destruct Ea as [Ea | [q [Iq Ea]]];
        [|right; exists q; split; [now right | auto]].
      destruct (Nat.max_spec a (String.length (pkg_name p)))
        as [[_ M] | [_ M]]; rewrite M in Ea; auto.
      right. exists p. split; [now left | auto].
    + destruct Eb as [Eb | [q [Iq Eb]]];
        [|right; exists q; split; [now right | auto]].
      destruct (Nat.max_spec b (String.length (pkg_version p)))
        as [[_ M] | [_ M]]; rewrite M in Eb; auto.
      right. exists p. split; [now left | auto].
    + destruct Ec as [Ec | [q [Iq Ec]]];
        [|right; exists q; split; [now right | auto]].
      destruct (Nat.max_spec c (String.length (pkg_summary p)))
        as [[_ M] | [_ M]]; rewrite M in Ec; auto.
      right. exists p. split; [now left | auto].
Qed.

Lemma max_sizes_spec packages :
  let sizes := get_packages_list_max_sizes packages in
  (7 <= fst (fst sizes) /\ 7 <= snd (fst sizes) /\ 7 <= snd sizes)
  /\ (forall p, In p packages -> fits sizes p)
  /\ (fst (fst sizes) = 7
      \/ exists p, In p packages
                   /\ fst (fst sizes) = String.length (pkg_name p))
  /\ (snd (fst sizes) = 7
      \/ exists p, In p packages
                   /\ snd (fst sizes) = String.length (pkg_version p))
  /\ (snd sizes = 7
      \/ exists p, In p packages
                   /\ snd sizes = String.length (pkg_summary p)).
Proof. exact (sizes_fold packages 7 7 7). Qed.

(** X14 (get_packages_list_max_sizes).  Each of the three sizes is at
    least 7 (the length of the column titles), is at least the length of
    the field of every listed package, and is either 7 or the length of
    the field of some listed package. *)
Theorem max_sizes_are_the_widest packages :
  let sizes := get_packages_list_max_sizes packages in
  (7 <= fst (fst sizes) /\ 7 <= snd (fst sizes) /\ 7 <= snd sizes)
  /\ (forall p, In p packages -> fits sizes p)
  /\ (fst (fst sizes) = 7
      \/ exists p, In p packages
                   /\ fst (fst sizes) = String.length (pkg_name p))
  /\ (snd (fst sizes) = 7
      \/ exists p, In p packages
                   /\ snd (fst sizes) = String.length (pkg_version p))
  /\ (snd sizes = 7
      \/ exists p, In p packages
                   /\ snd sizes = String.length (pkg_summary p)).
Proof. exact (max_sizes_spec packages). Qed.

(** ** The table printed without color *)

Lemma length_append (a b : string) :
  String.length (a ++ b)%string = String.length a + String.length b.
Proof.
  induction a as [|c a IH]; simpl; [reflexivity | now rewrite IH].
Qed.

Lemma length_times c n : String.length (times c n) = n.
Proof. induction n; cbn; auto. Qed.

Lemma length_field s width :
  String.length (field_of s width) = Nat.max (String.length s) width.
Proof.
  unfold field_of. rewrite length_append, length_times. lia.
Qed.

Lemma length_replace_char a b s :
  String.length (replace_char a b s) = String.length s.
Proof. induction s; cbn [replace_char String.length]; auto. Qed.

Lemma length_name_cell longuest_name count p :
  String.length (pkg_name p) + 2 <= longuest_name ->
  String.length (name_cell longuest_name count p) = longuest_name.
Proof.
  intros L. unfold name_cell. destruct (1 <? count);
    rewrite length_field, ?length_append; cbn [String.length]; lia.
Qed.

Lemma length_version_cell longuest_version outdated vulnerable p :
  String.length (pkg_version p) + 2 <= longuest_version ->
  String.length (version_cell longuest_version outdated vulnerable p)
  = longuest_version.
Proof.
  intros L. unfold version_cell. cbv zeta.
  assert (A : forall mark,
             String.length
               (field_of (String mark (pkg_version p ++ String mark ""))
                  longuest_version) = longuest_version).
  { intros mark. rewrite length_field. cbn [String.length].
    rewrite length_append. cbn [String.length]. lia. }
  assert (B : String.length (field_of (pkg_version p) longuest_version)
              = longuest_version) by (rewrite length_field; lia).
  destruct outdated, vulnerable; auto.
  - destruct (Py.startswith "^" _); [rewrite length_replace_char|];
      apply A.
  - apply A.
  - destruct (Py.startswith "^" _); [now rewrite length_replace_char|].
    apply A.
Qed.

(** X15 (list_packages without color, lines 624-697).  With the widths
    computed from the list, the title line, the two rules and the line of
    every listed package have the same length, whatever the marks put
    around the name (duplicate) and the version (outdated, vulnerable). *)
Theorem plain_table_is_aligned packages p count outdated vulnerable :
  In p packages ->
  let '(longuest_name, longuest_version, longuest_summary) :=
    plain_widths packages in
  let width := longuest_name + longuest_version + longuest_summary + 2 in
  String.length
    (row longuest_name longuest_version longuest_summary count
       outdated vulnerable p) = width
  /\ String.length (heading longuest_name longuest_version longuest_summary)
     = width
  /\ String.length (rule longuest_name longuest_version longuest_summary)
     = width
  /\ String.length (closing longuest_name longuest_version longuest_summary)
     = width.
Proof.
  intros I. unfold plain_widths.
  pose proof (max_sizes_spec packages) as M. cbv zeta in M.
  destruct (get_packages_list_max_sizes packages) as [[a b] c].
  cbn [fst snd] in M. destruct M as [[A [B C]] [F _]].
  destruct (F p I) as [Fa [Fb Fc]]. cbn [fst snd] in *.
  split; [|split; [|split]].
  - unfold row. rewrite !length_append.
    rewrite length_name_cell, length_version_cell, length_field by lia.
    cbn [String.length]. lia.
  - unfold heading. rewrite !length_append, !length_field.
    cbn [String.length]. lia.
  - unfold rule. rewrite !length_append, !length_times.
    cbn [String.length]. lia.
  - unfold closing. rewrite !length_append, !length_times.
    cbn [String.length]. lia.
Qed.

(** ** The last line *)

Lemma plural_suffix count :
  upto (Nat.lxor count 1) "s" = if count =? 1 then "" else "s".
Proof.
  destruct (count =? 1) eqn:E.
  - apply Nat.eqb_eq in E. now subst.
  - apply Nat.eqb_neq in E.
    destruct (Nat.lxor count 1) as [|k] eqn:X.
    + exfalso. apply E. now apply Nat.lxor_eq_0_iff.
    + destruct k; reflexivity.
Qed.

(** X16 (list_packages, lines 698-703).  The last line reads
    N package, with an s unless N is 1 (the slice of s by N xor 1 is empty
    only then), followed by the outdated and the vulnerable counts when
    they are not zero. *)
Theorem summary_line_reads count outdated_count vulnerable_count :
  summary_line count outdated_count vulnerable_count
  = (str_of_nat count ++ " package"
     ++ (if (count =? 1)%nat then "" else "s")
     ++ (if (outdated_count =? 0)%nat then ""
         else ", " ++ str_of_nat outdated_count ++ " outdated")
     ++ (if (vulnerable_count =? 0)%nat then ""
         else ", " ++ str_of_nat vulnerable_count ++ " vulnerable"))%string.
Proof.
  unfold summary_line. rewrite plural_suffix.
  destruct outdated_count, vulnerable_count; reflexivity.
Qed.

Lemma plain_table_is_aligned_witness :
  In Scenario.A [Scenario.A; Scenario.Selfish]
  /\ String.length (row 9 9 7 2 true true Scenario.A) = 27
  /\ String.length (heading 9 9 7) = 27
  /\ String.length (rule 9 9 7) = 27
  /\ String.length (closing 9 9 7) = 27.
Proof.
  assert (I : In Scenario.A [Scenario.A; Scenario.Selfish])
    by (left; reflexivity).
  split; [exact I|].
  exact (plain_table_is_aligned [Scenario.A; Scenario.Selfish] Scenario.A
           2 true true I).
Defined.

(* ================================================================== *)
(** * Properties of the checks against the package index *)

(** ** Vulnerabilities *)

Section VulnerabilityFacts.
Context {V : Type}.

Lemma mem_set_other {A : Type} k k' (v : A) d :
  k <> k' -> Dict.mem k' (Dict.set k v d) = Dict.mem k' d.
Proof. intros N. unfold Dict.mem. now rewrite get_set_other. Qed.

Lemma note_vulnerabilities_known vulnerabilities (pv : package * list V)
  name version :
  known_vulnerable (note_vulnerabilities vulnerabilities pv) name version
  = known_vulnerable vulnerabilities name version
    || (String.eqb (pkg_name (fst pv)) name
        && String.eqb (pkg_version (fst pv)) version
        && match snd pv with [] => false | _ :: _ => true end).
Proof.
  unfold note_vulnerabilities, known_vulnerable. cbv zeta.
  destruct (snd pv) as [|v0 vs];
    [now rewrite andb_false_r, orb_false_r|].
  rewrite andb_true_r.
  destruct (String.eqb (pkg_name (fst pv)) name) eqn:En.
  - apply String.eqb_eq in En. rewrite En. cbn [andb].
    destruct (Dict.get name vulnerabilities) as [versions|] eqn:G.
    + destruct (String.eqb (pkg_version (fst pv)) version) eqn:Ev.
      * apply String.eqb_eq in Ev. rewrite Ev.
        destruct (Dict.mem version versions) eqn:M.
        -- rewrite G, M. reflexivity.
        -- rewrite get_set_same. unfold Dict.mem at 1.
           rewrite get_set_same. reflexivity.
      * apply String.eqb_neq in Ev. rewrite orb_false_r.
        destruct (Dict.mem (pkg_version (fst pv)) versions).
        -- now rewrite G.
        -- rewrite get_set_same. now apply mem_set_other.
    + rewrite get_set_same.
      destruct (String.eqb (pkg_version (fst pv)) version) eqn:Ev.
      * apply String.eqb_eq in Ev. rewrite Ev. unfold Dict.mem.
        now rewrite get_set_same.
      * apply String.eqb_neq in Ev. now rewrite mem_set_other.
  - apply String.eqb_neq in En. cbn [andb]. rewrite orb_false_r.
    destruct (Dict.get (pkg_name (fst pv)) vulnerabilities) as [versions|].
    + destruct (Dict.mem (pkg_version (fst pv)) versions); auto.
      now rewrite get_set_other.
    + now rewrite get_set_other.
Qed.

Lemma vulnerabilities_fold (answers : list (package * list V))
  name version : forall vulnerabilities,
  known_vulnerable (fold_left note_vulnerabilities answers vulnerabilities)
    name version = true <->
  known_vulnerable vulnerabilities name version = true
  \/ exists q found, In (q, found) answers /\ pkg_name q = name
                     /\ pkg_version q = version /\ found <> [].
Proof.
  induction answers as [|[q found] r IH]; intros v; cbn [fold_left].
  - split; auto. intros [H | [q [f [[] _]]]]; auto.
  - rewrite IH, note_vulnerabilities_known. cbn [fst snd]. split.
    + intros [H | [q' [f [I R]]]].
      * apply orb_true_iff in H. destruct H as [H | H]; auto.
        apply andb_true_iff in H. destruct H as [H Hf].
        apply andb_true_iff in H. destruct H as [Hn Hv].
        apply String.eqb_eq in Hn, Hv.
        right. exists q, found.
        split; [now left|]. split; [exact Hn|]. split; [exact Hv|].
        intros F. rewrite F in Hf. discriminate.
      * right. exists q', f. split; auto. now right.
    + intros [H | [q' [f [[E | I] [Hn [Hv Hf]]]]]].
      * left. now rewrite H.
      * injection E as -> ->. left. subst.
        rewrite !String.eqb_refl. destruct f; [contradiction|].
        now rewrite orb_true_r.
      * right. now exists q', f.
Qed.

End VulnerabilityFacts.

(** X17 (get_packages_vulnerabilities, is_package_vulnerable).  A
    package is reported vulnerable exactly when a package of the list with
    the same name and the same version got a non-empty answer. *)
Theorem vulnerable_means_a_nonempty_answer {V : Type}
  (answers : list (package * list V)) progress_meter p :
  is_package_vulnerable p
    (get_packages_vulnerabilities answers progress_meter) = true
  <-> exists q found, In (q, found) answers
                      /\ pkg_name q = pkg_name p
                      /\ pkg_version q = pkg_version p /\ found <> [].
Proof.
  change (is_package_vulnerable p
            (get_packages_vulnerabilities answers progress_meter))
    with (known_vulnerable
            (get_packages_vulnerabilities answers progress_meter)
            (pkg_name p) (pkg_version p)).
  unfold get_packages_vulnerabilities.
  destruct progress_meter; rewrite vulnerabilities_fold; cbn;
    (split; [intros [H | H]; [discriminate | exact H] | now right]).
Qed.

(** ** Latest versions *)

Section VersionFacts.
Variable fetch : string -> string.
Variable older : string -> string -> result bool.

Lemma latest_fold name packages : forall latest_versions,
  Dict.get name (fold_left (note_latest fetch) packages latest_versions)
  = match Dict.get name latest_versions with
    | Some v => Some v
    | None =>
        if occurrences name packages =? 0 then None else Some (fetch name)
    end.
Proof.
  unfold occurrences.
  induction packages as [|p r IH]; intros lv; cbn [fold_left filter].
  - cbn. now destruct (Dict.get name lv).
  - rewrite IH. clear IH. unfold note_latest, Dict.mem.
    destruct (String.eqb (pkg_name p) name) eqn:E.
    + apply String.eqb_eq in E. rewrite E. cbn [length Nat.eqb].
      destruct (Dict.get name lv) as [v|] eqn:G.
      * now rewrite G.
      * now rewrite get_set_same.
    + apply String.eqb_neq in E.
      destruct (Dict.get (pkg_name p) lv); auto.
      now rewrite get_set_other.
Qed.

Lemma occurrences_in p packages :
  In p packages -> occurrences (pkg_name p) packages <> 0.
Proof.
  unfold occurrences. intros I.
  assert (H : In p (filter (fun q => String.eqb (pkg_name q) (pkg_name p))
                      packages))
    by (apply filter_In; split; auto; apply String.eqb_refl).
  destruct (filter _ packages); [destruct H | discriminate].
Qed.

Lemma latest_version_lookup packages progress_meter p :
  In p packages ->
  Dict.get (pkg_name p)
    (get_packages_latest_version fetch packages progress_meter)
  = Some (fetch (pkg_name p)).
Proof.
  intros I. unfold get_packages_latest_version.
  destruct progress_meter; rewrite latest_fold; cbn [Dict.get];
    apply occurrences_in in I; apply Nat.eqb_neq in I; now rewrite I.
Qed.

Lemma outdated_of_listed packages progress_meter p :
  In p packages ->
  is_package_outdated older p
    (get_packages_latest_version fetch packages progress_meter)
  = (if Py.truthy (fetch (pkg_name p))
     then older (pkg_version p) (fetch (pkg_name p))
     else Ok false).
Proof.
  intros I. unfold is_package_outdated.
  rewrite (latest_version_lookup _ _ _ I).
  now destruct (Py.truthy (fetch (pkg_name p))).
Qed.

End VersionFacts.

(** X18 (get_packages_latest_version, is_package_outdated).  For a
    package of the list the dict holds what the index answered for its
    name, so the subscript of is_package_outdated succeeds: the result is
    False when the answer is empty and the comparison of the two versions
    otherwise. *)
Theorem latest_version_is_known (fetch : string -> string)
  (older : string -> string -> result bool) packages progress_meter p :
  In p packages ->
  Dict.get (pkg_name p)
    (get_packages_latest_version fetch packages progress_meter)
  = Some (fetch (pkg_name p))
  /\ is_package_outdated older p
       (get_packages_latest_version fetch packages progress_meter)
     = (if Py.truthy (fetch (pkg_name p))
        then older (pkg_version p) (fetch (pkg_name p))
        else Ok false).
Proof.
  intros I. split.
  - now apply latest_version_lookup.
  - now apply outdated_of_listed.
Qed.

Lemma latest_version_is_known_witness :
  In Sample.baz [Sample.foo; Sample.baz; Sample.foo]
  /\ Dict.get "baz"
       (get_packages_latest_version (fun name => (name ++ "-9")%string)
          [Sample.foo; Sample.baz; Sample.foo] true)
     = Some "baz-9".
Proof.
  assert (I : In Sample.baz [Sample.foo; Sample.baz; Sample.foo])
    by (right; left; reflexivity).
  split; [exact I|].
  exact (proj1 (latest_version_is_known
                  (fun name => (name ++ "-9")%string)
                  (fun _ _ => Ok true)
                  [Sample.foo; Sample.baz; Sample.foo] true Sample.baz I)).
Defined.

(** X19 (is_package_outdated, line 433).  For a package whose name no
    listed package bears, the subscript fails: is_package_outdated raises
    KeyError. *)
Theorem unlisted_package_has_no_latest_version (fetch : string -> string)
  (older : string -> string -> result bool) packages progress_meter p :
  (forall q, In q packages -> pkg_name q <> pkg_name p) ->
  is_package_outdated older p
    (get_packages_latest_version fetch packages progress_meter)
  = Raise KeyError.
Proof.
  intros N. unfold is_package_outdated, get_packages_latest_version.
  assert (O : occurrences (pkg_name p) packages = 0).
  { unfold occurrences.
    induction packages as [|q r IH]; auto. cbn [filter].
    destruct (String.eqb (pkg_name q) (pkg_name p)) eqn:E.
    - apply String.eqb_eq in E. exfalso. apply (N q); auto. now left.
    - apply IH. intros x Hx. apply N. now right. }
  destruct progress_meter; rewrite latest_fold, O; reflexivity.
Qed.

Lemma unlisted_package_has_no_latest_version_witness :
  (forall q, In q [Sample.foo] -> pkg_name q <> pkg_name Sample.baz)
  /\ is_package_outdated (fun _ _ => Ok true) Sample.baz
       (get_packages_latest_version (fun _ => "2") [Sample.foo] false)
     = Raise KeyError.
Proof.
  assert (N : forall q, In q [Sample.foo] ->
                        pkg_name q <> pkg_name Sample.baz).
  { intros q [<- | []]. discriminate. }
  split; [exact N|].
  exact (unlisted_package_has_no_latest_version (fun _ => "2")
           (fun _ _ => Ok true) [Sample.foo] false Sample.baz N).
Defined.

(* ================================================================== *)
(** * Properties of the directory scans *)

(** ** get_site_package_dirs *)

Lemma site_dirs_fold py d : forall (dirs : list string) (acc : Dict.t string),
  Dict.get d
    (fold_left
       (fun site_packages_dirs directory =>
          if endswith "site-packages" directory
          then Dict.set directory (site_kind py directory) site_packages_dirs
          else site_packages_dirs)
       dirs acc)
  = if existsb (String.eqb d) dirs && endswith "site-packages" d
    then Some (site_kind py d) else Dict.get d acc.
Proof.
  induction dirs as [|x r IH]; intros acc; cbn [fold_left existsb].
  - reflexivity.
  - rewrite IH. clear IH.
    destruct (existsb (String.eqb d) r && endswith "site-packages" d) eqn:E.
    + apply andb_true_iff in E. destruct E as [E1 E2].
      now rewrite E1, orb_true_r, E2.
    + destruct (String.eqb d x) eqn:Ed.
      * apply String.eqb_eq in Ed. subst x. cbn [orb andb].
        destruct (endswith "site-packages" d) eqn:Es.
        -- apply get_set_same.
        -- reflexivity.
      * cbn [orb]. rewrite E.
        destruct (endswith "site-packages" x); auto.
        apply get_set_other. intros ->. now rewrite String.eqb_refl in Ed.
Qed.

(** X20 (get_site_package_dirs).  The dict has an entry for a directory
    exactly when the directory is in sys.path and its name ends with
    site-packages; the value is system when the directory starts with the
    system prefix and user otherwise. *)
Theorem site_dirs_are_classified py d v :
  Dict.get d (get_site_package_dirs py) = Some v
  <-> In d (sys_path py) /\ endswith "site-packages" d = true
      /\ v = (if Py.startswith (system_prefix py) d
              then "system" else "user")%string.
Proof.
  unfold get_site_package_dirs. rewrite site_dirs_fold. cbn [Dict.get].
  fold (site_kind py d).
  destruct (existsb (String.eqb d) (sys_path py)) eqn:E; cbn [andb].
  - apply existsb_exists in E. destruct E as [x [I E]].
    apply String.eqb_eq in E. subst x.
    destruct (endswith "site-packages" d).
    + split.
      * intros [= <-]. auto.
      * intros [_ [_ ->]]. reflexivity.
    + split; [discriminate | intros [_ [F _]]; discriminate].
  - split; [discriminate|]. intros [I _]. exfalso.
    assert (T : existsb (String.eqb d) (sys_path py) = true)
      by (apply existsb_exists; exists d; split; auto; apply String.eqb_refl).
    congruence.
Qed.

(** ** get_info_from_site_packages_dir *)

Lemma mark_cases deja_vu name version :
  mark deja_vu name version
  = match Dict.get name deja_vu with
    | Some versions =>
        if Dict.mem version versions then deja_vu
        else Dict.set name (Dict.set version true versions) deja_vu
    | None =>
        Dict.set name (Dict.set version true []) (Dict.set name [] deja_vu)
    end.
Proof.
  unfold mark. cbv zeta.
  destruct (Dict.get name deja_vu) as [versions|] eqn:G.
  - assert (M : Dict.mem name deja_vu = true)
      by (unfold Dict.mem; now rewrite G).
    now rewrite M, G.
  - assert (M : Dict.mem name deja_vu = false)
      by (unfold Dict.mem; now rewrite G).
    now rewrite M, get_set_same.
Qed.

Lemma seen_mark deja_vu name version name' version' :
  seen (mark deja_vu name version) name' version'
  = seen deja_vu name' version'
    || (String.eqb name name' && String.eqb version version').
Proof.
  rewrite mark_cases. unfold seen.
  destruct (Dict.get name deja_vu) as [versions|] eqn:G.
  - destruct (String.eqb name name') eqn:En.
    + apply String.eqb_eq in En. subst name'. cbn [andb]. rewrite G.
      destruct (Dict.mem version versions) eqn:M.
      * rewrite G.
        destruct (String.eqb version version') eqn:Ev.
        -- apply String.eqb_eq in Ev. subst. now rewrite M.
        -- now rewrite orb_false_r.
      * rewrite get_set_same.
        destruct (String.eqb version version') eqn:Ev.
        -- apply String.eqb_eq in Ev. subst. unfold Dict.mem.
           now rewrite get_set_same, orb_true_r.
        -- apply String.eqb_neq in Ev. rewrite orb_false_r.
           unfold Dict.mem. now rewrite get_set_other.
    + apply String.eqb_neq in En. cbn [andb]. rewrite orb_false_r.
      destruct (Dict.mem version versions); auto.
      now rewrite get_set_other.
  - destruct (String.eqb name name') eqn:En.
    + apply String.eqb_eq in En. subst name'. rewrite G.
      rewrite get_set_same. cbn [andb orb]. unfold Dict.mem.
      cbn [Dict.set Dict.get]. now destruct (String.eqb version version').
    + apply String.eqb_neq in En. cbn [andb]. rewrite orb_false_r.
      now rewrite !get_set_other.
Qed.

Lemma faithful_keep st p : faithful st -> faithful (keep st p).
Proof.
  destruct st as [info deja_vu]. intros [N S]. cbn [fst snd] in *.
  unfold keep.
  destruct (seen deja_vu (pkg_name p) (pkg_version p)) eqn:E;
    [split; assumption|].
  split; cbn [fst snd].
  - rewrite map_app. cbn [map].
    apply NoDup_app_remove_l with (l := []). cbn [app].
    apply NoDup_rev in N.
    rewrite <- (rev_involutive (map identity info ++ [identity p])).
    apply NoDup_rev. rewrite rev_app_distr. cbn [rev app].
    constructor; auto. rewrite <- in_rev. intros I.
    apply S in I. congruence.
  - intros name version. rewrite seen_mark, map_app, in_app_iff.
    rewrite orb_true_iff, S, andb_true_iff, !String.eqb_eq.
    cbn [map In]. split.
    + intros [H | [<- <-]]; [now left | right; left; reflexivity].
    + intros [H | [E' | []]]; [now left|].
      unfold identity in E'. injection E' as <- <-. now right.
Qed.

Lemma faithful_scan_items sep directory directory_type items :
  forall st st', faithful st ->
  scan_items sep directory directory_type items st = Ok st' -> faithful st'.
Proof.
  induction items as [|item rest IH]; intros st st' F; cbn [scan_items].
  - intros [= <-]. exact F.
  - destruct (read_item sep directory directory_type item) as [[p|]|e|];
      cbn [bind]; try discriminate.
    + apply IH. now apply faithful_keep.
    + now apply IH.
Qed.

(** X21 (get_info_from_site_packages_dir, lines 244-261).  No two
    packages of the returned list have the same name and the same
    version. *)
Theorem no_package_is_listed_twice sep directory directory_type items info :
  get_info_from_site_packages_dir sep directory directory_type items
  = Ok info ->
  NoDup (map (fun p => (pkg_name p, pkg_version p)) info).
Proof.
  unfold get_info_from_site_packages_dir.
  destruct (scan_items sep directory directory_type items ([], []))
    as [st|e|] eqn:E; cbn [bind]; try discriminate.
  intros [= <-].
  apply (faithful_scan_items sep directory directory_type items ([], []) st);
    auto.
  split; cbn [fst snd map].
  - constructor.
  - intros name version. cbn. split; [discriminate | contradiction].
Qed.

Lemma no_package_is_listed_twice_witness :
  get_info_from_site_packages_dir "/" "/usr/lib/python3.11/site-packages"
    "system" Sample.items
  = Ok [Sample.foo; Sample.baz]
  /\ NoDup (map (fun p => (pkg_name p, pkg_version p))
              [Sample.foo; Sample.baz]).
Proof.
  assert (H : get_info_from_site_packages_dir "/"
                "/usr/lib/python3.11/site-packages" "system" Sample.items
              = Ok [Sample.foo; Sample.baz])
    by (vm_compute; reflexivity).
  split; [exact H|].
  exact (no_package_is_listed_twice _ _ _ _ _ H).
Defined.

(** ** Where a listed package comes from *)

Lemma requires_dist_place line p p' :
  requires_dist line p = Ok p' ->
  pkg_directory p' = pkg_directory p /\ pkg_type p' = pkg_type p.
Proof.
  unfold requires_dist. cbv zeta. intros H.
  apply result_bind_ok in H. destruct H as [[dependency conditions] [_ H]].
  destruct (Py.contains "extra == " _);
    apply result_bind_ok in H; destruct H as [x [_ H]];
    injection H as <-; split; reflexivity.
Qed.

Lemma metadata_line_place line p f p' :
  metadata_line line p = Ok (f, p') ->
  pkg_directory p' = pkg_directory p /\ pkg_type p' = pkg_type p.
Proof.
  unfold metadata_line. cbv zeta.
  destruct (Py.startswith "Metadata-Version: " (Py.strip line));
    [intros [= <- <-]; now split|].
  destruct (Py.startswith "Name: " (Py.strip line));
    [intros [= <- <-]; now split|].
  destruct (Py.startswith "Version: " (Py.strip line));
    [intros [= <- <-]; now split|].
  destruct (Py.startswith "Summary: " (Py.strip line));
    [intros [= <- <-]; now split|].
  destruct (Py.startswith "Requires-Dist: " (Py.strip line)).
  - intros H. apply result_bind_ok in H. destruct H as [q [H E]].
    injection E as <- <-. now apply requires_dist_place in H.
  - destruct (existsb _ passed_over); [intros [= <- <-]; now split|].
    destruct (negb (Py.truthy (Py.strip line)));
      intros [= <- <-]; now split.
Qed.

Lemma metadata_lines_place lines : forall p p',
  metadata_lines lines p = Ok p' ->
  pkg_directory p' = pkg_directory p /\ pkg_type p' = pkg_type p.
Proof.
  induction lines as [|line rest IH]; intros p p'; cbn [metadata_lines].
  - intros [= <-]. now split.
  - intros H. apply result_bind_ok in H. destruct H as [[f q] [L H]].
    apply metadata_line_place in L. destruct L as [D T].
    cbn [fst snd] in H. destruct f.
    + apply IH in H. destruct H as [D' T']. split; congruence.
    + injection H as <-. now split.
Qed.

Lemma read_item_place sep directory directory_type item p :
  read_item sep directory directory_type item = Ok (Some p) ->
  info_directory item = true
  /\ pkg_type p = directory_type
  /\ pkg_directory p = (directory ++ sep ++ item_name item)%string.
Proof.
  unfold read_item. fold (info_directory item). cbv zeta.
  destruct (info_directory item); [|discriminate].
  destruct (Dict.get _ (item_files item)) as [lines|]; [|discriminate].
  intros H. apply result_bind_ok in H. destruct H as [q [P H]].
  apply metadata_lines_place in P. cbn in P. destruct P as [D T].
  split; auto.
  destruct (if Py.truthy _ then _ else _) as [requires_lines|].
  - apply result_bind_ok in H. destruct H as [re [_ H]].
    injection H as <-. cbn. now split.
  - injection H as <-. now split.
Qed.

Lemma keep_in st p q :
  In q (fst (keep st p)) -> In q (fst st) \/ q = p.
Proof.
  destruct st as [info deja_vu]. unfold keep.
  destruct (seen deja_vu (pkg_name p) (pkg_version p)); cbn [fst].
  - now left.
  - rewrite in_app_iff. cbn [In]. intros [H | [<- | []]]; auto.
Qed.

Lemma scan_items_from sep directory directory_type items :
  forall st st',
  scan_items sep directory directory_type items st = Ok st' ->
  forall q, In q (fst st') ->
  In q (fst st)
  \/ exists item, In item items
       /\ read_item sep directory directory_type item = Ok (Some q).
Proof.
  induction items as [|item rest IH]; intros st st'; cbn [scan_items].
  - intros [= <-] q I. now left.
  - destruct (read_item sep directory directory_type item) as [[p|]|e|] eqn:R;
      cbn [bind]; try discriminate; intros H q I.
    + destruct (IH _ _ H q I) as [K | [it [Ii Ri]]].
      * apply keep_in in K. destruct K as [K | ->]; [now left|].
        right. exists item. split; [now left | exact R].
      * right. exists it. split; [now right | exact Ri].
    + destruct (IH _ _ H q I) as [K | [it [Ii Ri]]]; [now left|].
      right. exists it. split; [now right | exact Ri].
Qed.

Lemma get_info_read_from sep directory directory_type items info p :
  get_info_from_site_packages_dir sep directory directory_type items
  = Ok info ->
  In p info ->
  exists item, In item items
    /\ read_item sep directory directory_type item = Ok (Some p).
Proof.
  unfold get_info_from_site_packages_dir.
  destruct (scan_items sep directory directory_type items ([], []))
    as [st|e|] eqn:E; cbn [bind]; try discriminate.
  intros [= <-] I.
  destruct (scan_items_from _ _ _ _ _ _ E p I) as [[] | R]. exact R.
Qed.

Lemma get_info_type sep directory directory_type items info p :
  get_info_from_site_packages_dir sep directory directory_type items
  = Ok info ->
  In p info -> pkg_type p = directory_type.
Proof.
  intros G I. destruct (get_info_read_from _ _ _ _ _ _ G I) as [item [_ R]].
  now apply read_item_place in R.
Qed.

(** X22 (get_info_from_site_packages_dir).  Every package of the
    returned list has the type handed in, and its directory is the
    directory scanned, the separator and the name of an entry that is a
    directory, whose name ends with .dist-info or .egg-info and which
    holds the metadata file (METADATA for the first, PKG-INFO for the
    second). *)
Theorem listed_packages_come_from_info_directories
  sep directory directory_type items info p :
  get_info_from_site_packages_dir sep directory directory_type items
  = Ok info ->
  In p info ->
  pkg_type p = directory_type
  /\ exists item,
       In item items
       /\ item_is_dir item = true
       /\ (endswith ".dist-info" (item_name item) = true
           \/ endswith ".egg-info" (item_name item) = true)
       /\ Dict.mem (if endswith ".dist-info" (item_name item)
                    then "METADATA" else "PKG-INFO") (item_files item)
          = true
       /\ pkg_directory p = (directory ++ sep ++ item_name item)%string.
Proof.
  intros G I. destruct (get_info_read_from _ _ _ _ _ _ G I) as [item [Ii R]].
  destruct (read_item_place _ _ _ _ _ R) as [D [T P]].
  split; auto. exists item. split; auto.
  unfold info_directory in D. apply andb_true_iff in D.
  destruct D as [D1 D2]. apply orb_true_iff in D2.
  repeat split; auto.
  unfold read_item in R. fold (info_directory item) in R.
  cbv zeta in R. unfold Dict.mem.
  destruct (info_directory item); [|discriminate].
  destruct (Dict.get _ (item_files item)); [reflexivity | discriminate].
Qed.

Lemma listed_packages_come_from_info_directories_witness :
  get_info_from_site_packages_dir "/" "/usr/lib/python3.11/site-packages"
    "system" Sample.items
  = Ok [Sample.foo; Sample.baz]
  /\ In Sample.baz [Sample.foo; Sample.baz]
  /\ pkg_type Sample.baz = "system".
Proof.
  assert (H : get_info_from_site_packages_dir "/"
                "/usr/lib/python3.11/site-packages" "system" Sample.items
              = Ok [Sample.foo; Sample.baz])
    by (vm_compute; reflexivity).
  assert (I : In Sample.baz [Sample.foo; Sample.baz])
    by (right; left; reflexivity).
  split; [exact H|]. split; [exact I|].
  exact (proj1 (listed_packages_come_from_info_directories
                  _ _ _ _ _ _ H I)).
Defined.

(* ================================================================== *)
(** * Properties of the command line *)

Lemma process_option_exits name p :
  process_option name p = None
  <-> is_one_of name ["--help"; "-?"; "--version"] = true.
Proof.
  assert (R : is_one_of name ["--help"; "-?"; "--version"]
              = is_one_of name ["--help"; "-?"]
                || String.eqb name "--version").
  { unfold is_one_of. cbn [existsb].
    destruct (String.eqb name "--help"), (String.eqb name "-?"),
      (String.eqb name "--version"); reflexivity. }
  rewrite R. clear R. unfold process_option. destruct p.
  destruct (String.eqb name "--debug") eqn:D.
  - apply String.eqb_eq in D. subst name. split; discriminate.
  - destruct (is_one_of name ["--help"; "-?"]); [split; reflexivity|].
    destruct (String.eqb name "--version"); [split; reflexivity|].
    repeat match goal with
           | |- context [if ?c then _ else _] => destruct c
           end; split; discriminate.
Qed.

(** X23 (_process_command_line, lines 149-160).  The options are
    processed to the end unless one of them is --help, -? or --version, and
    then the program exits, whatever the other options are. *)
Theorem help_and_version_stop_the_program options p :
  process_options options p = None
  <-> exists name, In name options
        /\ (name = "--help" \/ name = "-?" \/ name = "--version").
Proof.
  revert p. induction options as [|name rest IH]; intros p;
    cbn [process_options].
  - split; [discriminate | intros [n [[] _]]].
  - destruct (process_option name p) as [p'|] eqn:E.
    + rewrite IH. split.
      * intros [n [I H]]. exists n. split; auto. now right.
      * intros [n [[<- | I] H]]; [|now exists n].
        exfalso.
        assert (X : process_option name p = None).
        { apply process_option_exits. unfold is_one_of. cbn [existsb].
          destruct H as [-> | [-> | ->]]; reflexivity. }
        congruence.
    + split; auto. intros _. exists name. split; [now left|].
      apply process_option_exits in E. unfold is_one_of in E.
      cbn [existsb] in E.
      repeat (apply orb_true_iff in E; destruct E as [E | E]);
        try discriminate; apply String.eqb_eq in E; auto.
Qed.

Lemma process_option_coherent name p p' :
  coherent p = true -> process_option name p = Some p' ->
  coherent p' = true.
Proof.
  unfold process_option.
  destruct p as [latest vulns color progress info user system
                   outdated uptodate vulnerable healthy issues
                   not_required required].
  intros C.
  repeat match goal with
         | |- (if ?c then _ else _) = _ -> _ => destruct c
         end;
    try discriminate; intros [= <-]; try exact C;
    revert C; unfold coherent;
    cbn [check_latest_versions check_vulnerabilities select_user
         select_system select_outdated select_latest select_vulnerable
         select_healthy select_issues select_not_required select_required];
    destruct latest, vulns, user, system, outdated, uptodate, vulnerable,
      healthy, issues, not_required, required;
    try reflexivity; try (intros; discriminate).
Qed.

Lemma process_options_coherent options : forall p p',
  coherent p = true -> process_options options p = Some p' ->
  coherent p' = true.
Proof.
  induction options as [|name rest IH]; intros p p' C;
    cbn [process_options].
  - now intros [= <-].
  - destruct (process_option name p) as [q|] eqn:E; [|discriminate].
    apply IH. eapply process_option_coherent; eauto.
Qed.

(** X24 (_process_command_line, lines 162-224).  Whatever the options
    given, the parameters left are coherent: user excludes system,
    required excludes not required, outdated excludes latest, vulnerable
    excludes healthy, issues excludes these four, and a selection that
    reads the latest versions or the vulnerabilities has turned the
    matching check on. *)
Theorem selections_are_coherent options p :
  process_options options default_parameters = Some p ->
  (select_user p = true -> select_system p = false)
  /\ (select_required p = true -> select_not_required p = false)
  /\ (select_outdated p = true -> select_latest p = false)
  /\ (select_vulnerable p = true -> select_healthy p = false)
  /\ (select_issues p = true ->
      select_outdated p = false /\ select_latest p = false
      /\ select_vulnerable p = false /\ select_healthy p = false)
  /\ (select_outdated p = true \/ select_latest p = true
      \/ select_issues p = true -> check_latest_versions p = true)
  /\ (select_vulnerable p = true \/ select_healthy p = true
      \/ select_issues p = true -> check_vulnerabilities p = true).
Proof.
  intros H.
  assert (C : coherent p = true)
    by (eapply process_options_coherent; [|exact H]; reflexivity).
  clear H. revert C. unfold coherent.
  destruct (select_user p), (select_system p), (select_required p),
    (select_not_required p), (select_outdated p), (select_latest p),
    (select_vulnerable p), (select_healthy p), (select_issues p),
    (check_latest_versions p), (check_vulnerabilities p);
    cbn; intros C; try discriminate; intuition congruence.
Qed.

Lemma selections_are_coherent_witness :
  process_options ["-O"; "-I"; "-V"; "-R"; "-N"] default_parameters
  = Some Sample.asked
  /\ select_healthy Sample.asked = false
  /\ check_vulnerabilities Sample.asked = true.
Proof.
  assert (H : process_options ["-O"; "-I"; "-V"; "-R"; "-N"]
                default_parameters = Some Sample.asked)
    by (vm_compute; reflexivity).
  split; [exact H|].
  pose proof (selections_are_coherent _ _ H) as C.
  split.
  - exact (proj1 (proj2 (proj2 (proj2 C))) eq_refl).
  - exact (proj2 (proj2 (proj2 (proj2 (proj2 (proj2 C)))))
             (or_introl eq_refl)).
Defined.

(* ================================================================== *)
(** * Properties of the user and system lists *)

Lemma site_dirs_items py : forall dirs (acc : Dict.t string),
  (forall d v, In (d, v) acc ->
     In d (sys_path py) /\ endswith "site-packages" d = true
     /\ v = site_kind py d) ->
  incl dirs (sys_path py) ->
  forall d v,
  In (d, v)
    (fold_left
       (fun site_packages_dirs directory =>
          if endswith "site-packages" directory
          then Dict.set directory (site_kind py directory) site_packages_dirs
          else site_packages_dirs)
       dirs acc) ->
  In d (sys_path py) /\ endswith "site-packages" d = true
  /\ v = site_kind py d.
Proof.
  induction dirs as [|x r IH]; intros acc A I; cbn [fold_left]; auto.
  apply IH.
  - destruct (endswith "site-packages" x) eqn:E; auto.
    intros d v H. apply in_set in H. destruct H as [[= -> ->] | H]; auto.
    repeat split; auto. apply I. now left.
  - intros y Hy. apply I. now right.
Qed.

Lemma add_packages_in mine packages p :
  In p (add_packages mine packages) <-> In p mine \/ In p packages.
Proof.
  unfold add_packages. destruct mine as [|m ms].
  - cbn. tauto.
  - apply in_app_iff.
Qed.

Section UserAndSystemFacts.
Variable py : interpreter.
Variable scandir : string -> list dir_item.

Lemma visit_found st st' d v :
  In d (sys_path py) -> endswith "site-packages" d = true ->
  v = site_kind py d ->
  (forall p, In p (fst st) -> found_in py scandir "user" p) ->
  (forall p, In p (snd st) -> found_in py scandir "system" p) ->
  visit py scandir st (d, v) = Ok st' ->
  (forall p, In p (fst st') -> found_in py scandir "user" p)
  /\ (forall p, In p (snd st') -> found_in py scandir "system" p).
Proof.
  destruct st as [user system]. cbn [fst snd]. intros I E K U S.
  unfold visit.
  destruct (get_info_from_site_packages_dir (os_sep py) d v (scandir d))
    as [info| |] eqn:G; cbn [bind]; try discriminate.
  assert (F : forall p, In p info -> found_in py scandir v p).
  { intros p Ip. exists d, info. repeat split; auto. }
  destruct (String.eqb v "user") eqn:Ev; intros [= <-]; cbn [fst snd].
  - apply String.eqb_eq in Ev. rewrite Ev in F. split; auto.
    intros p Hp. apply add_packages_in in Hp. destruct Hp; auto.
  - assert (Es : v = "system").
    { subst v. unfold site_kind in *.
      destruct (Py.startswith (system_prefix py) d); auto. discriminate. }
    rewrite Es in F. split; auto.
    intros p Hp. apply add_packages_in in Hp. destruct Hp; auto.
Qed.

Lemma visit_all_found : forall (dirs : Dict.t string) st st',
  (forall d v, In (d, v) dirs ->
     In d (sys_path py) /\ endswith "site-packages" d = true
     /\ v = site_kind py d) ->
  (forall p, In p (fst st) -> found_in py scandir "user" p) ->
  (forall p, In p (snd st) -> found_in py scandir "system" p) ->
  visit_all py scandir dirs st = Ok st' ->
  (forall p, In p (fst st') -> found_in py scandir "user" p)
  /\ (forall p, In p (snd st') -> found_in py scandir "system" p).
Proof.
  induction dirs as [|[d v] rest IH]; intros st st' D U S;
    cbn [visit_all].
  - intros [= <-]. now split.
  - destruct (visit py scandir st (d, v)) as [st1| |] eqn:E; cbn [bind];
      try discriminate.
    destruct (D d v (or_introl eq_refl)) as [I [Es K]].
    destruct (visit_found _ _ _ _ I Es K U S E) as [U1 S1].
    apply IH; auto. intros d' v' H. apply D. now right.
Qed.

End UserAndSystemFacts.

(** X25 (get_user_and_system_packages).  Every package of the first
    list returned has the type user and was read in a site-packages
    directory of sys.path outside the system prefix; every package of the
    second list has the type system and was read in one under the system
    prefix. *)
Theorem user_and_system_lists_are_sorted_by_kind py scandir user system :
  get_user_and_system_packages py scandir = Ok (user, system) ->
  (forall p, In p user ->
     pkg_type p = "user"
     /\ exists directory info,
          In directory (sys_path py)
          /\ endswith "site-packages" directory = true
          /\ Py.startswith (system_prefix py) directory = false
          /\ get_info_from_site_packages_dir (os_sep py) directory "user"
               (scandir directory) = Ok info
          /\ In p info)
  /\ (forall p, In p system ->
        pkg_type p = "system"
        /\ exists directory info,
             In directory (sys_path py)
             /\ endswith "site-packages" directory = true
             /\ Py.startswith (system_prefix py) directory = true
             /\ get_info_from_site_packages_dir (os_sep py) directory
                  "system" (scandir directory) = Ok info
             /\ In p info).
Proof.
  unfold get_user_and_system_packages. intros H.
  destruct (visit_all_found py scandir (get_site_package_dirs py) ([], [])
              (user, system)) as [U S]; auto.
  - unfold get_site_package_dirs. apply site_dirs_items.
    + intros d v [].
    + apply incl_refl.
  - intros p [].
  - intros p [].
  - cbn [fst snd] in *. split; intros p Hp.
    + destruct (U p Hp) as [d [info [I [E [K [G Ip]]]]]].
      split.
      * exact (get_info_type _ _ _ _ _ _ G Ip).
      * exists d, info. repeat split; auto.
        unfold site_kind in K.
        destruct (Py.startswith (system_prefix py) d); auto. discriminate.
    + destruct (S p Hp) as [d [info [I [E [K [G Ip]]]]]].
      split.
      * exact (get_info_type _ _ _ _ _ _ G Ip).
      * exists d, info. repeat split; auto.
        unfold site_kind in K.
        destruct (Py.startswith (system_prefix py) d); auto. discriminate.
Qed.

Lemma user_and_system_lists_are_sorted_by_kind_witness :
  get_user_and_system_packages Sample.python Sample.scandir
  = Ok ([Sample.mine], [Sample.foo; Sample.baz])
  /\ (forall p, In p [Sample.mine] -> pkg_type p = "user")
  /\ (forall p, In p [Sample.foo; Sample.baz] -> pkg_type p = "system").
Proof.
  assert (H : get_user_and_system_packages Sample.python Sample.scandir
              = Ok ([Sample.mine], [Sample.foo; Sample.baz]))
    by (vm_compute; reflexivity).
  split; [exact H|].
  pose proof (user_and_system_lists_are_sorted_by_kind _ _ _ _ H) as C.
  split; intros p I.
  - exact (proj1 (proj1 C p I)).
  - exact (proj1 (proj2 C p I)).
Defined.

(* ================================================================== *)
(** * Properties of the checks of main *)

Lemma comprehension_raise test : forall packages e,
  comprehension test packages = Raise e ->
  exists x, In x packages /\ test x = Raise e.
Proof.
  induction packages as [|x rest IH]; intros e; cbn [comprehension];
    [discriminate|].
  intros H. apply result_bind_raise in H.
  destruct H as [H | [b [_ H]]].
  - exists x. split; [now left | exact H].
  - apply result_bind_raise in H. destruct H as [H | [kept [_ H]]];
      [|discriminate].
    destruct (IH _ H) as [y [I T]]. exists y. split; [now right | exact T].
Qed.

Lemma comprehension_incl test : forall packages kept,
  comprehension test packages = Ok kept -> incl kept packages.
Proof.
  induction packages as [|x rest IH]; intros kept; cbn [comprehension].
  - intros [= <-]. apply incl_refl.
  - intros H. apply result_bind_ok in H. destruct H as [b [_ H]].
    apply result_bind_ok in H. destruct H as [k [K H]].
    injection H as <-. apply IH in K. destruct b.
    + intros y [<- | Hy]; [now left | right; now apply K].
    + intros y Hy. right. now apply K.
Qed.

Section ChecksFacts.
Context {V : Type}.
Variable fetch : string -> result string.
Variable older : string -> string -> result bool.
Variable answer : string -> string -> result (list V).

(** When no call raises, the two loops build the dicts of
    [get_packages_latest_version] and [get_packages_vulnerabilities]. *)
Lemma latest_versions_from_answers (f : string -> string) packages :
  forall latest_versions,
  latest_versions_from (fun name => Ok (f name)) packages latest_versions
  = Ok (fold_left (note_latest f) packages latest_versions).
Proof.
  induction packages as [|p rest IH]; intros lv;
    cbn [latest_versions_from fold_left]; auto.
  unfold note_latest at 2.
  destruct (Dict.mem (pkg_name p) lv); cbn [bind]; apply IH.
Qed.

Lemma vulnerabilities_from_answers (f : string -> string -> list V)
  packages : forall vulnerabilities,
  vulnerabilities_from (fun name version => Ok (f name version)) packages
    vulnerabilities
  = Ok (fold_left note_vulnerabilities
          (map (fun x => (x, f (pkg_name x) (pkg_version x))) packages)
          vulnerabilities).
Proof.
  induction packages as [|p rest IH]; intros vs;
    cbn [vulnerabilities_from fold_left map bind]; auto.
Qed.

Lemma latest_versions_from_raise packages : forall latest_versions e,
  latest_versions_from fetch packages latest_versions = Raise e ->
  exists x, In x packages /\ fetch (pkg_name x) = Raise e.
Proof.
  induction packages as [|p rest IH]; intros lv e;
    cbn [latest_versions_from]; [discriminate|].
  destruct (Dict.mem (pkg_name p) lv).
  - intros H. destruct (IH _ _ H) as [x [I F]].
    exists x. split; [now right | exact F].
  - intros H. apply result_bind_raise in H.
    destruct H as [H | [v [_ H]]].
    + exists p. split; [now left | exact H].
    + destruct (IH _ _ H) as [x [I F]].
      exists x. split; [now right | exact F].
Qed.

Lemma latest_versions_from_keeps packages : forall latest_versions found,
  latest_versions_from fetch packages latest_versions = Ok found ->
  forall k v, Dict.get k latest_versions = Some v ->
              Dict.get k found = Some v.
Proof.
  induction packages as [|p rest IH]; intros lv found;
    cbn [latest_versions_from].
  - now intros [= <-].
  - destruct (Dict.mem (pkg_name p) lv) eqn:M.
    + apply IH.
    + intros H k v G. apply result_bind_ok in H.
      destruct H as [w [_ H]]. apply (IH _ _ H).
      rewrite get_set_other; auto.
      intros E. rewrite <- E in G. unfold Dict.mem in M.
      now rewrite G in M.
Qed.

Lemma latest_versions_from_known packages : forall latest_versions found,
  latest_versions_from fetch packages latest_versions = Ok found ->
  forall x, In x packages ->
  exists v, Dict.get (pkg_name x) found = Some v
            /\ (Dict.get (pkg_name x) latest_versions = Some v
                \/ fetch (pkg_name x) = Ok v).
Proof.
  induction packages as [|p rest IH]; intros lv found;
    cbn [latest_versions_from]; [intros _ x []|].
  destruct (Dict.mem (pkg_name p) lv) eqn:M.
  - intros H x [<- | I]; [|now apply (IH _ _ H)].
    unfold Dict.mem in M.
    destruct (Dict.get (pkg_name p) lv) as [v|] eqn:G; [|discriminate].
    exists v. split; [|now left].
    exact (latest_versions_from_keeps _ _ _ H _ _ G).
  - intros H x I. apply result_bind_ok in H. destruct H as [w [F H]].
    destruct I as [<- | I].
    + exists w. split; [|now right].
      apply (latest_versions_from_keeps _ _ _ H). apply get_set_same.
    + destruct (IH _ _ H x I) as [v [G K]].
      exists v. split; [exact G|].
      destruct K as [K | K]; [|now right].
      destruct (String.eqb (pkg_name p) (pkg_name x)) eqn:E.
      * apply String.eqb_eq in E. rewrite <- E in *.
        rewrite get_set_same in K. injection K as <-. now right.
      * apply String.eqb_neq in E. rewrite get_set_other in K by exact E.
        now left.
Qed.

Lemma vulnerabilities_from_raise packages : forall vulnerabilities e,
  vulnerabilities_from answer packages vulnerabilities = Raise e ->
  exists x, In x packages
            /\ answer (pkg_name x) (pkg_version x) = Raise e.
Proof.
  induction packages as [|p rest IH]; intros vs e;
    cbn [vulnerabilities_from]; [discriminate|].
  intros H. apply result_bind_raise in H.
  destruct H as [H | [v [_ H]]].
  - exists p. split; [now left | exact H].
  - destruct (IH _ _ H) as [x [I F]].
    exists x. split; [now right | exact F].
Qed.

Lemma outdated_raise found packages x e :
  latest_versions_from fetch packages [] = Ok found ->
  In x packages ->
  is_package_outdated older x found = Raise e ->
  exists v, fetch (pkg_name x) = Ok v
            /\ older (pkg_version x) v = Raise e.
Proof.
  intros L I. destruct (latest_versions_from_known _ _ _ L x I)
    as [v [G [K | K]]]; [discriminate|].
  unfold is_package_outdated. rewrite G.
  destruct (negb (Py.truthy v)); [discriminate|].
  intros H. now exists v.
Qed.

Lemma select_by_checks_raise p packages e :
  coherent p = true ->
  select_by_checks fetch older answer p packages = Raise e ->
  (exists x, In x packages /\ fetch (pkg_name x) = Raise e)
  \/ (exists x, In x packages
                /\ answer (pkg_name x) (pkg_version x) = Raise e)
  \/ (exists x v, In x packages /\ fetch (pkg_name x) = Ok v
                  /\ older (pkg_version x) v = Raise e).
Proof.
  intros C. unfold select_by_checks. intros H.
  apply result_bind_raise in H. destruct H as [H | [lv [L H]]].
  { left. destruct (check_latest_versions p); [|discriminate].
    destruct (progress_meter p); now apply latest_versions_from_raise in H. }
  assert (K : select_outdated p = true \/ select_latest p = true
              \/ select_issues p = true ->
              latest_versions_from fetch packages [] = Ok lv).
  { revert C L. unfold coherent.
    destruct (select_outdated p), (select_latest p), (select_issues p),
      (check_latest_versions p), (progress_meter p); auto;
      rewrite ?andb_false_r; cbn; intros ? ? [? | [? | ?]]; discriminate. }
  assert (O : forall x, In x packages ->
                is_package_outdated older x lv = Raise e ->
                select_outdated p = true \/ select_latest p = true
                \/ select_issues p = true ->
                exists y v, In y packages /\ fetch (pkg_name y) = Ok v
                            /\ older (pkg_version y) v = Raise e).
  { intros x I R S. destruct (outdated_raise _ _ _ _ (K S) I R) as [v [F Q]].
    now exists x, v. }
  apply result_bind_raise in H. destruct H as [H | [kept [Kp H]]].
  { right. right. destruct (select_outdated p) eqn:So.
    - apply comprehension_raise in H. destruct H as [x [I T]].
      apply (O x I T). now left.
    - destruct (select_latest p) eqn:Sl; [|discriminate].
      apply comprehension_raise in H. destruct H as [x [I T]].
      apply result_bind_raise in T.
      destruct T as [T | [b [_ T]]]; [|discriminate].
      apply (O x I T). right. now left. }
  assert (I1 : incl kept packages).
  { destruct (select_outdated p);
      [now apply comprehension_incl in Kp|].
    destruct (select_latest p);
      [now apply comprehension_incl in Kp|].
    injection Kp as <-. apply incl_refl. }
  apply result_bind_raise in H. destruct H as [H | [vs [Vs H]]].
  { right. left. destruct (check_vulnerabilities p); [|discriminate].
    assert (R : vulnerabilities_from answer kept [] = Raise e)
      by (destruct (progress_meter p); exact H).
    apply vulnerabilities_from_raise in R. destruct R as [x [I F]].
    exists x. split; [now apply I1 | exact F]. }
  cbv zeta in H. apply result_bind_raise in H.
  destruct H as [H | [last [_ H]]]; [|discriminate].
  destruct (select_issues p) eqn:Si; [|discriminate].
  apply comprehension_raise in H. destruct H as [x [I T]].
  assert (Ix : In x packages).
  { apply I1.
    destruct (select_vulnerable p);
      [now apply filter_In in I|].
    destruct (select_healthy p); [now apply filter_In in I | exact I]. }
  right. right.
  unfold outdated_or_vulnerable in T. apply result_bind_raise in T.
  destruct T as [T | [b [_ T]]].
  - apply (O x Ix T). right. now right.
  - destruct b; discriminate.
Qed.

Lemma select_by_checks_unchecked p x rest :
  select_outdated p = true -> check_latest_versions p = false ->
  select_by_checks fetch older answer p (x :: rest) = Raise KeyError.
Proof.
  intros S C. unfold select_by_checks. rewrite C, S. reflexivity.
Qed.

End ChecksFacts.

(** X26 (main, lines 258-282).  The calls that leave the program may
    raise: get_package_latest_version, get_package_vulnerabilities and the
    comparison of two versions.  With parameters that come from the
    command line, an exception raised by the checks of main is the
    exception of one of these calls for a listed package (the latest
    version of its name, the vulnerabilities of its name and version, or
    the comparison of its version with the latest version fetched): the
    subscripts of is_package_outdated add none, because a selection that
    reads the latest versions has had them fetched for the list it
    filters.  This is owed to the command line: with Outdated selected
    and the check of the latest versions off, the subscript raises
    KeyError on any list that is not empty, whatever the calls answer. *)
Theorem checks_raise_only_what_a_call_raises {V : Type}
  (fetch : string -> result string)
  (older : string -> string -> result bool)
  (answer : string -> string -> result (list V)) options p packages e :
  process_options options default_parameters = Some p ->
  select_by_checks fetch older answer p packages = Raise e ->
  ((exists x, In x packages /\ fetch (pkg_name x) = Raise e)
   \/ (exists x, In x packages
                 /\ answer (pkg_name x) (pkg_version x) = Raise e)
   \/ (exists x v, In x packages /\ fetch (pkg_name x) = Ok v
                   /\ older (pkg_version x) v = Raise e))
  /\ (forall q x rest,
        select_outdated q = true -> check_latest_versions q = false ->
        select_by_checks fetch older answer q (x :: rest)
        = Raise KeyError).
Proof.
  intros O R. split.
  - apply (select_by_checks_raise fetch older answer p); auto.
    eapply process_options_coherent; [|exact O]. reflexivity.
  - apply select_by_checks_unchecked.
Qed.

Lemma checks_raise_only_what_a_call_raises_witness :
  process_options ["-O"] default_parameters
  = Some (mk_parameters true false true true false
            false false true false false false false false false)
  /\ select_by_checks
       (fun name => if String.eqb name "baz"
                    then Raise (LibraryError "URLError") else Ok "2")
       (fun _ _ => Ok true) (fun _ _ => Ok (@nil nat))
       (mk_parameters true false true true false
          false false true false false false false false false)
       [Sample.foo; Sample.baz]
     = Raise (LibraryError "URLError")
  /\ ((exists x, In x [Sample.foo; Sample.baz]
                 /\ (if String.eqb (pkg_name x) "baz"
                     then Raise (LibraryError "URLError") else Ok "2")
                    = Raise (LibraryError "URLError"))
      \/ (exists x, In x [Sample.foo; Sample.baz]
                    /\ Ok (@nil nat) = Raise (LibraryError "URLError"))
      \/ (exists x v, In x [Sample.foo; Sample.baz]
                      /\ (if String.eqb (pkg_name x) "baz"
                          then Raise (LibraryError "URLError") else Ok "2")
                         = Ok v
                      /\ Ok true = Raise (LibraryError "URLError"))).
Proof.
  assert (O : process_options ["-O"] default_parameters
              = Some (mk_parameters true false true true false
                        false false true false false false false false
                        false))
    by (vm_compute; reflexivity).
  assert (R : select_by_checks
                (fun name => if String.eqb name "baz"
                             then Raise (LibraryError "URLError")
                             else Ok "2")
                (fun _ _ => Ok true) (fun _ _ => Ok (@nil nat))
                (mk_parameters true false true true false
                   false false true false false false false false false)
                [Sample.foo; Sample.baz]
              = Raise (LibraryError "URLError"))
    by (vm_compute; reflexivity).
  split; [exact O|]. split; [exact R|].
  exact (proj1 (checks_raise_only_what_a_call_raises _ _ _ _ _ _ _
                  O R)).
Defined.
